(** * Circle metronome: beat engine, tap tempo, tempo ramps and zoom

    A shallow embedding of the three React components of the repository:
    the basic circular metronome (src/unnamed/part_000), the trial
    circular metronome with tap tempo and the slowdown ramp
    (src/unnamed/part_001) and, for its tempo controls and tempo effect,
    the pendulum metronome (second document of src/app/layout.tsx, whose
    handlers are the code of the basic circular one).

    Conventions of the embedding.
    - JavaScript numbers are exact rationals ([Q]); tempo values, tap
      timestamps ([Date.now()]) and timer delays are integers ([Z]).
      Rounding of IEEE doubles is not modelled.
    - [useState] cells and [useRef] cells are fields of one record; a
      handler, effect body or timer callback is a function on that record.
      Each of them reads the state of the latest render and its updates
      are applied before the next one runs.
    - The host (timers, the clock of the timers, the audio backend) is
      part of the record; [Date.now()] and [performance.now()] readings
      are arguments of the functions that make them. *)

From Stdlib Require Import ZArith QArith Qround Lia Lqa List Bool.
Import ListNotations.

Set Implicit Arguments.

(** ** JavaScript numbers *)

Module JS.

Local Open Scope Q_scope.

(** [Math.floor]. *)
Definition floor (x : Q) : Z := Qfloor x.

(** Truncation toward zero, the quotient behind [%]. *)
Definition trunc (x : Q) : Z := Z.quot (Qnum x) (Zpos (Qden x)).

(** [a % b]: the remainder takes the sign of the dividend. *)
Definition rem (a b : Q) : Q := a - b * inject_Z (trunc (a / b)).

(** [Math.round]: to the nearest integer, halves upward. *)
Definition round (x : Q) : Z := Qfloor (x + (1 # 2)).

(** [!r.current] is false for a cell of type [number | null] when it
    holds a number other than zero. *)
Definition truthy (r : option Q) : bool :=
  match r with
  | Some x => negb (Qeq_bool x 0)
  | None => false
  end.

(** Timer handles are positive integers; [null] and [0] are falsy. *)
Definition live (r : option nat) : bool :=
  match r with
  | Some (S _) => true
  | _ => false
  end.

End JS.

(** ** Data *)

Inductive variant : Type :=
| Circle   (* part_000, and the tempo controls of the pendulum *)
| Trial.   (* part_001 *)

Inductive direction : Type := Increase | Decrease.

(** The closures handed to [setInterval] and [setTimeout]. *)
Inductive callback : Type :=
| HoldRepeat (d : direction)
| FirstAcceleration (d : direction)
| SecondAcceleration (d : direction)
| TimeTracking
| TapSessionEnd.

Record timer : Type := {
  handle : nat;
  due : Z;                  (* host time of the next firing, ms *)
  every : option Z;         (* [Some p] for setInterval, [None] for setTimeout *)
  action : callback
}.

(** [bpm], [isPlaying], [displayBpm], [isSlowingDown], [showUpgradeMessage]. *)
Record tempoState : Type := {
  bpm : Z;
  isPlaying : bool;
  displayBpm : Z;
  isSlowingDown : bool;
  showUpgradeMessage : bool
}.

Record visualState : Type := {
  dotPosition : Q;
  scaleEffect : Q;
  hasReached75Percent : bool
}.

Record sessionState : Type := {
  sessionCount : Z;
  isTrialExpired : bool;
  hasUpgraded : bool
}.

Record tapState : Type := {
  tapTimes : list Z;
  showTapButton : bool;
  tapTimeoutRef : option nat
}.

(** Refs for audio and animation. *)
Record timingRefs : Type := {
  audioContextRef : bool;          (* false: construction failed, null *)
  animationRef : option nat;
  startTimeRef : option Q;
  lastBeatTimeRef : option Q;
  currentBpmRef : Z
}.

(** Slowdown-specific refs. *)
Record slowdownRefs : Type := {
  runningTimeRef : Z;
  timeTrackingIntervalRef : option nat;
  originalBpmRef : Z;
  hasDecrementedThisCycleRef : bool
}.

(** Refs for button hold functionality and against double event firing. *)
Record holdRefs : Type := {
  increaseIntervalRef : option nat;
  decreaseIntervalRef : option nat;
  increaseTimeoutsRef : list nat;
  decreaseTimeoutsRef : list nat;
  increaseTouchActiveRef : bool;
  decreaseTouchActiveRef : bool;
  lastIncreaseTimeRef : Z;
  lastDecreaseTimeRef : Z
}.

(** The host: pending timers in creation order, the clock the timers run
    on, the next free handle, the tones started so far and every call of
    [setBpm] (host time, value written), newest first. *)
Record host : Type := {
  timers : list timer;
  clock : Z;
  nextHandle : nat;
  clicks : nat;
  bpmLog : list (Z * Z)
}.

Record component : Type := {
  tempo :> tempoState;
  visual :> visualState;
  session :> sessionState;
  tap :> tapState;
  timing :> timingRefs;
  slowdown :> slowdownRefs;
  hold :> holdRefs;
  env :> host
}.

Definition MIN_BPM : Z := 30.
Definition MAX_BPM : Z := 240.
Definition BPM_STEP : Z := 1.
Definition DEBOUNCE_TIME : Z := 100.
Definition MAX_TRIAL_SESSION_COUNT : Z := 2.
Definition EXPIRED_TRIAL_RUN_TIME_SECONDS : Z := 10.

(** ** Cell updates *)

Definition with_tempo (f : tempoState -> tempoState) (s : component) : component :=
  Build_component (f (tempo s)) (visual s) (session s) (tap s) (timing s) (slowdown s) (hold s) (env s).
Definition with_visual (f : visualState -> visualState) (s : component) : component :=
  Build_component (tempo s) (f (visual s)) (session s) (tap s) (timing s) (slowdown s) (hold s) (env s).
Definition with_session (f : sessionState -> sessionState) (s : component) : component :=
  Build_component (tempo s) (visual s) (f (session s)) (tap s) (timing s) (slowdown s) (hold s) (env s).
Definition with_tap (f : tapState -> tapState) (s : component) : component :=
  Build_component (tempo s) (visual s) (session s) (f (tap s)) (timing s) (slowdown s) (hold s) (env s).
Definition with_timing (f : timingRefs -> timingRefs) (s : component) : component :=
  Build_component (tempo s) (visual s) (session s) (tap s) (f (timing s)) (slowdown s) (hold s) (env s).
Definition with_slowdown (f : slowdownRefs -> slowdownRefs) (s : component) : component :=
  Build_component (tempo s) (visual s) (session s) (tap s) (timing s) (f (slowdown s)) (hold s) (env s).
Definition with_hold (f : holdRefs -> holdRefs) (s : component) : component :=
  Build_component (tempo s) (visual s) (session s) (tap s) (timing s) (slowdown s) (f (hold s)) (env s).
Definition with_env (f : host -> host) (s : component) : component :=
  Build_component (tempo s) (visual s) (session s) (tap s) (timing s) (slowdown s) (hold s) (f (env s)).

(** [setBpm v]: the write is also entered in the host's log. *)
Definition setBpm (v : Z) (s : component) : component :=
  with_env (fun h => Build_host (timers h) (clock h) (nextHandle h) (clicks h)
                       ((clock h, v) :: bpmLog h))
    (with_tempo (fun t => Build_tempoState v (isPlaying t) (displayBpm t)
                            (isSlowingDown t) (showUpgradeMessage t)) s).

(** [setBpm((prev) => f prev)]. *)
Definition setBpmWith (f : Z -> Z) (s : component) : component :=
  setBpm (f (bpm s)) s.

Definition setIsPlaying (v : bool) : component -> component :=
  with_tempo (fun t => Build_tempoState (bpm t) v (displayBpm t)
                         (isSlowingDown t) (showUpgradeMessage t)).
Definition setDisplayBpm (v : Z) : component -> component :=
  with_tempo (fun t => Build_tempoState (bpm t) (isPlaying t) v
                         (isSlowingDown t) (showUpgradeMessage t)).
Definition setIsSlowingDown (v : bool) : component -> component :=
  with_tempo (fun t => Build_tempoState (bpm t) (isPlaying t) (displayBpm t)
                         v (showUpgradeMessage t)).
Definition setShowUpgradeMessage (v : bool) : component -> component :=
  with_tempo (fun t => Build_tempoState (bpm t) (isPlaying t) (displayBpm t)
                         (isSlowingDown t) v).

Definition setDotPosition (v : Q) : component -> component :=
  with_visual (fun x => Build_visualState v (scaleEffect x) (hasReached75Percent x)).
Definition setScaleEffect (v : Q) : component -> component :=
  with_visual (fun x => Build_visualState (dotPosition x) v (hasReached75Percent x)).
Definition setHasReached75Percent (v : bool) : component -> component :=
  with_visual (fun x => Build_visualState (dotPosition x) (scaleEffect x) v).

Definition setSessionCount (v : Z) : component -> component :=
  with_session (fun x => Build_sessionState v (isTrialExpired x) (hasUpgraded x)).
Definition setIsTrialExpired (v : bool) : component -> component :=
  with_session (fun x => Build_sessionState (sessionCount x) v (hasUpgraded x)).
Definition setHasUpgraded (v : bool) : component -> component :=
  with_session (fun x => Build_sessionState (sessionCount x) (isTrialExpired x) v).

Definition setTapTimes (v : list Z) : component -> component :=
  with_tap (fun x => Build_tapState v (showTapButton x) (tapTimeoutRef x)).
Definition setShowTapButton (v : bool) : component -> component :=
  with_tap (fun x => Build_tapState (tapTimes x) v (tapTimeoutRef x)).
Definition set_tapTimeoutRef (v : option nat) : component -> component :=
  with_tap (fun x => Build_tapState (tapTimes x) (showTapButton x) v).

Definition set_audioContextRef (v : bool) : component -> component :=
  with_timing (fun x => Build_timingRefs v (animationRef x) (startTimeRef x)
                          (lastBeatTimeRef x) (currentBpmRef x)).
Definition set_animationRef (v : option nat) : component -> component :=
  with_timing (fun x => Build_timingRefs (audioContextRef x) v (startTimeRef x)
                          (lastBeatTimeRef x) (currentBpmRef x)).
Definition set_startTimeRef (v : option Q) : component -> component :=
  with_timing (fun x => Build_timingRefs (audioContextRef x) (animationRef x) v
                          (lastBeatTimeRef x) (currentBpmRef x)).
Definition set_lastBeatTimeRef (v : option Q) : component -> component :=
  with_timing (fun x => Build_timingRefs (audioContextRef x) (animationRef x)
                          (startTimeRef x) v (currentBpmRef x)).
Definition set_currentBpmRef (v : Z) : component -> component :=
  with_timing (fun x => Build_timingRefs (audioContextRef x) (animationRef x)
                          (startTimeRef x) (lastBeatTimeRef x) v).

Definition set_runningTimeRef (v : Z) : component -> component :=
  with_slowdown (fun x => Build_slowdownRefs v (timeTrackingIntervalRef x)
                            (originalBpmRef x) (hasDecrementedThisCycleRef x)).
Definition set_timeTrackingIntervalRef (v : option nat) : component -> component :=
  with_slowdown (fun x => Build_slowdownRefs (runningTimeRef x) v
                            (originalBpmRef x) (hasDecrementedThisCycleRef x)).
Definition set_originalBpmRef (v : Z) : component -> component :=
  with_slowdown (fun x => Build_slowdownRefs (runningTimeRef x)
                            (timeTrackingIntervalRef x) v (hasDecrementedThisCycleRef x)).
Definition set_hasDecrementedThisCycleRef (v : bool) : component -> component :=
  with_slowdown (fun x => Build_slowdownRefs (runningTimeRef x)
                            (timeTrackingIntervalRef x) (originalBpmRef x) v).

Definition set_intervalRef (d : direction) (v : option nat) : component -> component :=
  with_hold (fun x =>
    match d with
    | Increase =>
        Build_holdRefs v (decreaseIntervalRef x) (increaseTimeoutsRef x)
          (decreaseTimeoutsRef x) (increaseTouchActiveRef x)
          (decreaseTouchActiveRef x) (lastIncreaseTimeRef x) (lastDecreaseTimeRef x)
    | Decrease =>
        Build_holdRefs (increaseIntervalRef x) v (increaseTimeoutsRef x)
          (decreaseTimeoutsRef x) (increaseTouchActiveRef x)
          (decreaseTouchActiveRef x) (lastIncreaseTimeRef x) (lastDecreaseTimeRef x)
    end).
Definition set_timeoutsRef (d : direction) (v : list nat) : component -> component :=
  with_hold (fun x =>
    match d with
    | Increase =>
        Build_holdRefs (increaseIntervalRef x) (decreaseIntervalRef x) v
          (decreaseTimeoutsRef x) (increaseTouchActiveRef x)
          (decreaseTouchActiveRef x) (lastIncreaseTimeRef x) (lastDecreaseTimeRef x)
    | Decrease =>
        Build_holdRefs (increaseIntervalRef x) (decreaseIntervalRef x)
          (increaseTimeoutsRef x) v (increaseTouchActiveRef x)
          (decreaseTouchActiveRef x) (lastIncreaseTimeRef x) (lastDecreaseTimeRef x)
    end).
Definition set_touchActiveRef (d : direction) (v : bool) : component -> component :=
  with_hold (fun x =>
    match d with
    | Increase =>
        Build_holdRefs (increaseIntervalRef x) (decreaseIntervalRef x)
          (increaseTimeoutsRef x) (decreaseTimeoutsRef x) v
          (decreaseTouchActiveRef x) (lastIncreaseTimeRef x) (lastDecreaseTimeRef x)
    | Decrease =>
        Build_holdRefs (increaseIntervalRef x) (decreaseIntervalRef x)
          (increaseTimeoutsRef x) (decreaseTimeoutsRef x)
          (increaseTouchActiveRef x) v (lastIncreaseTimeRef x) (lastDecreaseTimeRef x)
    end).
Definition set_lastTimeRef (d : direction) (v : Z) : component -> component :=
  with_hold (fun x =>
    match d with
    | Increase =>
        Build_holdRefs (increaseIntervalRef x) (decreaseIntervalRef x)
          (increaseTimeoutsRef x) (decreaseTimeoutsRef x)
          (increaseTouchActiveRef x) (decreaseTouchActiveRef x) v (lastDecreaseTimeRef x)
    | Decrease =>
        Build_holdRefs (increaseIntervalRef x) (decreaseIntervalRef x)
          (increaseTimeoutsRef x) (decreaseTimeoutsRef x)
          (increaseTouchActiveRef x) (decreaseTouchActiveRef x) (lastIncreaseTimeRef x) v
    end).

(** The two controls run the same code on their own cells. *)
Definition intervalRef (d : direction) (s : component) : option nat :=
  match d with Increase => increaseIntervalRef s | Decrease => decreaseIntervalRef s end.
Definition timeoutsRef (d : direction) (s : component) : list nat :=
  match d with Increase => increaseTimeoutsRef s | Decrease => decreaseTimeoutsRef s end.
Definition touchActiveRef (d : direction) (s : component) : bool :=
  match d with Increase => increaseTouchActiveRef s | Decrease => decreaseTouchActiveRef s end.
Definition lastTimeRef (d : direction) (s : component) : Z :=
  match d with Increase => lastIncreaseTimeRef s | Decrease => lastDecreaseTimeRef s end.

Definition set_timers (v : list timer) : component -> component :=
  with_env (fun h => Build_host v (clock h) (nextHandle h) (clicks h) (bpmLog h)).
Definition set_clock (v : Z) : component -> component :=
  with_env (fun h => Build_host (timers h) v (nextHandle h) (clicks h) (bpmLog h)).
Definition set_nextHandle (v : nat) : component -> component :=
  with_env (fun h => Build_host (timers h) (clock h) v (clicks h) (bpmLog h)).
Definition set_clicks (v : nat) : component -> component :=
  with_env (fun h => Build_host (timers h) (clock h) (nextHandle h) v (bpmLog h)).

(** ** The host: timers and tones *)

Definition addTimer (cb : callback) (ms : Z) (repeating : bool) (s : component)
  : nat * component :=
  let h := nextHandle s in
  let t := Build_timer h (clock s + ms) (if repeating then Some ms else None) cb in
  (h, set_nextHandle (S h) (set_timers (timers s ++ [t]) s)).

Definition setInterval (cb : callback) (ms : Z) : component -> nat * component :=
  addTimer cb ms true.

Definition setTimeout (cb : callback) (ms : Z) : component -> nat * component :=
  addTimer cb ms false.

(** [clearInterval(h)] and [clearTimeout(h)]: one pool of handles. *)
Definition clearTimer (h : nat) (s : component) : component :=
  set_timers (filter (fun t => negb (Nat.eqb (handle t) h)) (timers s)) s.

(** [if (ref.current) { clearInterval(ref.current) }] for a cell holding a handle. *)
Definition clearHandle (r : option nat) (s : component) : component :=
  match r with
  | Some h => if JS.live r then clearTimer h s else s
  | None => s
  end.

(** [playClickTone] and [playTapTone]: the same 220 Hz tone; nothing is
    started when the audio context could not be built. *)
Definition playClickTone (s : component) : component :=
  if audioContextRef s then set_clicks (S (clicks s)) s else s.

Definition playTapTone (s : component) : component :=
  if audioContextRef s then set_clicks (S (clicks s)) s else s.

(** [requestAnimationFrame(animate)], stored in [animationRef]. *)
Definition requestAnimationFrame (s : component) : component :=
  set_animationRef (Some (nextHandle s)) (set_nextHandle (S (nextHandle s)) s).

(** ** Timing anchor and animation *)

Definition resetTiming (now : Q) (s : component) : component :=
  setDotPosition 0 (set_lastBeatTimeRef (Some now) (set_startTimeRef (Some now) s)).

Definition stopAnimation (s : component) : component :=
  setDotPosition 0 (if JS.live (animationRef s) then set_animationRef None s else s).

Definition startAnimation (s : component) : component :=
  requestAnimationFrame s.

(** [60000 / currentBpm]; [None] is the division by zero, whose result
    ([Infinity]) is no rational. *)
Definition beatDurationMs (currentBpm : Z) : option Q :=
  if Z.eqb currentBpm 0 then None else Some (60000 / inject_Z currentBpm)%Q.

(** The frame callback [animate] of [animateMetronome], the same text in
    part_000 and part_001. *)
Definition animate (timestamp : Q) (s : component) : option component :=
  if negb (isPlaying s) then Some (stopAnimation s)
  else
    let s1 := if JS.truthy (startTimeRef s) then s
              else set_startTimeRef (Some timestamp) s in
    let s2 := if JS.truthy (lastBeatTimeRef s1) then s1
              else set_lastBeatTimeRef (Some timestamp) s1 in
    match beatDurationMs (currentBpmRef s2), lastBeatTimeRef s2 with
    | Some beatDuration, Some lastBeat =>
        let elapsedSinceLastBeat := (timestamp - lastBeat)%Q in
        let s3 :=
          if Qle_bool beatDuration elapsedSinceLastBeat then
            let beatsSinceLastBeat := JS.floor (elapsedSinceLastBeat / beatDuration) in
            set_lastBeatTimeRef
              (Some (lastBeat + inject_Z beatsSinceLastBeat * beatDuration)%Q)
              (playClickTone s2)
          else s2 in
        let beatProgress := (JS.rem elapsedSinceLastBeat beatDuration / beatDuration)%Q in
        let newPosition := (beatProgress * 360)%Q in
        Some (requestAnimationFrame (setDotPosition newPosition s3))
    | _, _ => None
    end.

(** ** Tempo steps *)

Definition togglePlayRecovers (s : component) : bool := Z.leb (bpm s) 0.

Definition togglePlay (v : variant) (s : component) : component :=
  match v with
  | Circle => setIsPlaying (negb (isPlaying s)) s
  | Trial =>
      let s1 := if togglePlayRecovers s then setDisplayBpm 70 (setBpm 70 s) else s in
      let s2 := if negb (isPlaying s) then setShowUpgradeMessage false s1 else s1 in
      setIsPlaying (negb (isPlaying s)) s2
  end.

(** The guard on [isSlowingDown] exists in part_001 only. *)
Definition manualAllowed (v : variant) (s : component) : bool :=
  match v with
  | Circle => true
  | Trial => negb (isSlowingDown s)
  end.

Definition increaseTempo (v : variant) (s : component) : component :=
  if Z.ltb (bpm s) MAX_BPM && manualAllowed v s
  then setBpmWith (fun prev => prev + BPM_STEP)%Z s
  else s.

Definition decreaseTempo (v : variant) (s : component) : component :=
  if Z.ltb MIN_BPM (bpm s) && manualAllowed v s
  then setBpmWith (fun prev => prev - BPM_STEP)%Z s
  else s.

Definition stepTempo (d : direction) : variant -> component -> component :=
  match d with
  | Increase => increaseTempo
  | Decrease => decreaseTempo
  end.

(** [debouncedIncrease] and [debouncedDecrease]; [now] is [Date.now()]. *)
Definition debounced (d : direction) (v : variant) (now : Z) (s : component)
  : component :=
  if Z.ltb (now - lastTimeRef d s) DEBOUNCE_TIME then s
  else stepTempo d v (set_lastTimeRef d now s).

(** The updater of the repeat closures:
    [prev < MAX_BPM ? prev + BPM_STEP : prev] and
    [prev > MIN_BPM ? prev - BPM_STEP : prev]. *)
Definition holdStep (d : direction) (prev : Z) : Z :=
  match d with
  | Increase => if Z.ltb prev MAX_BPM then prev + BPM_STEP else prev
  | Decrease => if Z.ltb MIN_BPM prev then prev - BPM_STEP else prev
  end%Z.

(** ** Press and hold *)

Definition releaseInterval (d : direction) (s : component) : component :=
  if JS.live (intervalRef d s)
  then set_intervalRef d None (clearHandle (intervalRef d s) s)
  else s.

Definition releaseTimeouts (d : direction) (s : component) : component :=
  set_timeoutsRef d []
    (fold_left (fun acc timeout => clearHandle (Some timeout) acc) (timeoutsRef d s) s).

Definition cleanupAllIntervals (v : variant) (s : component) : component :=
  let s1 := releaseTimeouts Increase (releaseInterval Increase s) in
  let s2 := releaseTimeouts Decrease (releaseInterval Decrease s1) in
  match v with
  | Circle =>
      set_touchActiveRef Decrease false (set_touchActiveRef Increase false s2)
  | Trial =>
      let s3 := if JS.live (timeTrackingIntervalRef s2)
                then set_timeTrackingIntervalRef None
                       (clearHandle (timeTrackingIntervalRef s2) s2)
                else s2 in
      let s4 := set_touchActiveRef Decrease false
                  (set_touchActiveRef Increase false s3) in
      if JS.live (tapTimeoutRef s4)
      then set_tapTimeoutRef None (clearHandle (tapTimeoutRef s4) s4)
      else s4
  end.

(** The part shared by the touch-start and the mouse-down handler of a
    control: cleanup, the debounced first step, the 500 ms repeat and the
    3000 ms timeout. *)
Definition armHold (d : direction) (v : variant) (now : Z) (s : component)
  : component :=
  let s1 := debounced d v now (cleanupAllIntervals v s) in
  let (h, s2) := setInterval (HoldRepeat d) 500 s1 in
  let s3 := set_intervalRef d (Some h) s2 in
  let (firstAcceleration, s4) := setTimeout (FirstAcceleration d) 3000 s3 in
  set_timeoutsRef d (timeoutsRef d s4 ++ [firstAcceleration]) s4.

Definition handleTouchStart (d : direction) (v : variant) (now : Z) (s : component)
  : component :=
  if touchActiveRef d s then s
  else armHold d v now (set_touchActiveRef d true s).

Definition handleTouchEnd (d : direction) (s : component) : component :=
  releaseTimeouts d (releaseInterval d (set_touchActiveRef d false s)).

Definition handleMouseDown (d : direction) (v : variant) (now : Z) (s : component)
  : component :=
  if touchActiveRef d s then s else armHold d v now s.

Definition handleMouseUp (d : direction) (s : component) : component :=
  if touchActiveRef d s then s
  else releaseTimeouts d (releaseInterval d s).

(** The cell the 200 ms interval is stored in.  In part_001 the two
    decrease handlers assign it to [increaseIntervalRef]
    (lines 703 and 755); everywhere else it goes to the control's own cell. *)
Definition secondIntervalCell (v : variant) (d : direction) : direction :=
  match v, d with
  | Trial, Decrease => Increase
  | _, _ => d
  end.

(** ** Tap tempo *)

(** The [for] loop of [handleTap]: [newTimes[i] - newTimes[i - 1]] for
    [i] from 1 below the length. *)
Definition tapIntervals (newTimes : list Z) : list Z :=
  map (fun i => nth i newTimes 0 - nth (i - 1) newTimes 0)%Z
      (seq 1 (length newTimes - 1)).

(** [Math.round(60000 / avgInterval)]; [None] is the division by an
    average of zero, whose result ([Infinity]) passes no range test. *)
Definition calculatedBpm (newTimes : list Z) : option Z :=
  let intervals := tapIntervals newTimes in
  let total := fold_left (fun sum interval => sum + interval)%Z intervals 0%Z in
  let avgInterval := (inject_Z total / inject_Z (Z.of_nat (length intervals)))%Q in
  if Qeq_bool avgInterval 0 then None
  else Some (JS.round (60000 / avgInterval)).

(** The window after a tap: append, then [shift] once when longer than 8. *)
Definition tapWindow (prev : list Z) (now : Z) : list Z :=
  let newTimes := prev ++ [now] in
  if Nat.ltb 8 (length newTimes) then tl newTimes else newTimes.

(** The updater handed to [setTapTimes]. *)
Definition tapUpdate (now : Z) (s : component) : component :=
  let newTimes := tapWindow (tapTimes s) now in
  let s1 :=
    if Nat.leb 2 (length newTimes) then
      match calculatedBpm newTimes with
      | Some c =>
          if Z.leb MIN_BPM c && Z.leb c MAX_BPM && negb (isSlowingDown s)
          then setBpm c s
          else s
      | None => s
      end
    else s in
  setTapTimes newTimes s1.

Definition handleTap (now : Z) (s : component) : component :=
  let s1 := playTapTone s in
  let s2 := clearHandle (tapTimeoutRef s1) s1 in
  let s3 := tapUpdate now s2 in
  let (h, s4) := setTimeout TapSessionEnd 2000 s3 in
  set_tapTimeoutRef (Some h) s4.

Definition startTapMode (s : component) : component :=
  setIsPlaying false (setTapTimes [] (setShowTapButton true s)).

(** ** Timer callbacks *)

Definition timeTrackingTick (s : component) : component :=
  let s1 := set_runningTimeRef (runningTimeRef s + 1) s in
  let timeoutSeconds :=
    if isTrialExpired s && negb (hasUpgraded s)
    then EXPIRED_TRIAL_RUN_TIME_SECONDS
    else 999999%Z in
  if Z.leb timeoutSeconds (runningTimeRef s1) && negb (isSlowingDown s) then
    let s2 := setIsSlowingDown true s1 in
    if JS.live (timeTrackingIntervalRef s2)
    then set_timeTrackingIntervalRef None (clearHandle (timeTrackingIntervalRef s2) s2)
    else s2
  else s1.

Definition firstAcceleration (d : direction) (s : component) : component :=
  if JS.live (intervalRef d s) then
    let s1 := clearHandle (intervalRef d s) s in
    let s2 := setBpmWith (holdStep d) s1 in
    let (h, s3) := setInterval (HoldRepeat d) 300 s2 in
    let s4 := set_intervalRef d (Some h) s3 in
    let (secondAcceleration, s5) := setTimeout (SecondAcceleration d) 2000 s4 in
    set_timeoutsRef d (timeoutsRef d s5 ++ [secondAcceleration]) s5
  else s.

Definition secondAcceleration (v : variant) (d : direction) (s : component)
  : component :=
  if JS.live (intervalRef d s) then
    let s1 := clearHandle (intervalRef d s) s in
    let s2 := setBpmWith (holdStep d) s1 in
    let (h, s3) := setInterval (HoldRepeat d) 200 s2 in
    set_intervalRef (secondIntervalCell v d) (Some h) s3
  else s.

Definition runCallback (v : variant) (cb : callback) (s : component) : component :=
  match cb with
  | HoldRepeat d => setBpmWith (holdStep d) s
  | FirstAcceleration d => firstAcceleration d s
  | SecondAcceleration d => secondAcceleration v d s
  | TimeTracking => timeTrackingTick s
  | TapSessionEnd => setShowTapButton false (setTapTimes [] s)
  end.

(** ** Effects *)

(** [useEffect(() => { currentBpmRef.current = bpm }, [bpm])]. *)
Definition syncBpmRefEffect (s : component) : component :=
  set_currentBpmRef (bpm s) s.

(** part_001, deps [bpm, isSlowingDown]. *)
Definition displayBpmEffect (s : component) : component :=
  if negb (isSlowingDown s) then setDisplayBpm (bpm s) s else s.

(** part_001, the session effect; the arguments are what [localStorage]
    holds under the two keys. *)
Definition sessionEffect (storedSessionCount : option Z) (storedHasUpgraded : bool)
    (s : component) : component :=
  let currentSessionCount :=
    match storedSessionCount with Some n => n | None => 0%Z end in
  let newSessionCount := (currentSessionCount + 1)%Z in
  let s1 := setHasUpgraded storedHasUpgraded (setSessionCount newSessionCount s) in
  if Z.ltb MAX_TRIAL_SESSION_COUNT newSessionCount && negb storedHasUpgraded
  then setIsTrialExpired true s1
  else s1.

(** The effect on [isPlaying]; [now] is [performance.now()]. *)
Definition playEffect (v : variant) (now : Q) (s : component) : component :=
  match v with
  | Circle =>
      if isPlaying s
      then setHasReached75Percent false (startAnimation (resetTiming now s))
      else stopAnimation s
  | Trial =>
      if isPlaying s then
        let s1 := setHasReached75Percent false (startAnimation (resetTiming now s)) in
        let s2 := setIsSlowingDown false s1 in
        let s3 := set_runningTimeRef 0 s2 in
        let s4 := set_originalBpmRef (bpm s) s3 in
        let s5 := set_hasDecrementedThisCycleRef false s4 in
        let (h, s6) := setInterval TimeTracking 1000 s5 in
        set_timeTrackingIntervalRef (Some h) s6
      else
        let s1 := stopAnimation s in
        let s2 := if JS.live (timeTrackingIntervalRef s1)
                  then set_timeTrackingIntervalRef None
                         (clearHandle (timeTrackingIntervalRef s1) s1)
                  else s1 in
        let s3 := set_runningTimeRef 0 s2 in
        if isSlowingDown s then
          let s4 := if isTrialExpired s && negb (hasUpgraded s)
                    then setShowUpgradeMessage true s3 else s3 in
          setBpm (originalBpmRef s4)
            (setIsSlowingDown false (setDisplayBpm (originalBpmRef s4) s4))
        else
          setDisplayBpm (bpm s) (setShowUpgradeMessage false s3)
  end.

(** part_001, the slowdown effect on [dotPosition]; [now] is
    [performance.now()]. *)
Definition slowdownEffect (now : Q) (s : component) : component :=
  if isSlowingDown s && isPlaying s && negb (hasUpgraded s) then
    let isAtTop := Qle_bool (dotPosition s) 5 || Qle_bool 355 (dotPosition s) in
    if isAtTop && negb (hasDecrementedThisCycleRef s) then
      let newBpm := (bpm s - 5)%Z in
      if Z.leb newBpm MIN_BPM then setIsPlaying false s
      else
        let s1 := setDisplayBpm newBpm (setBpm newBpm s) in
        let s2 := set_hasDecrementedThisCycleRef true s1 in
        let currentBeatProgress := (dotPosition s / 360)%Q in
        let newBeatDuration := (60000 / inject_Z newBpm)%Q in
        let newElapsedTime := (currentBeatProgress * newBeatDuration)%Q in
        let s3 := set_startTimeRef (Some (now - newElapsedTime)%Q) s2 in
        if Qle_bool (dotPosition s) 5 || Qle_bool 355 (dotPosition s)
        then set_lastBeatTimeRef (Some (now - newElapsedTime)%Q) s3
        else s3
    else if negb (Qle_bool (dotPosition s) 90) && negb (Qle_bool 270 (dotPosition s)) then
      if hasDecrementedThisCycleRef s
      then set_hasDecrementedThisCycleRef false s
      else s
    else s
  else s.

(** The effect on [bpm]: part_000 (and the pendulum, which has no
    75 percent flag) restarts the anchor; part_001 leaves its body empty
    (animation continues smoothly). *)
Definition bpmEffect (v : variant) (now : Q) (s : component) : component :=
  match v with
  | Circle =>
      if isPlaying s
      then setHasReached75Percent false
             (startAnimation (stopAnimation (resetTiming now s)))
      else s
  | Trial => s
  end.

(** [handle75Percent], the one-shot latch. *)
Definition handle75Percent (s : component) : component :=
  if isPlaying s && Qle_bool 270 (dotPosition s) && negb (hasReached75Percent s)
  then setHasReached75Percent true s
  else s.

(** The zoom effect on [dotPosition]. *)
Definition zoomEffect (s : component) : component :=
  if isPlaying s && hasReached75Percent s then
    let isInZoomRange := Qle_bool 270 (dotPosition s) || Qle_bool (dotPosition s) 90 in
    if isInZoomRange then
      let distanceFromTop :=
        if Qle_bool 270 (dotPosition s) then (360 - dotPosition s)%Q
        else dotPosition s in
      let maxZoomDistance := 90%Q in
      let zoomFactor := (0.7 + 0.2 * (1 - distanceFromTop / maxZoomDistance))%Q in
      setScaleEffect zoomFactor s
    else setScaleEffect 0.7%Q s
  else setScaleEffect 0.7%Q s.

Definition handleUpgrade (s : component) : component :=
  setShowUpgradeMessage false (setHasUpgraded true s).

(** ** Mounting *)

(** The initial values of the [useState] and [useRef] calls. *)
Definition initial : component :=
  Build_component
    (Build_tempoState 70 false 70 false false)
    (Build_visualState 0 1 false)
    (Build_sessionState 0 false false)
    (Build_tapState [] false None)
    (Build_timingRefs false None None None 70)
    (Build_slowdownRefs 0 None 70 false)
    (Build_holdRefs None None [] [] false false 0 0)
    (Build_host [] 0 1 0 []).

(** The first commit: every effect runs once, in source order. *)
Definition mount (v : variant) (audio : bool) (storedSessionCount : option Z)
    (storedHasUpgraded : bool) (now : Q) : component :=
  match v with
  | Circle =>
      zoomEffect (handle75Percent (bpmEffect Circle now (playEffect Circle now
        (set_audioContextRef audio (syncBpmRefEffect initial)))))
  | Trial =>
      zoomEffect (handle75Percent (bpmEffect Trial now (slowdownEffect now
        (playEffect Trial now (set_audioContextRef audio (displayBpmEffect
          (syncBpmRefEffect
             (sessionEffect storedSessionCount storedHasUpgraded initial))))))))
  end.

(** The effects that list [bpm] among their dependencies, in source
    order: what a commit runs after a tempo change. *)
Definition bpmChanged (v : variant) (now : Q) (s : component) : component :=
  match v with
  | Circle => bpmEffect Circle now (syncBpmRefEffect s)
  | Trial =>
      bpmEffect Trial now (slowdownEffect now (displayBpmEffect (syncBpmRefEffect s)))
  end.

(** ** The event loop of the host *)

(** A timer that fires: an interval is re-armed one period later, a
    timeout leaves the table; then its closure runs. *)
Definition rearm (t : timer) (s : component) : component :=
  match every t with
  | Some period =>
      set_timers
        (map (fun u => if Nat.eqb (handle u) (handle t)
                       then Build_timer (handle u) (due u + period) (every u) (action u)
                       else u)
             (timers s)) s
  | None => clearTimer (handle t) s
  end.

Definition fire (v : variant) (t : timer) (s : component) : component :=
  runCallback v (action t) (rearm t (set_clock (due t) s)).

Definition earliestDue (ts : list timer) : option Z :=
  fold_left (fun acc t =>
               match acc with
               | Some d => Some (Z.min d (due t))
               | None => Some (due t)
               end) ts None.

(** The timers that may fire next: those with the earliest due time.
    The host fixes no order among timers due at the same instant. *)
Definition dueNext (s : component) : list timer :=
  match earliestDue (timers s) with
  | Some d => filter (fun t => Z.eqb (due t) d) (timers s)
  | None => []
  end.

Fixpoint collect (A : Type) (l : list (option (list A))) : option (list A) :=
  match l with
  | [] => Some []
  | None :: _ => None
  | Some xs :: rest =>
      match collect rest with
      | Some ys => Some (xs ++ ys)
      | None => None
      end
  end.

(** Every state the component can be in once host time has advanced to
    [until] with no other event: all timers due by then have fired, ties
    in every order.  [None] when the fuel does not suffice. *)
Fixpoint elapse (v : variant) (fuel : nat) (until : Z) (s : component)
  : option (list component) :=
  match fuel with
  | O => None
  | S fuel' =>
      match dueNext s with
      | [] => Some [set_clock until s]
      | t :: _ =>
          if Z.ltb until (due t) then Some [set_clock until s]
          else collect (map (fun u => elapse v fuel' until (fire v u s)) (dueNext s))
      end
  end.

(** The [setBpm] calls of a run, oldest first: host time and value. *)
Definition steps (s : component) : list (Z * Z) := rev (bpmLog s).

Definition stepTimes (s : component) : list Z := map fst (steps s).

(** ** The component as a transition system *)

(** One handler, effect body, frame or timer callback.  Effects and
    timers may run at any time here; the host runs them on a change of
    their dependencies and at their due times, so its runs are among
    these. *)
Inductive step : variant -> component -> component -> Prop :=
| step_togglePlay v s : step v s (togglePlay v s)
| step_touchStart v d now s : step v s (handleTouchStart d v now s)
| step_touchEnd v d s : step v s (handleTouchEnd d s)
| step_mouseDown v d now s : step v s (handleMouseDown d v now s)
| step_mouseUp v d s : step v s (handleMouseUp d s)
| step_timer v t (s : component) : In t (timers s) -> step v s (fire v t s)
| step_frame v timestamp s s' : animate timestamp s = Some s' -> step v s s'
| step_syncBpmRef v s : step v s (syncBpmRefEffect s)
| step_playEffect v now s : step v s (playEffect v now s)
| step_bpmEffect v now s : step v s (bpmEffect v now s)
| step_handle75Percent v s : step v s (handle75Percent s)
| step_zoomEffect v s : step v s (zoomEffect s)
| step_displayBpm s : step Trial s (displayBpmEffect s)
| step_slowdown now s : step Trial s (slowdownEffect now s)
| step_tap now s : step Trial s (handleTap now s)
| step_startTapMode s : step Trial s (startTapMode s)
| step_upgrade s : step Trial s (handleUpgrade s).

Inductive reachable (v : variant) : component -> Prop :=
| reach_mount audio stored upgraded now :
    reachable v (mount v audio stored upgraded now)
| reach_step s s' : reachable v s -> step v s s' -> reachable v s'.

(** The operations that write the tempo, as the specification lists
    them. *)
Inductive tempoWrite : variant -> component -> component -> Prop :=
| write_increase v s : tempoWrite v s (increaseTempo v s)
| write_decrease v s : tempoWrite v s (decreaseTempo v s)
| write_repeat v d s : tempoWrite v s (setBpmWith (holdStep d) s)
| write_tap now s : tempoWrite Trial s (tapUpdate now s)
| write_slowdown now s : tempoWrite Trial s (slowdownEffect now s).

(** ** The words of the specification *)

Module Spec.

Local Open Scope Q_scope.

(** [x mod y] of the phase formula: the remainder of the floored
    quotient. *)
Definition modulo (x y : Q) : Q := x - y * inject_Z (Qfloor (x / y)).






Definition inRange (b : Z) : Prop := (30 <= b <= 240)%Z.

(** Zoom scale inside the arc, by distance from the top. *)
Definition zoomScale (distanceFromTop : Q) : Q :=
  0.7 + 0.2 * (1 - distanceFromTop / 90).

(** Within 5 degrees of the top. *)
Definition atTop (p : Q) : Prop := p <= 5 \/ 355 <= p.

(** Strictly inside the 90-270 degree band. *)
Definition inBand (p : Q) : Prop := 90 < p /\ p < 270.

End Spec.

(** ** Runs and sample states *)

(** A component mounted in a first session, with sound. *)
Definition fresh (v : variant) : component := mount v true None false 0.

(** The play region clicked at [now] on a fresh component, and the
    commit that follows. *)
Definition playing (v : variant) (now : Q) : component :=
  playEffect v now (togglePlay v (fresh v)).

(** Taps at the given [Date.now()] readings, in order. *)
Definition taps (ts : list Z) (s : component) : component :=
  fold_left (fun acc now => handleTap now acc) ts s.

(** A frame that moved the dot to [fst sample], seen by the slowdown
    effect at [performance.now() = snd sample]. *)
Definition slowdownSample (s : component) (sample : Q * Q) : component :=
  slowdownEffect (snd sample) (setDotPosition (fst sample) s).

Definition slowdownRun (samples : list (Q * Q)) (s : component) : component :=
  fold_left slowdownSample samples s.

(** A frame that moved the dot to [p], seen by the latch and the zoom
    effect. *)
Definition zoomSample (s : component) (p : Q) : component :=
  zoomEffect (handle75Percent (setDotPosition p s)).

Definition zoomRun (phases : list Q) (s : component) : component :=
  fold_left zoomSample phases s.

(** The state of a run that has exactly one outcome. *)
Definition only (l : option (list component)) : component :=
  match l with
  | Some [s] => s
  | _ => initial
  end.

(** A third session without upgrade: the trial is expired. *)
Definition expiredTrial : component := mount Trial true (Some 2%Z) false 0.

(** Tempo tapped to 100, play started at 2500 ms, ten seconds played:
    the tenth tick of the time tracking interval starts the slowdown. *)
Definition slowing100 : component :=
  let s1 := only (elapse Trial 10 2500 (taps [0; 600]%Z expiredTrial)) in
  let s2 := bpmChanged Trial 2500 s1 in
  let s3 := playEffect Trial 2500 (togglePlay Trial s2) in
  only (elapse Trial 20 12500 s3).

Inductive pointer : Type := Touch | Mouse.

Definition press (p : pointer) : direction -> variant -> Z -> component -> component :=
  match p with
  | Touch => handleTouchStart
  | Mouse => handleMouseDown
  end.

Definition release (p : pointer) : direction -> component -> component :=
  match p with
  | Touch => handleTouchEnd
  | Mouse => handleMouseUp
  end.

Definition isHoldRepeat (t : timer) : bool :=
  match action t with
  | HoldRepeat _ => true
  | _ => false
  end.

(** Periods of the repeat intervals still in the host's table. *)
Definition holdPeriods (s : component) : list (option Z) :=
  map every (filter isHoldRepeat (timers s)).

(** What a hold is observed by: the times of the steps so far, the
    repeat intervals that are live, and the tempo. *)
Definition view (s : component) : list Z * list (option Z) * Z :=
  (stepTimes s, holdPeriods s, bpm s).

Definition outcomes (v : variant) (until : Z) (s : component)
  : option (list (list Z * list (option Z) * Z)) :=
  option_map (map view) (elapse v 100 until s).



(** Press on a fresh component, hold until [held], release, and let
    host time run on until [until]. *)
Definition holdAndRelease (v : variant) (d : direction) (p : pointer) (now : Z)
    (held until : Z) : option (list component) :=
  match elapse v 100 held (press p d v now (fresh v)) with
  | Some l => collect (map (fun s => elapse v 100 until (release p d s)) l)
  | None => None
  end.

(** The [setBpm] calls made after host time [t]. *)
Definition stepsAfter (t : Z) (s : component) : list (Z * Z) :=
  filter (fun x => Z.ltb t (fst x)) (steps s).

(** The control a timer of a hold session steps the tempo for. *)
Definition holdDirection (cb : callback) : option direction :=
  match cb with
  | HoldRepeat d | FirstAcceleration d | SecondAcceleration d => Some d
  | TimeTracking | TapSessionEnd => None
  end.

Definition sameDirection (d d' : direction) : bool :=
  match d, d' with
  | Increase, Increase | Decrease, Decrease => true
  | _, _ => false
  end.

(** The timers of the host that step the tempo for control [d], now or
    after a tier switch. *)
Definition sessionTimers (d : direction) (s : component) : list timer :=
  filter (fun t => match holdDirection (action t) with
                   | Some d' => sameDirection d d'
                   | None => false
                   end) (timers s).

(** Every timer of a hold session is known to the cells of its control. *)
Definition known (s : component) (t : timer) : Prop :=
  handle t <> 0%nat /\
  forall d, holdDirection (action t) = Some d ->
            intervalRef d s = Some (handle t) \/ In (handle t) (timeoutsRef d s).

Definition wired (s : component) : Prop :=
  nextHandle s <> 0%nat /\ forall t, In t (timers s) -> known s t.

(** The invariant of part_000: the touch flags are down between
    handlers and the table is wired to the cells. *)
Definition tracked (s : component) : Prop :=
  increaseTouchActiveRef s = false /\ decreaseTouchActiveRef s = false /\ wired s.

(** The tier switches of control [d]. *)
Definition isAcceleration (d : direction) (cb : callback) : bool :=
  match cb with
  | FirstAcceleration d' | SecondAcceleration d' => sameDirection d d'
  | _ => false
  end.

(** What part_001 keeps true of the host's table, as far as the
    increase control needs it: the timers of the increase control are
    known to its cells, the pending tier switches of the decrease control
    are among its timeouts, and the two never share the table. *)
Definition trialWired (s : component) : Prop :=
  nextHandle s <> 0%nat /\
  (forall t, In t (timers s) -> handle t <> 0%nat) /\
  (forall t, In t (timers s) -> holdDirection (action t) = Some Increase ->
             increaseIntervalRef s = Some (handle t) \/
             In (handle t) (increaseTimeoutsRef s)) /\
  (forall t, In t (timers s) -> isAcceleration Decrease (action t) = true ->
             In (handle t) (decreaseTimeoutsRef s)) /\
  (forall t u, In t (timers s) -> In u (timers s) ->
               holdDirection (action t) = Some Increase ->
               isAcceleration Decrease (action u) = true -> False).

Definition trialTracked (s : component) : Prop :=
  increaseTouchActiveRef s = false /\ decreaseTouchActiveRef s = false /\ trialWired s.

(** The three cells that hold a tempo. *)
Definition core (s : component) : Z * Z * Z :=
  (bpm s, originalBpmRef s, currentBpmRef s).

Definition bounded (s : component) : Prop :=
  Spec.inRange (bpm s) /\ Spec.inRange (originalBpmRef s) /\
  Spec.inRange (currentBpmRef s).



(** What a hold session leaves alone: it writes the tempo, the cells of
    the controls and the host's table, and nothing of the rest. *)
Definition shell (s : component)
  : bool * Z * bool * bool * visualState * sessionState * timingRefs * nat :=
  (isPlaying s, displayBpm s, isSlowingDown s, showUpgradeMessage s,
   visual s, session s, timing s, clicks s).

(** One turn of the dot as the slowdown effect sees it: a sample within
    5 degrees of the top, then a sample inside the 90-270 degree band. *)
Definition rampCycle (s : component) (cycle : (Q * Q) * (Q * Q)) : component :=
  slowdownSample (slowdownSample s (fst cycle)) (snd cycle).

Definition rampCycles (cycles : list ((Q * Q) * (Q * Q))) (s : component) : component :=
  fold_left rampCycle cycles s.

(** [n] ticks of the time tracking interval. *)
Definition ticks (n : nat) (s : component) : component :=
  Nat.iter n timeTrackingTick s.

(** The seconds of play after which the interval starts the slowdown. *)
Definition timeoutSeconds (s : component) : Z :=
  if isTrialExpired s && negb (hasUpgraded s)
  then EXPIRED_TRIAL_RUN_TIME_SECONDS
  else 999999%Z.

(** ** The upgrade message of part_001 *)

Definition handleFiveMinuteSessions (s : component) : component :=
  setShowUpgradeMessage false s.

(** The component's part of [handleClearSessionCount]. *)
Definition handleClearSessionCount (s : component) : component :=
  setShowUpgradeMessage false
    (setIsTrialExpired false (setHasUpgraded false (setSessionCount 0 s))).

(** A step of part_001, the two handlers of the upgrade message
    included. *)
Inductive trialEvent : component -> component -> Prop :=
| event_step s s' : step Trial s s' -> trialEvent s s'
| event_fiveMinuteSessions s : trialEvent s (handleFiveMinuteSessions s)
| event_clearSessionCount s : trialEvent s (handleClearSessionCount s).

Inductive trialReachable : component -> Prop :=
| trial_mounted audio stored upgraded now :
    trialReachable (mount Trial audio stored upgraded now)
| trial_event s s' : trialReachable s -> trialEvent s s' -> trialReachable s'.

(** When the upgrade message may be on the screen. *)
(** The host runs the callback of the first timer that is due next. *)
Definition fireNext (s : component) : component :=
  match dueNext s with
  | t :: _ => fire Trial t s
  | [] => s
  end.

Definition offered (s : component) : Prop :=
  showUpgradeMessage s = true ->
  isPlaying s = false /\ isTrialExpired s = true /\ hasUpgraded s = false.

(** The tables a hold session of control [d] goes through, [h] being the
    handle of its repeat interval: the 500 ms interval with the first
    timeout pending, the 300 ms interval with the second timeout
    pending, the 200 ms interval. *)
Inductive holdTable (d : direction) (h : nat) : list timer -> Prop :=
| table_first next h' next' :
    h <> h' ->
    holdTable d h [Build_timer h next (Some 500%Z) (HoldRepeat d);
                   Build_timer h' next' None (FirstAcceleration d)]
| table_second next h' next' :
    h <> h' ->
    holdTable d h [Build_timer h next (Some 300%Z) (HoldRepeat d);
                   Build_timer h' next' None (SecondAcceleration d)]
| table_third next :
    holdTable d h [Build_timer h next (Some 200%Z) (HoldRepeat d)].

(** The cells of control [d] hold nothing that could be cleared. *)
Definition quiet (d : direction) (s : component) : Prop :=
  JS.live (intervalRef d s) = false /\ timeoutsRef d s = [].

(** The invariant of part_000 on the host's table: it is empty, or it is
    the table of the hold session of one control, whose cell holds the
    handle of the interval while the cells of the other control are
    quiet. *)
Definition orderly (s : component) : Prop :=
  tracked s /\
  (timers s = [] \/
   exists d h, holdTable d h (timers s) /\ intervalRef d s = Some h /\
               forall d', d' <> d -> quiet d' s).

(** * Properties *)

(** ** Numbers *)

Section Numbers.

Local Open Scope Q_scope.

Lemma Qle_bool_false (x y : Q) : Qle_bool x y = false <-> y < x.
Proof.
  split; intros H.
  - apply Qnot_le_lt. intros Hle. apply Qle_bool_iff in Hle. congruence.
  - destruct (Qle_bool x y) eqn:E; [|reflexivity].
    apply Qle_bool_iff in E. lra.
Qed.

Lemma trunc_nonneg (x : Q) : 0 <= x -> JS.trunc x = Qfloor x.
Proof.
  destruct x as [n d]. unfold Qle, JS.trunc, Qfloor. simpl. intros H.
  apply Z.quot_div_nonneg; lia.
Qed.

Lemma div_nonneg (a b : Q) : 0 <= a -> 0 < b -> 0 <= a / b.
Proof.
  intros Ha Hb. apply Qle_shift_div_l; [assumption|]. lra.
Qed.

(** On a non-negative dividend [%] is the mathematical remainder. *)
Lemma rem_modulo (a b : Q) : 0 <= a -> 0 < b -> JS.rem a b = Spec.modulo a b.
Proof.
  intros Ha Hb. unfold JS.rem, Spec.modulo.
  rewrite trunc_nonneg by (apply div_nonneg; assumption). reflexivity.
Qed.

Lemma modulo_bounds (x y : Q) :
  0 < y -> 0 <= Spec.modulo x y /\ Spec.modulo x y < y.
Proof.
  intros Hy. unfold Spec.modulo.
  pose proof (Qfloor_le (x / y)) as Hlo.
  pose proof (Qlt_floor (x / y)) as Hhi.
  rewrite inject_Z_plus in Hhi.
  set (f := inject_Z (Qfloor (x / y))) in *.
  assert (Hx : x == y * (x / y)) by (field; lra).
  set (q := x / y) in *.
  split.
  - assert (y * f <= y * q) by (apply Qmult_le_l; assumption). lra.
  - assert (y * q < y * (f + inject_Z 1)) by (apply Qmult_lt_l; assumption).
    change (inject_Z 1) with 1 in *. lra.
Qed.


Lemma truthy_Some (l : Q) : ~ l == 0 -> JS.truthy (Some l) = true.
Proof.
  intros H. unfold JS.truthy. destruct (Qeq_bool l 0) eqn:E; [|reflexivity].
  apply Qeq_bool_iff in E. contradiction.
Qed.

Lemma beatDurationMs_pos (b : Z) :
  (0 < b)%Z ->
  beatDurationMs b = Some (60000 / inject_Z b) /\ 0 < 60000 / inject_Z b.
Proof.
  intros Hb. unfold beatDurationMs.
  destruct (Z.eqb_spec b 0); [lia|]. split; [reflexivity|].
  apply Qlt_shift_div_l.
  - change 0 with (inject_Z 0). rewrite <- Zlt_Qlt. assumption.
  - lra.
Qed.

Lemma atTop_bool (p : Q) :
  Spec.atTop p <-> Qle_bool p 5 || Qle_bool 355 p = true.
Proof.
  unfold Spec.atTop. rewrite orb_true_iff, !Qle_bool_iff. reflexivity.
Qed.

Lemma inBand_bool (p : Q) :
  Spec.inBand p <-> negb (Qle_bool p 90) && negb (Qle_bool 270 p) = true.
Proof.
  unfold Spec.inBand.
  rewrite andb_true_iff, !negb_true_iff, !Qle_bool_false. reflexivity.
Qed.

Lemma not_inBand_bool (p : Q) :
  ~ Spec.inBand p -> negb (Qle_bool p 90) && negb (Qle_bool 270 p) = false.
Proof.
  intros H. destruct (negb (Qle_bool p 90) && negb (Qle_bool 270 p)) eqn:E;
    [|reflexivity]. apply inBand_bool in E. contradiction.
Qed.

End Numbers.

(** ** The beat engine *)

Section BeatEngine.

Local Open Scope Q_scope.

(** A frame on a playing component whose anchor is set. *)
Lemma animate_anchored (t lastBeat : Q) (s : component) :
  isPlaying s = true ->
  lastBeatTimeRef s = Some lastBeat ->
  ~ lastBeat == 0 ->
  (0 < currentBpmRef s)%Z ->
  let beatDuration := 60000 / inject_Z (currentBpmRef s) in
  let s2 := if JS.truthy (startTimeRef s) then s else set_startTimeRef (Some t) s in
  let s3 := if Qle_bool beatDuration (t - lastBeat)
            then set_lastBeatTimeRef
                   (Some (lastBeat
                          + inject_Z (JS.floor ((t - lastBeat) / beatDuration))
                            * beatDuration))
                   (playClickTone s2)
            else s2 in
  animate t s =
    Some (requestAnimationFrame
            (setDotPosition
               (JS.rem (t - lastBeat) beatDuration / beatDuration * 360) s3)).
Proof.
  intros Hplay Hlast Hnz Hbpm.
  destruct (beatDurationMs_pos Hbpm) as [Hbd _].
  unfold animate. rewrite Hplay. cbn [negb].
  destruct (JS.truthy (startTimeRef s)) eqn:Est.
  - rewrite Hlast, (truthy_Some Hnz), Hbd, Hlast. reflexivity.
  - change (lastBeatTimeRef (set_startTimeRef (Some t) s)) with (lastBeatTimeRef s).
    rewrite Hlast, (truthy_Some Hnz).
    change (currentBpmRef (set_startTimeRef (Some t) s)) with (currentBpmRef s).
    change (lastBeatTimeRef (set_startTimeRef (Some t) s)) with (lastBeatTimeRef s).
    rewrite Hbd, Hlast. reflexivity.
Qed.

(** A frame is defined whenever the tempo cell is not zero. *)
Lemma animate_defined (t : Q) (s : component) :
  currentBpmRef s <> 0%Z -> exists s', animate t s = Some s'.
Proof.
  intros Hb. unfold animate.
  destruct (isPlaying s); cbn [negb]; [|eexists; reflexivity].
  set (s1 := if JS.truthy (startTimeRef s) then s else set_startTimeRef (Some t) s).
  assert (H1 : currentBpmRef s1 = currentBpmRef s)
    by (subst s1; destruct (JS.truthy (startTimeRef s)); reflexivity).
  clearbody s1.
  set (s2 := if JS.truthy (lastBeatTimeRef s1) then s1
             else set_lastBeatTimeRef (Some t) s1).
  assert (H2 : currentBpmRef s2 = currentBpmRef s)
    by (subst s2; destruct (JS.truthy (lastBeatTimeRef s1)); [exact H1 | exact H1]).
  assert (H3 : exists l, lastBeatTimeRef s2 = Some l).
  { subst s2. destruct (JS.truthy (lastBeatTimeRef s1)) eqn:E.
    - destruct (lastBeatTimeRef s1) as [l|]; [exists l; reflexivity | discriminate E].
    - exists t. reflexivity. }
  clearbody s2. destruct H3 as [l Hl]. rewrite H2, Hl.
  unfold beatDurationMs. destruct (Z.eqb_spec (currentBpmRef s) 0); [contradiction|].
  eexists. reflexivity.
Qed.





End BeatEngine.

(** ** Tap tempo *)

Section TapTempo.
















End TapTempo.

(** ** The slowdown ramp *)

Section SlowdownRamp.

Local Open Scope Q_scope.

(** One run of the effect, by cases. *)
Lemma slowdownEffect_inactive now (s : component) :
  isSlowingDown s && isPlaying s && negb (hasUpgraded s) = false ->
  slowdownEffect now s = s.
Proof. intros H. unfold slowdownEffect. rewrite H. reflexivity. Qed.

Lemma slowdownEffect_flagged now (s : component) :
  hasDecrementedThisCycleRef s = true ->
  ~ Spec.inBand (dotPosition s) ->
  slowdownEffect now s = s.
Proof.
  intros Hf Hb. unfold slowdownEffect. rewrite Hf, (not_inBand_bool Hb).
  rewrite andb_false_r. destruct (isSlowingDown s && isPlaying s && negb (hasUpgraded s));
    reflexivity.
Qed.

Lemma slowdownRun_cons sample samples (s : component) :
  slowdownRun (sample :: samples) s = slowdownRun samples (slowdownSample s sample).
Proof. reflexivity. Qed.

Lemma slowdownRun_flagged samples (s : component) :
  hasDecrementedThisCycleRef s = true ->
  (forall sample, In sample samples -> ~ Spec.inBand (fst sample)) ->
  bpmLog (slowdownRun samples s) = bpmLog s /\ bpm (slowdownRun samples s) = bpm s.
Proof.
  revert s. induction samples as [|[p now] samples IH]; intros s Hf Hb.
  - split; reflexivity.
  - rewrite slowdownRun_cons.
    assert (Hs : slowdownSample s (p, now) = setDotPosition p s).
    { unfold slowdownSample. cbn [fst snd]. apply slowdownEffect_flagged.
      - exact Hf.
      - apply (Hb (p, now)). left. reflexivity. }
    rewrite Hs.
    apply (IH (setDotPosition p s)); [exact Hf|].
    intros sample Hin. apply Hb. right. assumption.
Qed.

Lemma slowdownRun_stopped samples (s : component) :
  isPlaying s = false ->
  bpmLog (slowdownRun samples s) = bpmLog s /\ bpm (slowdownRun samples s) = bpm s.
Proof.
  revert s. induction samples as [|[p now] samples IH]; intros s Hp.
  - split; reflexivity.
  - rewrite slowdownRun_cons.
    assert (Hs : slowdownSample s (p, now) = setDotPosition p s).
    { unfold slowdownSample. cbn [fst snd]. apply slowdownEffect_inactive.
      change (isPlaying (setDotPosition p s)) with (isPlaying s). rewrite Hp.
      apply andb_false_iff. left. apply andb_false_r. }
    rewrite Hs. apply (IH (setDotPosition p s)). exact Hp.
Qed.

(** What one run of the effect does to the tempo and its log. *)
Lemma slowdownEffect_cases now (s : component) :
  slowdownEffect now s = s \/
  (slowdown (slowdownEffect now s) = slowdown s /\
   bpmLog (slowdownEffect now s) = bpmLog s /\
   bpm (slowdownEffect now s) = bpm s /\
   isPlaying (slowdownEffect now s) = false) \/
  (hasDecrementedThisCycleRef s = true /\
   hasDecrementedThisCycleRef (slowdownEffect now s) = false /\
   tempo (slowdownEffect now s) = tempo s /\
   bpmLog (slowdownEffect now s) = bpmLog s /\
   Spec.inBand (dotPosition s)) \/
  (hasDecrementedThisCycleRef s = false /\
   hasDecrementedThisCycleRef (slowdownEffect now s) = true /\
   bpmLog (slowdownEffect now s) = (clock s, bpm s - 5)%Z :: bpmLog s /\
   bpm (slowdownEffect now s) = (bpm s - 5)%Z /\
   (30 < bpm s - 5)%Z /\ Spec.atTop (dotPosition s)).
Proof.
  unfold slowdownEffect.
  destruct (isSlowingDown s && isPlaying s && negb (hasUpgraded s)); [|left; reflexivity].
  destruct (Qle_bool (dotPosition s) 5 || Qle_bool 355 (dotPosition s)) eqn:Etop.
  - destruct (hasDecrementedThisCycleRef s) eqn:Ef; cbn [negb andb].
    + destruct (negb (Qle_bool (dotPosition s) 90) && negb (Qle_bool 270 (dotPosition s)))
        eqn:Eb; [|left; reflexivity].
      right. right. left. apply inBand_bool in Eb. repeat split; try reflexivity; apply Eb.
    + unfold MIN_BPM. destruct (Z.leb_spec (bpm s - 5) 30).
      * right. left. repeat split; reflexivity.
      * right. right. right. apply atTop_bool in Etop.
        repeat split; try reflexivity; try assumption.
  - cbn [andb].
    destruct (negb (Qle_bool (dotPosition s) 90) && negb (Qle_bool 270 (dotPosition s)))
      eqn:Eb; [|left; reflexivity].
    destruct (hasDecrementedThisCycleRef s) eqn:Ef; [|left; reflexivity].
    right. right. left. apply inBand_bool in Eb. repeat split; try reflexivity; apply Eb.
Qed.

Lemma slowdownRun_once samples (s : component) :
  (forall sample, In sample samples -> ~ Spec.inBand (fst sample)) ->
  (length (bpmLog (slowdownRun samples s)) <= S (length (bpmLog s)))%nat /\
  (bpm s - 5 <= bpm (slowdownRun samples s) <= bpm s)%Z.
Proof.
  revert s. induction samples as [|[p now] samples IH]; intros s Hb.
  - cbn. split; lia.
  - rewrite slowdownRun_cons.
    assert (Hrest : forall sample, In sample samples -> ~ Spec.inBand (fst sample))
      by (intros sample Hin; apply Hb; right; assumption).
    unfold slowdownSample. cbn [fst snd].
    destruct (slowdownEffect_cases now (setDotPosition p s))
      as [E | [(_ & Hl & Hv & Hp) | [(_ & _ & _ & _ & Hin) | (_ & Hf & Hl & Hv & _)]]].
    + rewrite E. apply (IH (setDotPosition p s) Hrest).
    + destruct (@slowdownRun_stopped samples _ Hp) as [H1 H2].
      rewrite H1, H2, Hl, Hv. cbn. split; lia.
    + exfalso. apply (Hb (p, now)); [left; reflexivity | exact Hin].
    + destruct (@slowdownRun_flagged samples _ Hf Hrest) as [H1 H2].
      rewrite H1, H2, Hl, Hv. cbn. split; lia.
Qed.

(** C4. Slowdown ramp: while slowing down, playing and not upgraded,
    a sample within 5 degrees of the top with the per-cycle flag unset
    lowers the tempo by exactly 5 and sets the flag, unless the result
    would be at or below 30, in which case playback stops and the tempo
    stays; with the flag set nothing is decremented, and the flag is
    cleared only by a sample strictly inside the 90-270 degree band, so
    a run of samples that never enters the band decrements at most
    once.  From 100 the next top crossing gives 95, and 90 only after
    the band has been passed. *)
Theorem slowdown_ramp_stepping :
  (forall (now : Q) (s : component),
      isSlowingDown s = true -> isPlaying s = true -> hasUpgraded s = false ->
      let s' := slowdownEffect now s in
      (Spec.atTop (dotPosition s) -> hasDecrementedThisCycleRef s = false ->
       ((MIN_BPM < bpm s - 5)%Z ->
        bpm s' = (bpm s - 5)%Z /\
        bpmLog s' = (clock s, bpm s - 5)%Z :: bpmLog s /\
        isPlaying s' = true /\
        hasDecrementedThisCycleRef s' = true) /\
       ((bpm s - 5 <= MIN_BPM)%Z ->
        isPlaying s' = false /\
        bpm s' = bpm s /\
        bpmLog s' = bpmLog s /\
        hasDecrementedThisCycleRef s' = false)) /\
      (hasDecrementedThisCycleRef s = true ->
       bpm s' = bpm s /\ bpmLog s' = bpmLog s /\ isPlaying s' = true /\
       (hasDecrementedThisCycleRef s' = false <-> Spec.inBand (dotPosition s))) /\
      (~ Spec.atTop (dotPosition s) ->
       bpm s' = bpm s /\ bpmLog s' = bpmLog s /\ isPlaying s' = true)) /\
  (forall (samples : list (Q * Q)) (s : component),
      (forall sample, In sample samples -> ~ Spec.inBand (fst sample)) ->
      (length (bpmLog (slowdownRun samples s)) <= S (length (bpmLog s)))%nat /\
      (bpm s - 5 <= bpm (slowdownRun samples s) <= bpm s)%Z) /\
  (bpm slowing100 = 100%Z /\
   bpm (slowdownRun [(358, 12600)] slowing100) = 95%Z /\
   bpm (slowdownRun [(358, 12600); (2, 12616)] slowing100) = 95%Z /\
   bpm (slowdownRun [(358, 12600); (2, 12616); (180, 12900); (357, 13200)]
          slowing100) = 90%Z).
Proof.
  split; [|split].
  - intros now s Hslow Hplay Hup s'. subst s'. unfold slowdownEffect.
    rewrite Hslow, Hplay, Hup. cbn [andb negb].
    split; [|split].
    + intros Htop Hf. apply atTop_bool in Htop. rewrite Htop, Hf. cbn [andb negb].
      split; intros Hb.
      * destruct (Z.leb_spec (bpm s - 5) MIN_BPM); [lia|].
        repeat split; try reflexivity. exact Hplay.
      * apply Z.leb_le in Hb. rewrite Hb. repeat split; try reflexivity; assumption.
    + intros Hf. rewrite Hf. rewrite andb_false_r.
      destruct (negb (Qle_bool (dotPosition s) 90) && negb (Qle_bool 270 (dotPosition s)))
        eqn:Eb.
      * split; [reflexivity|]. split; [reflexivity|]. split; [exact Hplay|].
        split; [intros _; apply inBand_bool; assumption | intros _; reflexivity].
      * split; [reflexivity|]. split; [reflexivity|]. split; [exact Hplay|].
        split; [intros H; congruence | intros H; apply inBand_bool in H; congruence].
    + intros Hnt.
      destruct (Qle_bool (dotPosition s) 5 || Qle_bool 355 (dotPosition s)) eqn:Etop.
      { apply atTop_bool in Etop. contradiction. }
      cbn [andb].
      destruct (negb (Qle_bool (dotPosition s) 90) && negb (Qle_bool 270 (dotPosition s)));
        [destruct (hasDecrementedThisCycleRef s)|];
        repeat split; try reflexivity; assumption.
  - apply slowdownRun_once.
  - repeat split; vm_compute; reflexivity.
Qed.

Lemma slowdown_ramp_stepping_witness :
  isSlowingDown (setDotPosition 358 slowing100) = true /\
  isPlaying (setDotPosition 358 slowing100) = true /\
  hasUpgraded (setDotPosition 358 slowing100) = false /\
  bpm (slowdownEffect 12600 (setDotPosition 358 slowing100)) = (100 - 5)%Z.
Proof.
  assert (H1 : isSlowingDown (setDotPosition 358 slowing100) = true)
    by (vm_compute; reflexivity).
  assert (H2 : isPlaying (setDotPosition 358 slowing100) = true)
    by (vm_compute; reflexivity).
  assert (H3 : hasUpgraded (setDotPosition 358 slowing100) = false)
    by (vm_compute; reflexivity).
  split; [exact H1|]. split; [exact H2|]. split; [exact H3|].
  destruct (proj1 slowdown_ramp_stepping 12600 (setDotPosition 358 slowing100)
              H1 H2 H3) as (Htop & _).
  destruct Htop as (Hdec & _).
  - right. vm_compute. discriminate.
  - vm_compute. reflexivity.
  - destruct Hdec as (Hb & _).
    + vm_compute. reflexivity.
    + rewrite Hb. vm_compute. reflexivity.
Defined.

End SlowdownRamp.

(** ** Press and hold *)

Section PressAndHold.

Local Open Scope Z_scope.





(** C6, at the failing input.  In part_001 the third tier of the
    decrease control stores its 200 ms interval in
    [increaseIntervalRef]; the release handlers of the decrease control
    clear [decreaseIntervalRef] and the decrease timeouts only.  After a
    hold of 5500 ms and the release, the interval is still in the host's
    table and the tempo keeps falling every 200 ms. *)
Theorem release_leaves_interval_running :
  forall p : pointer,
    option_map (map (fun s => (stepsAfter 5500 s, holdPeriods s, intervalRef Increase s,
                               intervalRef Decrease s)))
      (holdAndRelease Trial Decrease p 1700000000000 5500 6500) =
    Some [([(5600, 52); (5800, 51); (6000, 50); (6200, 49); (6400, 48)],
           [Some 200], Some 5%nat, None);
          ([(5600, 53); (5800, 52); (6000, 51); (6200, 50); (6400, 49)],
           [Some 200], Some 5%nat, None)].
Proof. intros p. destruct p; vm_compute; reflexivity. Qed.

(** The other handlers, and the same handler released before its third
    tier: nothing is left in the host's table and no step follows the
    release. *)
Lemma release_stops_elsewhere :
  forall p : pointer,
    let quiet := Some [([], @nil timer); ([], @nil timer)] in
    let observe v d held :=
      option_map (map (fun s => (stepsAfter held s, timers s)))
        (holdAndRelease v d p 1700000000000 held 6500) in
    observe Circle Increase 5500 = quiet /\
    observe Circle Decrease 5500 = quiet /\
    observe Trial Increase 5500 = quiet /\
    observe Trial Decrease 4000 = quiet.
Proof. intros p. destruct p; repeat split; vm_compute; reflexivity. Qed.

(** *** Release in part_000 *)

Lemma sameDirection_eq d d' : sameDirection d d' = true <-> d = d'.
Proof. destruct d, d'; cbn; split; congruence. Qed.

Lemma sessionTimers_nil d (s : component) :
  sessionTimers d s = [] <->
  forall t, In t (timers s) -> holdDirection (action t) <> Some d.
Proof.
  unfold sessionTimers. split.
  - intros H t Hin Hd.
    assert (Hf : In t (filter (fun t => match holdDirection (action t) with
                   | Some d' => sameDirection d d'
                   | None => false
                   end) (timers s))).
    { apply filter_In. split; [assumption|]. rewrite Hd. apply sameDirection_eq. reflexivity. }
    rewrite H in Hf. exact Hf.
  - intros H. destruct (filter _ (timers s)) as [|t l] eqn:E; [reflexivity|].
    assert (Hf : In t (t :: l)) by (left; reflexivity).
    rewrite <- E in Hf. apply filter_In in Hf. destruct Hf as [Hin Hd].
    destruct (holdDirection (action t)) as [d'|] eqn:Ed; [|discriminate].
    apply sameDirection_eq in Hd. subst d'. exfalso. exact (H t Hin Ed).
Qed.

(** [wired] reads the cells of the two controls, the table and the
    next handle only, and survives the loss of timers. *)
Lemma wired_shrink (s s' : component) :
  (forall d, intervalRef d s' = intervalRef d s) ->
  (forall d, timeoutsRef d s' = timeoutsRef d s) ->
  nextHandle s' <> 0%nat ->
  (forall t, In t (timers s') ->
             exists t0, In t0 (timers s) /\ handle t = handle t0 /\ action t = action t0) ->
  wired s -> wired s'.
Proof.
  intros Hi Ht Hn Hsub (_ & H4).
  split; [exact Hn|].
  intros t Hin. destruct (Hsub t Hin) as (t0 & Hin0 & Hh & Ha).
  destruct (H4 t0 Hin0) as [Hnz Hk]. split; [rewrite Hh; exact Hnz|].
  intros d Hd. rewrite Hi, Ht, Hh. apply Hk. rewrite <- Ha. exact Hd.
Qed.

Lemma tracked_frame (s s' : component) :
  hold s' = hold s -> timers s' = timers s -> nextHandle s' <> 0%nat ->
  tracked s -> tracked s'.
Proof.
  intros Hh Ht Hn (H1 & H2 & Hw).
  split; [rewrite Hh; exact H1|]. split; [rewrite Hh; exact H2|].
  revert Hw. apply wired_shrink.
  - intros d. unfold intervalRef. rewrite Hh. reflexivity.
  - intros d. unfold timeoutsRef. rewrite Hh. reflexivity.
  - exact Hn.
  - intros t Hin. exists t. rewrite <- Ht. repeat split. exact Hin.
Qed.

Lemma In_clearTimer h (s : component) t :
  In t (timers (clearTimer h s)) <-> In t (timers s) /\ handle t <> h.
Proof.
  unfold clearTimer. cbn. rewrite filter_In, negb_true_iff, Nat.eqb_neq. reflexivity.
Qed.

Lemma In_clearHandle r (s : component) t :
  In t (timers (clearHandle r s)) ->
  In t (timers s) /\ (JS.live r = true -> r <> Some (handle t)).
Proof.
  destruct r as [[|h]|]; cbn [clearHandle JS.live].
  - intros H. split; [exact H | discriminate].
  - intros H. apply In_clearTimer in H. destruct H as [H1 H2].
    split; [exact H1|]. intros _ E. injection E as E. congruence.
  - intros H. split; [exact H | discriminate].
Qed.

Lemma hold_clearHandle r (s : component) : hold (clearHandle r s) = hold s.
Proof. destruct r as [[|h]|]; reflexivity. Qed.

Lemma nextHandle_clearHandle r (s : component) :
  nextHandle (clearHandle r s) = nextHandle s.
Proof. destruct r as [[|h]|]; reflexivity. Qed.

Lemma In_clearAll (l : list nat) (s : component) t :
  In t (timers (fold_left (fun acc timeout => clearHandle (Some timeout) acc) l s)) ->
  In t (timers s) /\ (handle t <> 0%nat -> ~ In (handle t) l).
Proof.
  revert s. induction l as [|h l IH]; intros s H.
  - split; [exact H | intros _ []].
  - cbn [fold_left] in H. apply IH in H. destruct H as [H1 H2].
    apply In_clearHandle in H1. destruct H1 as [H1 H3].
    split; [exact H1|]. intros Hnz [E | Hin].
    + subst h. apply H3; [|reflexivity]. destruct (handle t); [contradiction | reflexivity].
    + exact (H2 Hnz Hin).
Qed.

Lemma hold_clearAll (l : list nat) (s : component) :
  hold (fold_left (fun acc timeout => clearHandle (Some timeout) acc) l s) = hold s.
Proof.
  revert s. induction l as [|h l IH]; intros s; [reflexivity|].
  cbn [fold_left]. rewrite IH. apply hold_clearHandle.
Qed.

Lemma nextHandle_clearAll (l : list nat) (s : component) :
  nextHandle (fold_left (fun acc timeout => clearHandle (Some timeout) acc) l s)
  = nextHandle s.
Proof.
  revert s. induction l as [|h l IH]; intros s; [reflexivity|].
  cbn [fold_left]. rewrite IH. apply nextHandle_clearHandle.
Qed.

(** What the release of control [d] leaves. *)
Lemma releaseInterval_spec d (s : component) :
  let s1 := releaseInterval d s in
  nextHandle s1 = nextHandle s /\
  (forall d', touchActiveRef d' s1 = touchActiveRef d' s) /\
  (forall d', timeoutsRef d' s1 = timeoutsRef d' s) /\
  JS.live (intervalRef d s1) = false /\
  (forall d', d' <> d -> intervalRef d' s1 = intervalRef d' s) /\
  (forall t, In t (timers s1) ->
             In t (timers s) /\
             (handle t <> 0%nat -> intervalRef d s <> Some (handle t))).
Proof.
  cbv zeta. unfold releaseInterval.
  destruct (JS.live (intervalRef d s)) eqn:El.
  - split; [destruct d; apply nextHandle_clearHandle|].
    split; [intros d'; destruct d, d'; cbn; rewrite hold_clearHandle; reflexivity|].
    split; [intros d'; destruct d, d'; cbn; rewrite hold_clearHandle; reflexivity|].
    split; [destruct d; reflexivity|].
    split; [intros d' Hne; destruct d, d'; try congruence; cbn;
            rewrite hold_clearHandle; reflexivity|].
    intros t Hin.
    assert (Hin' : In t (timers (clearHandle (intervalRef d s) s)))
      by (destruct d; exact Hin).
    apply In_clearHandle in Hin'. destruct Hin' as [Hin' Hne].
    split; [exact Hin' | intros _; exact (Hne El)].
  - repeat split; try reflexivity; try assumption.
    intros Hnz E. rewrite E in El. destruct (handle t); [contradiction | discriminate].
Qed.

Lemma release_spec d (s : component) :
  let s' := releaseTimeouts d (releaseInterval d s) in
  nextHandle s' = nextHandle s /\
  (forall d', touchActiveRef d' s' = touchActiveRef d' s) /\
  timeoutsRef d s' = [] /\
  JS.live (intervalRef d s') = false /\
  (forall d', d' <> d ->
              intervalRef d' s' = intervalRef d' s /\
              timeoutsRef d' s' = timeoutsRef d' s) /\
  (forall t, In t (timers s') ->
             In t (timers s) /\
             (handle t <> 0%nat ->
              intervalRef d s <> Some (handle t) /\ ~ In (handle t) (timeoutsRef d s))).
Proof.
  cbv zeta. destruct (releaseInterval_spec d s) as (Hn & Hf & Ht & Hl & Ho & Hin1).
  unfold releaseTimeouts.
  set (s1 := releaseInterval d s) in *.
  split; [destruct d; cbn; rewrite nextHandle_clearAll; exact Hn|].
  split.
  { intros d'. rewrite <- Hf. destruct d, d'; cbn; rewrite hold_clearAll; reflexivity. }
  split; [destruct d; reflexivity|].
  split.
  { rewrite <- Hl. destruct d; cbn; rewrite hold_clearAll; reflexivity. }
  split.
  { intros d' Hne. rewrite <- (Ho d' Hne), <- (Ht d').
    destruct d, d'; try congruence; cbn; rewrite hold_clearAll; split; reflexivity. }
  intros t Hin.
  assert (Hin' : In t (timers (fold_left
                   (fun acc timeout => clearHandle (Some timeout) acc)
                   (timeoutsRef d s1) s1))) by (destruct d; exact Hin).
  apply In_clearAll in Hin'. destruct Hin' as [Hin' Hnot].
  destruct (Hin1 t Hin') as [Hin0 Hne]. split; [exact Hin0|].
  intros Hnz. split; [exact (Hne Hnz)|]. rewrite <- Ht. exact (Hnot Hnz).
Qed.

Lemma release_wired d (s : component) :
  wired s ->
  wired (releaseTimeouts d (releaseInterval d s)) /\
  sessionTimers d (releaseTimeouts d (releaseInterval d s)) = [].
Proof.
  intros (H3 & H4).
  destruct (release_spec d s) as (Hn & Hf & Ht & Hl & Ho & Hin).
  set (s' := releaseTimeouts d (releaseInterval d s)) in *.
  assert (Hgone : forall t, In t (timers s') -> holdDirection (action t) <> Some d).
  { intros t Hin' Hd. destruct (Hin t Hin') as [Hin0 Hne].
    destruct (H4 t Hin0) as [Hnz Hk]. destruct (Hne Hnz) as [Hi Hto].
    destruct (Hk d Hd); contradiction. }
  split; [|apply sessionTimers_nil; exact Hgone].
  split; [rewrite Hn; exact H3|].
  intros t Hin'. destruct (Hin t Hin') as [Hin0 _].
  destruct (H4 t Hin0) as [Hnz Hk]. split; [exact Hnz|].
  intros d' Hd'.
  assert (Hne : d' <> d) by (intros ->; exact (Hgone t Hin' Hd')).
  destruct (Ho d' Hne) as [-> ->]. exact (Hk d' Hd').
Qed.

(** After the cleanup of part_000 no hold timer is left. *)
Lemma cleanup_wired (s : component) :
  wired s ->
  let s' := cleanupAllIntervals Circle s in
  tracked s' /\
  (forall t, In t (timers s') -> holdDirection (action t) = None).
Proof.
  intros Hw. cbv zeta. unfold cleanupAllIntervals.
  destruct (release_wired Increase Hw) as [Hw1 Hi].
  set (s1 := releaseTimeouts Increase (releaseInterval Increase s)) in *.
  destruct (release_wired Decrease Hw1) as [Hw2 Hd].
  destruct (release_spec Decrease s1) as (_ & _ & _ & _ & _ & Hin).
  set (s2 := releaseTimeouts Decrease (releaseInterval Decrease s1)) in *.
  split.
  - split; [reflexivity|]. split; [reflexivity|].
    pose proof (proj1 Hw2) as Hn2.
    revert Hw2. apply wired_shrink.
    + intros d; destruct d; reflexivity.
    + intros d; destruct d; reflexivity.
    + exact Hn2.
    + intros t Ht. exists t. repeat split. exact Ht.
  - intros t Ht.
    change (In t (timers s2)) in Ht.
    destruct (holdDirection (action t)) as [[|]|] eqn:E; [| |reflexivity]; exfalso.
    + destruct (Hin t Ht) as [Ht1 _].
      exact (proj1 (sessionTimers_nil Increase s1) Hi t Ht1 E).
    + exact (proj1 (sessionTimers_nil Decrease s2) Hd t Ht E).
Qed.

Lemma debounced_cells d v now (s : component) :
  timers (debounced d v now s) = timers s /\
  nextHandle (debounced d v now s) = nextHandle s /\
  (forall d', intervalRef d' (debounced d v now s) = intervalRef d' s) /\
  (forall d', timeoutsRef d' (debounced d v now s) = timeoutsRef d' s) /\
  (forall d', touchActiveRef d' (debounced d v now s) = touchActiveRef d' s).
Proof.
  unfold debounced, stepTempo, increaseTempo, decreaseTempo.
  destruct (Z.ltb (now - lastTimeRef d s) DEBOUNCE_TIME);
    [repeat split; reflexivity|].
  destruct d;
    match goal with
    | |- context [if ?c then _ else _] => destruct c
    end;
    repeat split; try reflexivity; intros d'; destruct d'; reflexivity.
Qed.

Lemma armHold_tracked d now (s : component) :
  wired s -> tracked (armHold d Circle now s).
Proof.
  intros Hw. destruct (cleanup_wired Hw) as [(Hf1 & Hf2 & Hn & Hk) Hnone].
  set (s1 := cleanupAllIntervals Circle s) in *.
  destruct (debounced_cells d Circle now s1) as (Ht & Hnh & Hi & Hto & Hfl).
  unfold armHold. fold s1.
  set (s2 := debounced d Circle now s1) in *.
  unfold setInterval, setTimeout, addTimer. cbn [fst snd].
  split; [transitivity (touchActiveRef Increase s2);
          [destruct d; reflexivity | rewrite Hfl; exact Hf1]|].
  split; [transitivity (touchActiveRef Decrease s2);
          [destruct d; reflexivity | rewrite Hfl; exact Hf2]|].
  split; [destruct d; cbn; discriminate|].
  intros t Hin.
  assert (Hcases :
            In t (timers s1) \/
            (handle t = nextHandle s2 /\ action t = HoldRepeat d) \/
            (handle t = S (nextHandle s2) /\ action t = FirstAcceleration d)).
  { rewrite <- Ht.
    assert (Hin' : In t ((timers s2
                          ++ [Build_timer (nextHandle s2) (clock s2 + 500) (Some 500%Z)
                                (HoldRepeat d)])
                         ++ [Build_timer (S (nextHandle s2)) (clock s2 + 3000) None
                               (FirstAcceleration d)]))
      by (destruct d; exact Hin).
    apply in_app_or in Hin'. destruct Hin' as [Hin' | [<- | []]].
    - apply in_app_or in Hin'. destruct Hin' as [Hin' | [<- | []]].
      + left. exact Hin'.
      + right. left. split; reflexivity.
    - right. right. split; reflexivity. }
  destruct Hcases as [Hold | [[Hh Ha] | [Hh Ha]]].
  - destruct (Hk t Hold) as [Hnz _]. split; [exact Hnz|].
    intros d' Hd'. rewrite (Hnone t Hold) in Hd'. discriminate.
  - split; [rewrite Hh, Hnh; exact Hn|].
    intros d' Hd'. rewrite Ha in Hd'. injection Hd' as <-.
    left. rewrite Hh. destruct d; reflexivity.
  - split; [rewrite Hh; discriminate|].
    intros d' Hd'. rewrite Ha in Hd'. injection Hd' as <-.
    right. rewrite Hh. destruct d; cbn; apply in_or_app; right; left; reflexivity.
Qed.

Lemma rearm_wired t (s : component) : wired s -> wired (rearm t s).
Proof.
  intros Hw. pose proof (proj1 Hw) as Hn. revert Hw.
  unfold rearm. destruct (every t) as [period|].
  - apply wired_shrink; try (intros d; destruct d; reflexivity); [exact Hn|].
    intros u Hu. cbn in Hu. apply in_map_iff in Hu. destruct Hu as (u0 & Hu0 & Hin).
    exists u0. split; [exact Hin|].
    destruct (Nat.eqb (handle u0) (handle t)); subst u; split; reflexivity.
  - apply wired_shrink; try (intros d; destruct d; reflexivity); [exact Hn|].
    intros u Hu. apply In_clearTimer in Hu. exists u. repeat split. apply Hu.
Qed.

(** After a tier switch cleared the interval of control [d], a timer
    left in the table is known through the timeouts of its control or
    belongs to the other control. *)
Lemma cleared_known d (s : component) :
  wired s ->
  JS.live (intervalRef d s) = true ->
  forall t, In t (timers (clearHandle (intervalRef d s) s)) ->
    handle t <> 0%nat /\
    forall d', holdDirection (action t) = Some d' ->
               (d' <> d /\ intervalRef d' s = Some (handle t)) \/
               In (handle t) (timeoutsRef d' s).
Proof.
  intros (Hn & Hk) Hlive t Hin.
  apply In_clearHandle in Hin. destruct Hin as [Hin Hne].
  destruct (Hk t Hin) as [Hnz Hkn]. split; [exact Hnz|].
  intros d' Hd'. destruct (Hkn d' Hd') as [Hi | Hto]; [|right; exact Hto].
  left. split; [|exact Hi]. intros ->. exact (Hne Hlive Hi).
Qed.

Lemma firstAcceleration_wired d (s : component) :
  wired s -> wired (firstAcceleration d s).
Proof.
  intros Hw. unfold firstAcceleration.
  destruct (JS.live (intervalRef d s)) eqn:Hlive; [|exact Hw].
  pose proof (@cleared_known d s Hw Hlive) as Hold.
  destruct Hw as (Hn & _).
  set (s1 := clearHandle (intervalRef d s) s) in *.
  assert (Hn1 : nextHandle s1 = nextHandle s) by apply nextHandle_clearHandle.
  assert (Hh1 : hold s1 = hold s) by apply hold_clearHandle.
  unfold setInterval, setTimeout, addTimer. cbn [fst snd].
  split; [destruct d; cbn; discriminate|].
  intros t Hin.
  assert (Hin' : In t ((timers s1
                        ++ [Build_timer (nextHandle s1) (clock s1 + 300) (Some 300%Z)
                              (HoldRepeat d)])
                       ++ [Build_timer (S (nextHandle s1)) (clock s1 + 2000) None
                             (SecondAcceleration d)]))
    by (destruct d; exact Hin).
  apply in_app_or in Hin'. destruct Hin' as [Hin' | [<- | []]];
    [apply in_app_or in Hin'; destruct Hin' as [Hin' | [<- | []]]|].
  - destruct (Hold t Hin') as [Hnz Hkn]. split; [exact Hnz|].
    intros d' Hd'. destruct (Hkn d' Hd') as [[Hne Hi] | Hto].
    + left. rewrite <- Hi. destruct d, d'; try congruence; cbn;
        unfold intervalRef; rewrite Hh1; reflexivity.
    + right. destruct d, d'; cbn; unfold timeoutsRef in *; rewrite Hh1;
        try exact Hto; apply in_or_app; left; exact Hto.
  - split; [cbn; rewrite Hn1; exact Hn|].
    intros d' Hd'. injection Hd' as <-. left. destruct d; reflexivity.
  - split; [cbn; discriminate|].
    intros d' Hd'. injection Hd' as <-. right.
    destruct d; cbn; apply in_or_app; right; left; reflexivity.
Qed.

Lemma secondAcceleration_wired d (s : component) :
  wired s -> wired (secondAcceleration Circle d s).
Proof.
  intros Hw. unfold secondAcceleration.
  destruct (JS.live (intervalRef d s)) eqn:Hlive; [|exact Hw].
  pose proof (@cleared_known d s Hw Hlive) as Hold.
  destruct Hw as (Hn & _).
  set (s1 := clearHandle (intervalRef d s) s) in *.
  assert (Hn1 : nextHandle s1 = nextHandle s) by apply nextHandle_clearHandle.
  assert (Hh1 : hold s1 = hold s) by apply hold_clearHandle.
  unfold setInterval, addTimer. cbn [fst snd].
  replace (secondIntervalCell Circle d) with d by (destruct d; reflexivity).
  split; [destruct d; cbn; discriminate|].
  intros t Hin.
  assert (Hin' : In t (timers s1
                       ++ [Build_timer (nextHandle s1) (clock s1 + 200) (Some 200%Z)
                             (HoldRepeat d)]))
    by (destruct d; exact Hin).
  apply in_app_or in Hin'. destruct Hin' as [Hin' | [<- | []]].
  - destruct (Hold t Hin') as [Hnz Hkn]. split; [exact Hnz|].
    intros d' Hd'. destruct (Hkn d' Hd') as [[Hne Hi] | Hto].
    + left. rewrite <- Hi. destruct d, d'; try congruence; cbn;
        unfold intervalRef; rewrite Hh1; reflexivity.
    + right. destruct d, d'; cbn; unfold timeoutsRef in *; rewrite Hh1; exact Hto.
  - split; [cbn; rewrite Hn1; exact Hn|].
    intros d' Hd'. injection Hd' as <-. left. destruct d; reflexivity.
Qed.

Lemma timeTrackingTick_wired (s : component) : wired s -> wired (timeTrackingTick s).
Proof.
  intros Hw. pose proof (proj1 Hw) as Hn. revert Hw. unfold timeTrackingTick.
  destruct (Z.leb _ _ && negb (isSlowingDown s)).
  - set (s2 := setIsSlowingDown true (set_runningTimeRef (runningTimeRef s + 1) s)).
    destruct (JS.live (timeTrackingIntervalRef s2)).
    + apply wired_shrink.
      * intros d; destruct d; cbn; rewrite hold_clearHandle; reflexivity.
      * intros d; destruct d; cbn; rewrite hold_clearHandle; reflexivity.
      * cbn. rewrite nextHandle_clearHandle. exact Hn.
      * intros t Hin.
        change (In t (timers (clearHandle (timeTrackingIntervalRef s2) s2))) in Hin.
        apply In_clearHandle in Hin. exists t. repeat split. apply Hin.
    + trivial.
  - trivial.
Qed.

Lemma fire_tracked t (s : component) : tracked s -> tracked (fire Circle t s).
Proof.
  intros (H1 & H2 & Hw). unfold fire.
  assert (Hw1 : wired (rearm t (set_clock (due t) s))) by (apply rearm_wired; exact Hw).
  assert (Hf : forall d, touchActiveRef d (rearm t (set_clock (due t) s)) = false).
  { intros d. unfold rearm. destruct (every t); destruct d; assumption. }
  revert Hw1 Hf. generalize (rearm t (set_clock (due t) s)). intros s1 Hw1 Hf.
  destruct (action t) as [d | d | d | |]; cbn [runCallback].
  - split; [exact (Hf Increase)|]. split; [exact (Hf Decrease)|]. exact Hw1.
  - split; [|split; [|apply firstAcceleration_wired; exact Hw1]].
    + rewrite <- (Hf Increase). unfold firstAcceleration.
      destruct (JS.live (intervalRef d s1)); [|reflexivity].
      destruct d; cbn; rewrite hold_clearHandle; reflexivity.
    + rewrite <- (Hf Decrease). unfold firstAcceleration.
      destruct (JS.live (intervalRef d s1)); [|reflexivity].
      destruct d; cbn; rewrite hold_clearHandle; reflexivity.
  - split; [|split; [|apply secondAcceleration_wired; exact Hw1]].
    + rewrite <- (Hf Increase). unfold secondAcceleration.
      destruct (JS.live (intervalRef d s1)); [|reflexivity].
      destruct d; cbn; rewrite hold_clearHandle; reflexivity.
    + rewrite <- (Hf Decrease). unfold secondAcceleration.
      destruct (JS.live (intervalRef d s1)); [|reflexivity].
      destruct d; cbn; rewrite hold_clearHandle; reflexivity.
  - split; [|split; [|apply timeTrackingTick_wired; exact Hw1]].
    + rewrite <- (Hf Increase). unfold timeTrackingTick.
      destruct (Z.leb _ _ && negb (isSlowingDown s1)); [|reflexivity].
      destruct (JS.live _); [|reflexivity].
      cbn. rewrite hold_clearHandle. reflexivity.
    + rewrite <- (Hf Decrease). unfold timeTrackingTick.
      destruct (Z.leb _ _ && negb (isSlowingDown s1)); [|reflexivity].
      destruct (JS.live _); [|reflexivity].
      cbn. rewrite hold_clearHandle. reflexivity.
  - split; [exact (Hf Increase)|]. split; [exact (Hf Decrease)|]. exact Hw1.
Qed.

Lemma animate_cells t (s s' : component) :
  animate t s = Some s' ->
  hold s' = hold s /\ timers s' = timers s /\
  (nextHandle s' = nextHandle s \/ nextHandle s' = S (nextHandle s)).
Proof.
  unfold animate. destruct (isPlaying s); cbn [negb].
  - set (s1 := if JS.truthy (startTimeRef s) then s else set_startTimeRef (Some t) s).
    set (s2 := if JS.truthy (lastBeatTimeRef s1) then s1
               else set_lastBeatTimeRef (Some t) s1).
    assert (H2 : hold s2 = hold s /\ timers s2 = timers s /\ nextHandle s2 = nextHandle s).
    { subst s2 s1. destruct (JS.truthy (startTimeRef s));
        match goal with
        | |- context [if ?c then _ else _] => destruct c
        end; repeat split; reflexivity. }
    clearbody s2. destruct H2 as (Hh & Ht & Hn).
    destruct (beatDurationMs (currentBpmRef s2)) as [bd|]; [|discriminate].
    destruct (lastBeatTimeRef s2) as [l|]; [|discriminate].
    intros H. injection H as <-. rewrite <- Hh, <- Ht, <- Hn.
    destruct (Qle_bool bd (t - l)); unfold playClickTone;
      try destruct (audioContextRef s2); repeat split; try reflexivity; right; reflexivity.
  - intros H. injection H as <-. unfold stopAnimation.
    destruct (JS.live (animationRef s)); repeat split; try reflexivity; left; reflexivity.
Qed.

Lemma tracked_mount audio stored upgraded now :
  tracked (mount Circle audio stored upgraded now).
Proof.
  repeat split; try reflexivity; try discriminate; contradiction.
Qed.

Lemma wired_touchFlag d b (s : component) : wired s -> wired (set_touchActiveRef d b s).
Proof.
  intros Hw. pose proof (proj1 Hw) as Hn. revert Hw.
  apply wired_shrink; try (intros d'; destruct d, d'; reflexivity).
  - exact Hn.
  - intros t Hin. exists t. repeat split. destruct d; exact Hin.
Qed.

Lemma release_tracked d (s : component) :
  wired s ->
  touchActiveRef Increase s = false -> touchActiveRef Decrease s = false ->
  tracked (releaseTimeouts d (releaseInterval d s)) /\
  sessionTimers d (releaseTimeouts d (releaseInterval d s)) = [].
Proof.
  intros Hw H1 H2. destruct (release_wired d Hw) as [Hw' Hnil].
  destruct (release_spec d s) as (_ & Hf & _).
  split; [|exact Hnil].
  split; [rewrite <- H1; exact (Hf Increase)|].
  split; [rewrite <- H2; exact (Hf Decrease)|]. exact Hw'.
Qed.

Lemma handleTouchEnd_tracked d (s : component) :
  tracked s -> tracked (handleTouchEnd d s) /\ sessionTimers d (handleTouchEnd d s) = [].
Proof.
  intros (H1 & H2 & Hw). unfold handleTouchEnd. apply release_tracked.
  - apply wired_touchFlag. exact Hw.
  - destruct d; [reflexivity | exact H1].
  - destruct d; [exact H2 | reflexivity].
Qed.

Lemma handleMouseUp_tracked d (s : component) :
  tracked s -> tracked (handleMouseUp d s) /\ sessionTimers d (handleMouseUp d s) = [].
Proof.
  intros (H1 & H2 & Hw). unfold handleMouseUp.
  replace (touchActiveRef d s) with false by (destruct d; symmetry; assumption).
  apply release_tracked; assumption.
Qed.

Lemma tracked_step (s s' : component) : step Circle s s' -> tracked s -> tracked s'.
Proof.
  intros Hstep H. remember Circle as v eqn:Hv.
  pose proof (proj1 (proj2 (proj2 H))) as Hnz.
  destruct Hstep; try discriminate Hv; subst.
  - revert H. apply tracked_frame; try reflexivity. exact Hnz.
  - destruct H as (H1 & H2 & Hw). unfold handleTouchStart.
    replace (touchActiveRef d s) with false by (destruct d; symmetry; assumption).
    apply armHold_tracked. apply wired_touchFlag. exact Hw.
  - apply handleTouchEnd_tracked. exact H.
  - destruct H as (H1 & H2 & Hw). unfold handleMouseDown.
    replace (touchActiveRef d s) with false by (destruct d; symmetry; assumption).
    apply armHold_tracked. exact Hw.
  - apply handleMouseUp_tracked. exact H.
  - apply fire_tracked. exact H.
  - match goal with
    | Ha : animate _ _ = Some _ |- _ =>
        destruct (animate_cells _ _ Ha) as (Hh & Ht & Hn)
    end.
    revert H. apply tracked_frame; try assumption.
    destruct Hn as [-> | ->]; [exact Hnz | discriminate].
  - revert H. apply tracked_frame; try reflexivity. exact Hnz.
  - revert H.
    cbn [playEffect]. destruct (isPlaying s).
    + apply tracked_frame; try reflexivity. cbn. discriminate.
    + unfold stopAnimation. destruct (JS.live (animationRef s));
        apply tracked_frame; try reflexivity; exact Hnz.
  - revert H.
    cbn [bpmEffect]. destruct (isPlaying s); [|trivial].
    unfold stopAnimation.
    destruct (JS.live (animationRef (resetTiming now s)));
      apply tracked_frame; try reflexivity; cbn; discriminate.
  - revert H.
    unfold handle75Percent. destruct (_ && _); [|trivial].
    apply tracked_frame; try reflexivity. exact Hnz.
  - revert H.
    unfold zoomEffect. destruct (_ && _); [destruct (_ || _)|];
      apply tracked_frame; try reflexivity; exact Hnz.
Qed.

Lemma reachable_tracked (s : component) : reachable Circle s -> tracked s.
Proof.
  induction 1 as [audio stored upgraded now | s s' _ IH Hstep].
  - apply tracked_mount.
  - exact (tracked_step Hstep IH).
Qed.

(** In part_000 the release handlers do what the specification says,
    in every state the component can reach: no timer of the released
    control is left in the host's table. *)
Lemma release_stops_session :
  forall (s : component) (d : direction) (p : pointer),
    reachable Circle s ->
    sessionTimers d (release p d s) = [] /\
    timeoutsRef d (release p d s) = [] /\
    JS.live (intervalRef d (release p d s)) = false.
Proof.
  intros s d p Hr. pose proof (reachable_tracked Hr) as H.
  destruct p; cbn [release].
  - split; [apply handleTouchEnd_tracked; exact H|].
    unfold handleTouchEnd.
    destruct (release_spec d (set_touchActiveRef d false s)) as (_ & _ & Ht & Hl & _).
    split; assumption.
  - split; [apply handleMouseUp_tracked; exact H|].
    destruct H as (H1 & H2 & _). unfold handleMouseUp.
    replace (touchActiveRef d s) with false by (destruct d; symmetry; assumption).
    destruct (release_spec d s) as (_ & _ & Ht & Hl & _).
    split; assumption.
Qed.

(** *** Release of the increase control in part_001 *)

Lemma isAcceleration_direction d cb :
  isAcceleration d cb = true -> holdDirection cb = Some d.
Proof.
  destruct cb as [d' | d' | d' | |]; cbn; try discriminate;
    intros H; apply sameDirection_eq in H; subst; reflexivity.
Qed.

(** [trialWired] reads three cells, the table and the next handle;
    timers may go, and timers of no control may come. *)
Lemma trialWired_grow (s s' : component) :
  increaseIntervalRef s' = increaseIntervalRef s ->
  increaseTimeoutsRef s' = increaseTimeoutsRef s ->
  decreaseTimeoutsRef s' = decreaseTimeoutsRef s ->
  nextHandle s' <> 0%nat ->
  (forall t, In t (timers s') ->
             (exists t0, In t0 (timers s) /\ handle t = handle t0 /\ action t = action t0) \/
             (handle t <> 0%nat /\ holdDirection (action t) = None)) ->
  trialWired s -> trialWired s'.
Proof.
  intros Hi Hit Hdt Hn Hsub (_ & H4 & H5 & H6 & H7).
  split; [exact Hn|].
  split.
  { intros t Hin. destruct (Hsub t Hin) as [(t0 & Hin0 & Hh & _) | [Hnz _]];
      [rewrite Hh; exact (H4 t0 Hin0) | exact Hnz]. }
  split.
  { intros t Hin Hd. destruct (Hsub t Hin) as [(t0 & Hin0 & Hh & Ha) | [_ Hnone]];
      [|congruence].
    rewrite Hi, Hit, Hh. apply (H5 t0 Hin0). rewrite <- Ha. exact Hd. }
  split.
  { intros t Hin Hd. destruct (Hsub t Hin) as [(t0 & Hin0 & Hh & Ha) | [_ Hnone]].
    - rewrite Hdt, Hh. apply (H6 t0 Hin0). rewrite <- Ha. exact Hd.
    - apply isAcceleration_direction in Hd. congruence. }
  intros t u Ht Hu Hdt' Hdu.
  destruct (Hsub t Ht) as [(t0 & Hin0 & _ & Hat) | [_ Hnone]]; [|congruence].
  destruct (Hsub u Hu) as [(u0 & Hinu & _ & Hau) | [_ Hnone]];
    [|apply isAcceleration_direction in Hdu; congruence].
  apply (H7 t0 u0 Hin0 Hinu); [rewrite <- Hat; exact Hdt' | rewrite <- Hau; exact Hdu].
Qed.

Lemma trialWired_shrink (s s' : component) :
  hold s' = hold s -> nextHandle s' = nextHandle s ->
  (forall t, In t (timers s') -> In t (timers s)) ->
  trialWired s -> trialWired s'.
Proof.
  intros Hh Hn Hsub Hw. pose proof (proj1 Hw) as Hnz. revert Hw.
  apply trialWired_grow; try (rewrite Hh; reflexivity); [rewrite Hn; exact Hnz|].
  intros t Hin. left. exists t. repeat split. exact (Hsub t Hin).
Qed.

Lemma trialTracked_frame (s s' : component) :
  hold s' = hold s -> timers s' = timers s -> nextHandle s' <> 0%nat ->
  trialTracked s -> trialTracked s'.
Proof.
  intros Hh Ht Hn (H1 & H2 & Hw).
  split; [rewrite Hh; exact H1|]. split; [rewrite Hh; exact H2|].
  revert Hw. apply trialWired_grow; try (rewrite Hh; reflexivity); [exact Hn|].
  intros t Hin. left. exists t. rewrite <- Ht. repeat split. exact Hin.
Qed.

(** A table without timers of the increase control. *)
Lemma trialWired_decreasing (s : component) :
  nextHandle s <> 0%nat ->
  (forall t, In t (timers s) ->
             handle t <> 0%nat /\ holdDirection (action t) <> Some Increase /\
             (isAcceleration Decrease (action t) = true ->
              In (handle t) (decreaseTimeoutsRef s))) ->
  trialWired s.
Proof.
  intros H3 H.
  split; [exact H3|].
  split; [intros t Hin; apply (H t Hin)|].
  split; [intros t Hin Hd; destruct (H t Hin) as (_ & Hno & _); contradiction|].
  split; [intros t Hin; apply (H t Hin)|].
  intros t u Ht _ Hd _. destruct (H t Ht) as (_ & Hno & _). contradiction.
Qed.

(** A table without pending tier switches of the decrease control. *)
Lemma trialWired_increasing (s : component) :
  nextHandle s <> 0%nat ->
  (forall t, In t (timers s) ->
             handle t <> 0%nat /\ isAcceleration Decrease (action t) = false /\
             (holdDirection (action t) = Some Increase ->
              increaseIntervalRef s = Some (handle t) \/
              In (handle t) (increaseTimeoutsRef s))) ->
  trialWired s.
Proof.
  intros H3 H.
  split; [exact H3|].
  split; [intros t Hin; apply (H t Hin)|].
  split; [intros t Hin; apply (H t Hin)|].
  split; [intros t Hin Hd; destruct (H t Hin) as (_ & Hno & _); congruence|].
  intros t u _ Hu _ Hd. destruct (H u Hu) as (_ & Hno & _). congruence.
Qed.

(** Release of the increase control: its timers are gone. *)
Lemma trial_releaseIncrease (s : component) :
  trialWired s ->
  let s' := releaseTimeouts Increase (releaseInterval Increase s) in
  trialWired s' /\
  (forall t, In t (timers s') -> holdDirection (action t) <> Some Increase).
Proof.
  intros (Hn & H4 & H5 & H6 & H7). cbv zeta.
  destruct (release_spec Increase s) as (Hn' & Hf & Ht & Hl & Ho & Hin).
  set (s' := releaseTimeouts Increase (releaseInterval Increase s)) in *.
  destruct (Ho Decrease) as [_ Hdt]; [discriminate|].
  assert (Hgone : forall t, In t (timers s') -> holdDirection (action t) <> Some Increase).
  { intros t Hin' Hd. destruct (Hin t Hin') as [Hin0 Hne].
    destruct (Hne (H4 t Hin0)) as [Hi Hto].
    destruct (H5 t Hin0 Hd); contradiction. }
  split; [|exact Hgone].
  split; [rewrite Hn'; exact Hn|].
  split; [intros t Hin'; apply H4, Hin, Hin'|].
  split; [intros t Hin' Hd; destruct (Hgone t Hin' Hd)|].
  split.
  { intros t Hin' Hd. change (decreaseTimeoutsRef s') with (timeoutsRef Decrease s').
    rewrite Hdt. apply (H6 t); [apply Hin, Hin' | exact Hd]. }
  intros t u Hin' _ Hd _. exact (Hgone t Hin' Hd).
Qed.

(** Release of the decrease control: its pending tier switches are gone. *)
Lemma trial_releaseDecrease (s : component) :
  trialWired s ->
  let s' := releaseTimeouts Decrease (releaseInterval Decrease s) in
  trialWired s' /\
  (forall t, In t (timers s') -> isAcceleration Decrease (action t) = false).
Proof.
  intros (Hn & H4 & H5 & H6 & H7). cbv zeta.
  destruct (release_spec Decrease s) as (Hn' & Hf & Ht & Hl & Ho & Hin).
  set (s' := releaseTimeouts Decrease (releaseInterval Decrease s)) in *.
  destruct (Ho Increase) as [Hii Hit]; [discriminate|].
  assert (Hgone : forall t, In t (timers s') ->
                            isAcceleration Decrease (action t) = false).
  { intros t Hin'. destruct (isAcceleration Decrease (action t)) eqn:Hd; [|reflexivity].
    exfalso. destruct (Hin t Hin') as [Hin0 Hne].
    destruct (Hne (H4 t Hin0)) as [_ Hto]. exact (Hto (H6 t Hin0 Hd)). }
  split; [|exact Hgone].
  split; [rewrite Hn'; exact Hn|].
  split; [intros t Hin'; apply H4, Hin, Hin'|].
  split.
  { intros t Hin' Hd.
    change (increaseIntervalRef s') with (intervalRef Increase s').
    change (increaseTimeoutsRef s') with (timeoutsRef Increase s').
    rewrite Hii, Hit. apply (H5 t); [apply Hin, Hin' | exact Hd]. }
  split; [intros t Hin' Hd; rewrite (Hgone t Hin') in Hd; discriminate|].
  intros t u _ Hu _ Hd. rewrite (Hgone u Hu) in Hd. discriminate.
Qed.

(** After the cleanup of part_001 the table holds no timer of the
    increase control and no pending tier switch of the decrease control. *)
Lemma trial_cleanup (s : component) :
  trialWired s ->
  let s' := cleanupAllIntervals Trial s in
  increaseTouchActiveRef s' = false /\ decreaseTouchActiveRef s' = false /\
  nextHandle s' <> 0%nat /\
  (forall t, In t (timers s') ->
             handle t <> 0%nat /\
             holdDirection (action t) <> Some Increase /\
             isAcceleration Decrease (action t) = false).
Proof.
  intros Hw. cbv zeta. unfold cleanupAllIntervals.
  destruct (trial_releaseIncrease Hw) as [Hw1 Hi].
  set (s1 := releaseTimeouts Increase (releaseInterval Increase s)) in *.
  destruct (trial_releaseDecrease Hw1) as [Hw2 Hd].
  destruct (release_spec Decrease s1) as (_ & _ & _ & _ & _ & Hin).
  set (s2 := releaseTimeouts Decrease (releaseInterval Decrease s1)) in *.
  assert (H2 : forall t, In t (timers s2) ->
             handle t <> 0%nat /\
             holdDirection (action t) <> Some Increase /\
             isAcceleration Decrease (action t) = false).
  { intros t Ht. split; [apply Hw2; exact Ht|].
    split; [apply Hi, Hin, Ht | apply Hd, Ht]. }
  pose proof (proj1 Hw2) as Hn2. clearbody s2. clear - H2 Hn2.
  set (s3 := if JS.live (timeTrackingIntervalRef s2)
             then set_timeTrackingIntervalRef None
                    (clearHandle (timeTrackingIntervalRef s2) s2)
             else s2).
  assert (H3 : nextHandle s3 = nextHandle s2 /\
               forall t, In t (timers s3) -> In t (timers s2)).
  { subst s3. destruct (JS.live (timeTrackingIntervalRef s2)).
    - split; [cbn; apply nextHandle_clearHandle|].
      intros t Ht.
      change (In t (timers (clearHandle (timeTrackingIntervalRef s2) s2))) in Ht.
      apply In_clearHandle in Ht. apply Ht.
    - split; [reflexivity | trivial]. }
  destruct H3 as [Hn3 Hsub3]. clearbody s3.
  set (s4 := set_touchActiveRef Decrease false (set_touchActiveRef Increase false s3)).
  destruct (JS.live (tapTimeoutRef s4)).
  - split; [cbn; rewrite hold_clearHandle; reflexivity|].
    split; [cbn; rewrite hold_clearHandle; reflexivity|].
    split; [cbn; rewrite nextHandle_clearHandle; cbn; rewrite Hn3; exact Hn2|].
    intros t Ht.
    change (In t (timers (clearHandle (tapTimeoutRef s4) s4))) in Ht.
    apply In_clearHandle in Ht. apply H2, Hsub3, Ht.
  - split; [reflexivity|]. split; [reflexivity|].
    split; [cbn; rewrite Hn3; exact Hn2|].
    intros t Ht. apply H2, Hsub3, Ht.
Qed.

Lemma trial_armHold d now (s : component) :
  trialWired s -> trialTracked (armHold d Trial now s).
Proof.
  intros Hw. destruct (trial_cleanup Hw) as (Hf1 & Hf2 & Hn & Hold).
  set (s1 := cleanupAllIntervals Trial s) in *.
  destruct (debounced_cells d Trial now s1) as (Ht & Hnh & Hi & Hto & Hfl).
  unfold armHold. fold s1.
  set (s2 := debounced d Trial now s1) in *.
  unfold setInterval, setTimeout, addTimer. cbn [fst snd].
  split; [transitivity (touchActiveRef Increase s2);
          [destruct d; reflexivity | rewrite Hfl; exact Hf1]|].
  split; [transitivity (touchActiveRef Decrease s2);
          [destruct d; reflexivity | rewrite Hfl; exact Hf2]|].
  assert (Hcases : forall t,
            In t ((timers s2
                   ++ [Build_timer (nextHandle s2) (clock s2 + 500) (Some 500%Z)
                         (HoldRepeat d)])
                  ++ [Build_timer (S (nextHandle s2)) (clock s2 + 3000) None
                        (FirstAcceleration d)]) ->
            In t (timers s1) \/
            (handle t = nextHandle s2 /\ action t = HoldRepeat d) \/
            (handle t = S (nextHandle s2) /\ action t = FirstAcceleration d)).
  { intros t Hin. rewrite <- Ht.
    apply in_app_or in Hin. destruct Hin as [Hin | [<- | []]].
    - apply in_app_or in Hin. destruct Hin as [Hin | [<- | []]].
      + left. exact Hin.
      + right. left. split; reflexivity.
    - right. right. split; reflexivity. }
  destruct d.
  - apply trialWired_increasing; [cbn; discriminate|].
    intros t Hin. destruct (Hcases t Hin) as [Ho | [[Hh Ha] | [Hh Ha]]].
    + destruct (Hold t Ho) as (Hnz & Hno & Hna).
      split; [exact Hnz|]. split; [exact Hna|]. intros Hd. contradiction.
    + split; [rewrite Hh, Hnh; exact Hn|]. rewrite Ha. split; [reflexivity|].
      intros _. left. rewrite Hh. reflexivity.
    + split; [rewrite Hh; discriminate|]. rewrite Ha. split; [reflexivity|].
      intros _. right. rewrite Hh. cbn. apply in_or_app. right. left. reflexivity.
  - apply trialWired_decreasing; [cbn; discriminate|].
    intros t Hin. destruct (Hcases t Hin) as [Ho | [[Hh Ha] | [Hh Ha]]].
    + destruct (Hold t Ho) as (Hnz & Hno & Hna).
      split; [exact Hnz|]. split; [exact Hno|]. intros Hd. congruence.
    + split; [rewrite Hh, Hnh; exact Hn|]. rewrite Ha. split; [discriminate|].
      discriminate.
    + split; [rewrite Hh; discriminate|]. rewrite Ha. split; [discriminate|].
      intros _. rewrite Hh. cbn. apply in_or_app. right. left. reflexivity.
Qed.

Lemma rearm_sub t (s : component) u :
  In u (timers (rearm t s)) ->
  exists u0, In u0 (timers s) /\ handle u = handle u0 /\ action u = action u0.
Proof.
  unfold rearm. destruct (every t) as [period|].
  - intros Hu. cbn in Hu. apply in_map_iff in Hu. destruct Hu as (u0 & Hu0 & Hin).
    exists u0. split; [exact Hin|].
    destruct (Nat.eqb (handle u0) (handle t)); subst u; split; reflexivity.
  - intros Hu. apply In_clearTimer in Hu. exists u. repeat split. apply Hu.
Qed.

Lemma rearm_cells t (s : component) :
  hold (rearm t s) = hold s /\ nextHandle (rearm t s) = nextHandle s.
Proof. unfold rearm. destruct (every t); split; reflexivity. Qed.

(** The hold callbacks leave the touch flags alone. *)
Lemma runCallback_flags v cb (s : component) d :
  touchActiveRef d (runCallback v cb s) = touchActiveRef d s.
Proof.
  destruct cb as [d0 | d0 | d0 | |]; cbn [runCallback].
  - reflexivity.
  - unfold firstAcceleration. destruct (JS.live (intervalRef d0 s)); [|reflexivity].
    destruct d, d0; cbn; rewrite hold_clearHandle; reflexivity.
  - unfold secondAcceleration. destruct (JS.live (intervalRef d0 s)); [|reflexivity].
    destruct v, d, d0; cbn; rewrite hold_clearHandle; reflexivity.
  - unfold timeTrackingTick.
    destruct (Z.leb _ _ && negb (isSlowingDown s)); [|reflexivity].
    destruct (JS.live _); [|reflexivity].
    destruct d; cbn; rewrite hold_clearHandle; reflexivity.
  - destruct d; reflexivity.
Qed.

Lemma trial_timeTrackingTick (s : component) :
  trialWired s -> trialWired (timeTrackingTick s).
Proof.
  unfold timeTrackingTick.
  destruct (Z.leb _ _ && negb (isSlowingDown s)); [|trivial].
  set (s2 := setIsSlowingDown true (set_runningTimeRef (runningTimeRef s + 1) s)).
  destruct (JS.live (timeTrackingIntervalRef s2)); [|trivial].
  apply trialWired_shrink.
  - cbn. rewrite hold_clearHandle. reflexivity.
  - cbn. rewrite nextHandle_clearHandle. reflexivity.
  - intros t Hin.
    change (In t (timers (clearHandle (timeTrackingIntervalRef s2) s2))) in Hin.
    apply In_clearHandle in Hin. apply Hin.
Qed.

(** A tier switch of the increase control, on a table without pending
    tier switches of the decrease control. *)
Lemma trial_switchIncrease (s : component) :
  trialWired s ->
  (forall u, In u (timers s) -> isAcceleration Decrease (action u) = false) ->
  trialWired (firstAcceleration Increase s) /\
  trialWired (secondAcceleration Trial Increase s).
Proof.
  intros (Hn & H4 & H5 & H6 & H7) HnoD.
  unfold firstAcceleration, secondAcceleration.
  change (intervalRef Increase s) with (increaseIntervalRef s).
  destruct (JS.live (increaseIntervalRef s)) eqn:Hlive;
    [|split; repeat split; assumption].
  set (s1 := clearHandle (increaseIntervalRef s) s).
  assert (Hn1 : nextHandle s1 = nextHandle s) by apply nextHandle_clearHandle.
  assert (Hh1 : hold s1 = hold s) by apply hold_clearHandle.
  assert (Hold : forall t, In t (timers s1) ->
            handle t <> 0%nat /\ isAcceleration Decrease (action t) = false /\
            (holdDirection (action t) = Some Increase ->
             In (handle t) (increaseTimeoutsRef s))).
  { intros t Hin. apply In_clearHandle in Hin. destruct Hin as [Hin Hne].
    split; [exact (H4 t Hin)|]. split; [exact (HnoD t Hin)|].
    intros Hd. destruct (H5 t Hin Hd) as [Hi | Hto]; [|exact Hto].
    destruct (Hne Hlive Hi). }
  unfold setInterval, setTimeout, addTimer. cbn [fst snd]. split.
  - apply trialWired_increasing; [cbn; discriminate|].
    intros t Hin. cbn in Hin.
    apply in_app_or in Hin. destruct Hin as [Hin | [<- | []]];
      [apply in_app_or in Hin; destruct Hin as [Hin | [<- | []]]|].
    + destruct (Hold t Hin) as (Hnz & Hna & Hk).
      split; [exact Hnz|]. split; [exact Hna|].
      intros Hd. right. cbn. rewrite Hh1. apply in_or_app. left. exact (Hk Hd).
    + split; [cbn; rewrite Hn1; exact Hn|]. split; [reflexivity|].
      intros _. left. reflexivity.
    + split; [cbn; discriminate|]. split; [reflexivity|].
      intros _. right. cbn. apply in_or_app. right. left. reflexivity.
  - apply trialWired_increasing; [cbn; discriminate|].
    intros t Hin. cbn in Hin.
    apply in_app_or in Hin. destruct Hin as [Hin | [<- | []]].
    + destruct (Hold t Hin) as (Hnz & Hna & Hk).
      split; [exact Hnz|]. split; [exact Hna|].
      intros Hd. right. cbn. rewrite Hh1. exact (Hk Hd).
    + split; [cbn; rewrite Hn1; exact Hn|]. split; [reflexivity|].
      intros _. left. reflexivity.
Qed.

(** A tier switch of the decrease control, on a table without timers
    of the increase control.  The second one writes the increase cell. *)
Lemma trial_switchDecrease (s : component) :
  trialWired s ->
  (forall u, In u (timers s) -> holdDirection (action u) <> Some Increase) ->
  trialWired (firstAcceleration Decrease s) /\
  trialWired (secondAcceleration Trial Decrease s).
Proof.
  intros (Hn & H4 & H5 & H6 & H7) HnoI.
  unfold firstAcceleration, secondAcceleration.
  change (intervalRef Decrease s) with (decreaseIntervalRef s).
  destruct (JS.live (decreaseIntervalRef s)) eqn:Hlive;
    [|split; repeat split; assumption].
  set (s1 := clearHandle (decreaseIntervalRef s) s).
  assert (Hn1 : nextHandle s1 = nextHandle s) by apply nextHandle_clearHandle.
  assert (Hh1 : hold s1 = hold s) by apply hold_clearHandle.
  assert (Hold : forall t, In t (timers s1) ->
            handle t <> 0%nat /\ holdDirection (action t) <> Some Increase /\
            (isAcceleration Decrease (action t) = true ->
             In (handle t) (decreaseTimeoutsRef s))).
  { intros t Hin. apply In_clearHandle in Hin. destruct Hin as [Hin _].
    split; [exact (H4 t Hin)|]. split; [exact (HnoI t Hin)|]. exact (H6 t Hin). }
  unfold setInterval, setTimeout, addTimer. cbn [fst snd]. split.
  - apply trialWired_decreasing; [cbn; discriminate|].
    intros t Hin. cbn in Hin.
    apply in_app_or in Hin. destruct Hin as [Hin | [<- | []]];
      [apply in_app_or in Hin; destruct Hin as [Hin | [<- | []]]|].
    + destruct (Hold t Hin) as (Hnz & Hno & Hk).
      split; [exact Hnz|]. split; [exact Hno|].
      intros Hd. cbn. rewrite Hh1. apply in_or_app. left. exact (Hk Hd).
    + split; [cbn; rewrite Hn1; exact Hn|]. split; discriminate.
    + split; [cbn; discriminate|]. split; [discriminate|].
      intros _. cbn. apply in_or_app. right. left. reflexivity.
  - apply trialWired_decreasing; [cbn; discriminate|].
    intros t Hin. cbn in Hin.
    apply in_app_or in Hin. destruct Hin as [Hin | [<- | []]].
    + destruct (Hold t Hin) as (Hnz & Hno & Hk).
      split; [exact Hnz|]. split; [exact Hno|].
      intros Hd. cbn. rewrite Hh1. exact (Hk Hd).
    + split; [cbn; rewrite Hn1; exact Hn|]. split; discriminate.
Qed.

Lemma trial_fire t (s : component) :
  trialTracked s -> In t (timers s) -> trialTracked (fire Trial t s).
Proof.
  intros (H1 & H2 & Hw) Hin. unfold fire.
  destruct (rearm_cells t (set_clock (due t) s)) as [Hh Hn].
  split; [change (touchActiveRef Increase
                    (runCallback Trial (action t) (rearm t (set_clock (due t) s)))
                  = false);
          rewrite runCallback_flags; unfold touchActiveRef; rewrite Hh; exact H1|].
  split; [change (touchActiveRef Decrease
                    (runCallback Trial (action t) (rearm t (set_clock (due t) s)))
                  = false);
          rewrite runCallback_flags; unfold touchActiveRef; rewrite Hh; exact H2|].
  assert (Hw0 : trialWired (rearm t (set_clock (due t) s))).
  { pose proof (proj1 Hw) as Hnz. revert Hw.
    apply trialWired_grow; try (rewrite Hh; reflexivity); [rewrite Hn; exact Hnz|].
    intros u Hu. left. exact (rearm_sub _ _ _ Hu). }
  destruct Hw as (_ & _ & _ & _ & H7).
  assert (HnoD : holdDirection (action t) = Some Increase ->
                 forall u, In u (timers (rearm t (set_clock (due t) s))) ->
                           isAcceleration Decrease (action u) = false).
  { intros Hd u Hu. destruct (rearm_sub _ _ _ Hu) as (u0 & Hu0 & _ & Ha).
    rewrite Ha. destruct (isAcceleration Decrease (action u0)) eqn:E; [|reflexivity].
    destruct (H7 t u0 Hin Hu0 Hd E). }
  assert (HnoI : isAcceleration Decrease (action t) = true ->
                 forall u, In u (timers (rearm t (set_clock (due t) s))) ->
                           holdDirection (action u) <> Some Increase).
  { intros Hd u Hu Hi. destruct (rearm_sub _ _ _ Hu) as (u0 & Hu0 & _ & Ha).
    rewrite Ha in Hi. exact (H7 u0 t Hu0 Hin Hi Hd). }
  revert Hw0 HnoD HnoI. generalize (rearm t (set_clock (due t) s)). intros s0 Hw0 HnoD HnoI.
  destruct (action t) as [d | [|] | [|] | |]; cbn [runCallback].
  - revert Hw0. apply trialWired_shrink; try reflexivity. trivial.
  - apply trial_switchIncrease; [exact Hw0 | exact (HnoD eq_refl)].
  - apply trial_switchDecrease; [exact Hw0 | exact (HnoI eq_refl)].
  - apply trial_switchIncrease; [exact Hw0 | exact (HnoD eq_refl)].
  - apply trial_switchDecrease; [exact Hw0 | exact (HnoI eq_refl)].
  - apply trial_timeTrackingTick. exact Hw0.
  - revert Hw0. apply trialWired_shrink; try reflexivity. trivial.
Qed.

Lemma trialWired_touchFlag d b (s : component) :
  trialWired s -> trialWired (set_touchActiveRef d b s).
Proof.
  intros Hw. pose proof (proj1 Hw) as Hnz. revert Hw.
  apply trialWired_grow;
    [destruct d; reflexivity | destruct d; reflexivity | destruct d; reflexivity
    | destruct d; exact Hnz |].
  intros t Hin. left. exists t. repeat split. destruct d; exact Hin.
Qed.

Lemma trial_release p d (s : component) :
  trialTracked s -> trialTracked (release p d s).
Proof.
  intros (H1 & H2 & Hw).
  assert (Hboth : forall s0 : component,
             trialWired s0 ->
             increaseTouchActiveRef s0 = false -> decreaseTouchActiveRef s0 = false ->
             trialTracked (releaseTimeouts d (releaseInterval d s0))).
  { intros s0 Hw0 Hf1 Hf2.
    destruct (release_spec d s0) as (_ & Hf & _).
    split; [rewrite <- Hf1; exact (Hf Increase)|].
    split; [rewrite <- Hf2; exact (Hf Decrease)|].
    destruct d; [apply trial_releaseIncrease | apply trial_releaseDecrease]; exact Hw0. }
  destruct p; cbn [release].
  - unfold handleTouchEnd. apply Hboth.
    + apply trialWired_touchFlag. exact Hw.
    + destruct d; [reflexivity | exact H1].
    + destruct d; [exact H2 | reflexivity].
  - unfold handleMouseUp.
    replace (touchActiveRef d s) with false by (destruct d; symmetry; assumption).
    apply Hboth; assumption.
Qed.

Lemma trial_playEffect now (s : component) :
  trialTracked s -> trialTracked (playEffect Trial now s).
Proof.
  intros (H1 & H2 & Hw). cbn [playEffect]. destruct (isPlaying s).
  - unfold setInterval, addTimer. cbn [fst snd].
    split; [exact H1|]. split; [exact H2|].
    revert Hw. apply trialWired_grow; try reflexivity; [cbn; discriminate|].
    intros t Hin. cbn in Hin. apply in_app_or in Hin. destruct Hin as [Hin | [<- | []]].
    + left. exists t. repeat split. exact Hin.
    + right. split; [cbn; discriminate | reflexivity].
  - set (s1 := stopAnimation s).
    assert (E1 : hold s1 = hold s /\ timers s1 = timers s /\ nextHandle s1 = nextHandle s).
    { subst s1. unfold stopAnimation. destruct (JS.live (animationRef s));
        repeat split; reflexivity. }
    destruct E1 as (Hh1 & Ht1 & Hn1).
    set (s2 := if JS.live (timeTrackingIntervalRef s1)
               then set_timeTrackingIntervalRef None
                      (clearHandle (timeTrackingIntervalRef s1) s1)
               else s1).
    assert (E2 : hold s2 = hold s /\ nextHandle s2 = nextHandle s /\
                 forall t, In t (timers s2) -> In t (timers s)).
    { subst s2. destruct (JS.live (timeTrackingIntervalRef s1)).
      - split; [cbn; rewrite hold_clearHandle; exact Hh1|].
        split; [cbn; rewrite nextHandle_clearHandle; exact Hn1|].
        intros t Hin.
        change (In t (timers (clearHandle (timeTrackingIntervalRef s1) s1))) in Hin.
        apply In_clearHandle in Hin. rewrite <- Ht1. apply Hin.
      - split; [exact Hh1|]. split; [exact Hn1|]. rewrite Ht1. trivial. }
    clearbody s2. destruct E2 as (Hh2 & Hn2 & Hsub2).
    assert (T2 : trialTracked s2).
    { split; [rewrite Hh2; exact H1|]. split; [rewrite Hh2; exact H2|].
      revert Hw. apply trialWired_shrink; assumption. }
    pose proof (proj1 (proj2 (proj2 T2))) as Hnz. revert T2.
    destruct (isSlowingDown s);
      [destruct (isTrialExpired s && negb (hasUpgraded s))|];
      apply trialTracked_frame; try reflexivity; exact Hnz.
Qed.

Lemma trial_handleTap now (s : component) :
  trialTracked s -> trialTracked (handleTap now s).
Proof.
  intros (H1 & H2 & Hw). unfold handleTap.
  set (s2 := clearHandle (tapTimeoutRef (playTapTone s)) (playTapTone s)).
  assert (E2 : hold s2 = hold s /\ nextHandle s2 = nextHandle s /\
               forall t, In t (timers s2) -> In t (timers s)).
  { subst s2. rewrite hold_clearHandle, nextHandle_clearHandle.
    unfold playTapTone. destruct (audioContextRef s);
      (split; [reflexivity|]; split; [reflexivity|]);
      intros t Hin; apply In_clearHandle in Hin; apply Hin. }
  clearbody s2. destruct E2 as (Hh2 & Hn2 & Hsub2).
  set (s3 := tapUpdate now s2).
  assert (E3 : hold s3 = hold s2 /\ nextHandle s3 = nextHandle s2 /\
               timers s3 = timers s2).
  { subst s3. unfold tapUpdate.
    destruct (Nat.leb 2 (length (tapWindow (tapTimes s2) now)));
      [destruct (calculatedBpm (tapWindow (tapTimes s2) now)) as [c|];
       [destruct (Z.leb MIN_BPM c && Z.leb c MAX_BPM && negb (isSlowingDown s2))|]|];
      repeat split; reflexivity. }
  clearbody s3. destruct E3 as (Hh3 & Hn3 & Ht3).
  unfold setTimeout, addTimer. cbn [fst snd].
  split; [cbn; rewrite Hh3, Hh2; exact H1|].
  split; [cbn; rewrite Hh3, Hh2; exact H2|].
  pose proof (proj1 Hw) as Hnz.
  revert Hw. apply trialWired_grow; try (cbn; rewrite Hh3, Hh2; reflexivity);
    [cbn; discriminate|].
  intros t Hin. cbn in Hin. apply in_app_or in Hin. destruct Hin as [Hin | [<- | []]].
  - left. exists t. repeat split. apply Hsub2. rewrite <- Ht3. exact Hin.
  - right. split; [|reflexivity]. cbn. rewrite Hn3, Hn2. exact Hnz.
Qed.

Lemma trial_mount audio stored upgraded now :
  trialTracked (mount Trial audio stored upgraded now).
Proof.
  cbn [mount]. unfold sessionEffect.
  destruct (Z.ltb MAX_TRIAL_SESSION_COUNT _ && negb upgraded);
    (split; [reflexivity|]; split; [reflexivity|]; split; [discriminate|];
     repeat split; intros; contradiction).
Qed.

Lemma trial_step (s s' : component) : step Trial s s' -> trialTracked s -> trialTracked s'.
Proof.
  intros Hstep H. remember Trial as v eqn:Hv.
  pose proof (proj1 (proj2 (proj2 H))) as Hnz.
  destruct Hstep; subst.
  - revert H. cbn [togglePlay].
    destruct (togglePlayRecovers s); destruct (negb (isPlaying s));
      apply trialTracked_frame; try reflexivity; exact Hnz.
  - destruct H as (H1 & H2 & Hw). unfold handleTouchStart.
    replace (touchActiveRef d s) with false by (destruct d; symmetry; assumption).
    apply trial_armHold. apply trialWired_touchFlag. exact Hw.
  - exact (trial_release Touch d H).
  - destruct H as (H1 & H2 & Hw). unfold handleMouseDown.
    replace (touchActiveRef d s) with false by (destruct d; symmetry; assumption).
    apply trial_armHold. exact Hw.
  - exact (trial_release Mouse d H).
  - apply trial_fire; assumption.
  - match goal with
    | Ha : animate _ _ = Some _ |- _ =>
        destruct (animate_cells _ _ Ha) as (Hh & Ht & Hn)
    end.
    revert H. apply trialTracked_frame; try assumption.
    destruct Hn as [-> | ->]; [exact Hnz | discriminate].
  - revert H. apply trialTracked_frame; try reflexivity. exact Hnz.
  - apply trial_playEffect. exact H.
  - exact H.
  - revert H. unfold handle75Percent. destruct (_ && _); [|trivial].
    apply trialTracked_frame; try reflexivity. exact Hnz.
  - revert H. unfold zoomEffect. destruct (_ && _); [destruct (_ || _)|];
      apply trialTracked_frame; try reflexivity; exact Hnz.
  - revert H. unfold displayBpmEffect. destruct (negb _); [|trivial].
    apply trialTracked_frame; try reflexivity. exact Hnz.
  - revert H. unfold slowdownEffect.
    destruct (isSlowingDown s && isPlaying s && negb (hasUpgraded s)); [|trivial].
    destruct ((Qle_bool (dotPosition s) 5 || Qle_bool 355 (dotPosition s))
              && negb (hasDecrementedThisCycleRef s)).
    + destruct (Z.leb (bpm s - 5) MIN_BPM);
        [|destruct (Qle_bool (dotPosition s) 5 || Qle_bool 355 (dotPosition s))];
        apply trialTracked_frame; try reflexivity; exact Hnz.
    + destruct (negb (Qle_bool (dotPosition s) 90) && negb (Qle_bool 270 (dotPosition s)));
        [destruct (hasDecrementedThisCycleRef s)|]; trivial.
  - apply trial_handleTap. exact H.
  - revert H. apply trialTracked_frame; try reflexivity. exact Hnz.
  - revert H. apply trialTracked_frame; try reflexivity. exact Hnz.
Qed.

Lemma reachable_trialTracked (s : component) : reachable Trial s -> trialTracked s.
Proof.
  induction 1 as [audio stored upgraded now | s s' _ IH Hstep].
  - apply trial_mount.
  - exact (trial_step Hstep IH).
Qed.

(** So do the release handlers of the increase control of part_001. *)
Lemma release_stops_increase_in_trial :
  forall (s : component) (p : pointer),
    reachable Trial s ->
    sessionTimers Increase (release p Increase s) = [] /\
    timeoutsRef Increase (release p Increase s) = [] /\
    JS.live (intervalRef Increase (release p Increase s)) = false.
Proof.
  intros s p Hr. destruct (reachable_trialTracked Hr) as (H1 & H2 & Hw).
  assert (Hboth : forall s0 : component,
             trialWired s0 ->
             sessionTimers Increase (releaseTimeouts Increase (releaseInterval Increase s0))
             = [] /\
             timeoutsRef Increase (releaseTimeouts Increase (releaseInterval Increase s0))
             = [] /\
             JS.live (intervalRef Increase
                        (releaseTimeouts Increase (releaseInterval Increase s0))) = false).
  { intros s0 Hw0. destruct (trial_releaseIncrease Hw0) as [_ Hgone].
    destruct (release_spec Increase s0) as (_ & _ & Ht & Hl & _).
    split; [apply sessionTimers_nil; exact Hgone|]. split; assumption. }
  destruct p; cbn [release].
  - unfold handleTouchEnd. apply Hboth. apply trialWired_touchFlag. exact Hw.
  - unfold handleMouseUp. change (touchActiveRef Increase s) with (increaseTouchActiveRef s).
    rewrite H1. apply Hboth. exact Hw.
Qed.

End PressAndHold.

(** ** Tempo changes and the timing anchor *)

Section TimingAnchor.

Local Open Scope Q_scope.




End TimingAnchor.

(** ** Tempo bounds *)

Section TempoBounds.

Local Open Scope Z_scope.

Lemma bounded_core (s s' : component) : core s' = core s -> bounded s -> bounded s'.
Proof.
  unfold core, bounded. intros H. injection H as -> -> ->. trivial.
Qed.

Lemma core_clearHandle r (s : component) : core (clearHandle r s) = core s.
Proof. destruct r as [[|h]|]; reflexivity. Qed.

Lemma core_clearAll (l : list nat) (s : component) :
  core (fold_left (fun acc timeout => clearHandle (Some timeout) acc) l s) = core s.
Proof.
  revert s. induction l as [|h l IH]; intros s; [reflexivity|].
  cbn [fold_left]. rewrite IH. apply core_clearHandle.
Qed.

Lemma core_releaseInterval d (s : component) : core (releaseInterval d s) = core s.
Proof.
  unfold releaseInterval. destruct (JS.live (intervalRef d s)); [|reflexivity].
  transitivity (core (clearHandle (intervalRef d s) s)); [destruct d; reflexivity|].
  apply core_clearHandle.
Qed.

Lemma core_releaseTimeouts d (s : component) : core (releaseTimeouts d s) = core s.
Proof.
  unfold releaseTimeouts.
  transitivity (core (fold_left (fun acc timeout => clearHandle (Some timeout) acc)
                        (timeoutsRef d s) s)); [destruct d; reflexivity|].
  apply core_clearAll.
Qed.

Lemma core_cleanupAllIntervals v (s : component) :
  core (cleanupAllIntervals v s) = core s.
Proof.
  unfold cleanupAllIntervals.
  set (s2 := releaseTimeouts Decrease
               (releaseInterval Decrease
                  (releaseTimeouts Increase (releaseInterval Increase s)))).
  assert (H2 : core s2 = core s).
  { subst s2. rewrite !core_releaseTimeouts, !core_releaseInterval.
    rewrite core_releaseTimeouts, core_releaseInterval. reflexivity. }
  rewrite <- H2. clearbody s2. destruct v; [reflexivity|].
  set (s3 := if JS.live (timeTrackingIntervalRef s2)
             then set_timeTrackingIntervalRef None
                    (clearHandle (timeTrackingIntervalRef s2) s2)
             else s2).
  assert (H3 : core s3 = core s2).
  { subst s3. destruct (JS.live (timeTrackingIntervalRef s2)); [|reflexivity].
    transitivity (core (clearHandle (timeTrackingIntervalRef s2) s2));
      [reflexivity | apply core_clearHandle]. }
  rewrite <- H3. clearbody s3.
  set (s4 := set_touchActiveRef Decrease false (set_touchActiveRef Increase false s3)).
  change (core s3) with (core s4). clearbody s4.
  destruct (JS.live (tapTimeoutRef s4)); [|reflexivity].
  transitivity (core (clearHandle (tapTimeoutRef s4) s4));
    [reflexivity | apply core_clearHandle].
Qed.

Lemma bounded_setBpm c (s : component) :
  Spec.inRange c -> bounded s -> bounded (setBpm c s).
Proof. intros Hc (_ & Ho & Hr). repeat split; solve [apply Hc | apply Ho | apply Hr]. Qed.

Lemma holdStep_inRange d b : Spec.inRange b -> Spec.inRange (holdStep d b).
Proof.
  unfold Spec.inRange, holdStep, MAX_BPM, MIN_BPM, BPM_STEP. intros H.
  destruct d; [destruct (Z.ltb_spec b 240) | destruct (Z.ltb_spec 30 b)]; lia.
Qed.

Lemma bounded_holdStep d (s : component) :
  bounded s -> bounded (setBpmWith (holdStep d) s).
Proof.
  intros H. apply bounded_setBpm; [|assumption]. apply holdStep_inRange, H.
Qed.

Lemma bounded_stepTempo d v (s : component) : bounded s -> bounded (stepTempo d v s).
Proof.
  intros H. pose proof H as (Hb & _). unfold Spec.inRange in Hb.
  destruct d; cbn [stepTempo]; unfold increaseTempo, decreaseTempo, MAX_BPM, MIN_BPM.
  - destruct (Z.ltb_spec (bpm s) 240); cbn [andb]; [|assumption].
    destruct (manualAllowed v s); [|assumption].
    apply bounded_setBpm; [|assumption]. unfold Spec.inRange, BPM_STEP. lia.
  - destruct (Z.ltb_spec 30 (bpm s)); cbn [andb]; [|assumption].
    destruct (manualAllowed v s); [|assumption].
    apply bounded_setBpm; [|assumption]. unfold Spec.inRange, BPM_STEP. lia.
Qed.

Lemma bounded_debounced d v now (s : component) :
  bounded s -> bounded (debounced d v now s).
Proof.
  intros H. unfold debounced.
  destruct (Z.ltb (now - lastTimeRef d s) DEBOUNCE_TIME); [assumption|].
  apply bounded_stepTempo. refine (bounded_core _ H). destruct d; reflexivity.
Qed.

Lemma bounded_armHold d v now (s : component) :
  bounded s -> bounded (armHold d v now s).
Proof.
  intros H.
  assert (H1 : bounded (debounced d v now (cleanupAllIntervals v s))).
  { apply bounded_debounced. exact (bounded_core (core_cleanupAllIntervals v s) H). }
  refine (bounded_core _ H1). unfold armHold. destruct d; reflexivity.
Qed.

Lemma bounded_release d (s : component) :
  bounded s -> bounded (releaseTimeouts d (releaseInterval d s)).
Proof.
  intros H. refine (bounded_core _ H).
  rewrite core_releaseTimeouts. apply core_releaseInterval.
Qed.

Lemma core_rearm t (s : component) : core (rearm t s) = core s.
Proof. unfold rearm. destruct (every t); reflexivity. Qed.

Lemma bounded_firstAcceleration d (s : component) :
  bounded s -> bounded (firstAcceleration d s).
Proof.
  intros H. unfold firstAcceleration.
  destruct (JS.live (intervalRef d s)); [|assumption].
  assert (H1 : bounded (setBpmWith (holdStep d) (clearHandle (intervalRef d s) s))).
  { apply bounded_holdStep. exact (bounded_core (core_clearHandle _ s) H). }
  refine (bounded_core _ H1). destruct d; reflexivity.
Qed.

Lemma bounded_secondAcceleration v d (s : component) :
  bounded s -> bounded (secondAcceleration v d s).
Proof.
  intros H. unfold secondAcceleration.
  destruct (JS.live (intervalRef d s)); [|assumption].
  assert (H1 : bounded (setBpmWith (holdStep d) (clearHandle (intervalRef d s) s))).
  { apply bounded_holdStep. exact (bounded_core (core_clearHandle _ s) H). }
  refine (bounded_core _ H1). destruct v, d; reflexivity.
Qed.

Lemma core_timeTrackingTick (s : component) : core (timeTrackingTick s) = core s.
Proof.
  unfold timeTrackingTick.
  destruct (Z.leb _ _ && negb (isSlowingDown s)); [|reflexivity].
  set (s2 := setIsSlowingDown true (set_runningTimeRef (runningTimeRef s + 1) s)).
  change (core s) with (core s2).
  destruct (JS.live (timeTrackingIntervalRef s2)); [|reflexivity].
  transitivity (core (clearHandle (timeTrackingIntervalRef s2) s2));
    [reflexivity | apply core_clearHandle].
Qed.

Lemma bounded_fire v t (s : component) : bounded s -> bounded (fire v t s).
Proof.
  intros H. unfold fire.
  assert (H1 : bounded (rearm t (set_clock (due t) s)))
    by (refine (bounded_core _ H); rewrite core_rearm; reflexivity).
  revert H1. generalize (rearm t (set_clock (due t) s)). intros s1 H1.
  destruct (action t); cbn [runCallback].
  - apply bounded_holdStep. assumption.
  - apply bounded_firstAcceleration. assumption.
  - apply bounded_secondAcceleration. assumption.
  - exact (bounded_core (core_timeTrackingTick s1) H1).
  - exact H1.
Qed.

Lemma animate_core t (s s' : component) : animate t s = Some s' -> core s' = core s.
Proof.
  unfold animate. destruct (isPlaying s); cbn [negb].
  - set (s1 := if JS.truthy (startTimeRef s) then s else set_startTimeRef (Some t) s).
    assert (H1 : core s1 = core s) by (subst s1; destruct (JS.truthy _); reflexivity).
    set (s2 := if JS.truthy (lastBeatTimeRef s1) then s1
               else set_lastBeatTimeRef (Some t) s1).
    assert (H2 : core s2 = core s)
      by (subst s2; destruct (JS.truthy (lastBeatTimeRef s1)); [exact H1 | rewrite <- H1; reflexivity]).
    clearbody s2. clear H1 s1.
    destruct (beatDurationMs (currentBpmRef s2)) as [bd|]; [|discriminate].
    destruct (lastBeatTimeRef s2) as [l|]; [|discriminate].
    intros H. injection H as <-. rewrite <- H2.
    destruct (Qle_bool bd (t - l)); [|reflexivity].
    unfold playClickTone. destruct (audioContextRef s2); reflexivity.
  - intros H. injection H as <-. unfold stopAnimation.
    destruct (JS.live (animationRef s)); reflexivity.
Qed.

Lemma bounded_togglePlay v (s : component) : bounded s -> bounded (togglePlay v s).
Proof.
  intros H. destruct v; cbn [togglePlay]; [exact H|].
  unfold togglePlayRecovers. pose proof H as ((Hlo & _) & _).
  destruct (Z.leb_spec (bpm s) 0); [lia|].
  destruct (negb (isPlaying s)); exact H.
Qed.

Lemma bounded_playEffect v now (s : component) : bounded s -> bounded (playEffect v now s).
Proof.
  intros H. pose proof H as (Hb & Ho & Hr).
  destruct v; cbn [playEffect].
  - destruct (isPlaying s); refine (bounded_core _ H); [reflexivity|].
    unfold stopAnimation. destruct (JS.live (animationRef s)); reflexivity.
  - destruct (isPlaying s).
    + repeat split; solve [apply Hb | apply Hr].
    + set (s1 := stopAnimation s).
      assert (H1 : core s1 = core s)
        by (subst s1; unfold stopAnimation; destruct (JS.live (animationRef s)); reflexivity).
      set (s2 := if JS.live (timeTrackingIntervalRef s1)
                 then set_timeTrackingIntervalRef None
                        (clearHandle (timeTrackingIntervalRef s1) s1)
                 else s1).
      assert (H2 : core s2 = core s).
      { rewrite <- H1. subst s2. destruct (JS.live (timeTrackingIntervalRef s1));
          [|reflexivity].
        transitivity (core (clearHandle (timeTrackingIntervalRef s1) s1));
          [reflexivity | apply core_clearHandle]. }
      clearbody s2. clear H1 s1.
      assert (B2 : bounded s2) by exact (bounded_core H2 H).
      destruct (isSlowingDown s).
      * destruct (isTrialExpired s && negb (hasUpgraded s));
          (apply bounded_setBpm; [apply B2 | exact B2]).
      * exact B2.
Qed.

Lemma bounded_slowdownEffect now (s : component) :
  bounded s -> bounded (slowdownEffect now s).
Proof.
  intros H. pose proof H as ((Hlo & Hhi) & _). unfold slowdownEffect.
  destruct (isSlowingDown s && isPlaying s && negb (hasUpgraded s)); [|assumption].
  destruct ((Qle_bool (dotPosition s) 5 || Qle_bool 355 (dotPosition s))
            && negb (hasDecrementedThisCycleRef s)).
  - unfold MIN_BPM. destruct (Z.leb_spec (bpm s - 5) 30); [exact H|].
    assert (H1 : bounded (setBpm (bpm s - 5) s))
      by (apply bounded_setBpm; [unfold Spec.inRange; lia | assumption]).
    refine (bounded_core _ H1).
    destruct (Qle_bool (dotPosition s) 5 || Qle_bool 355 (dotPosition s)); reflexivity.
  - destruct (negb (Qle_bool (dotPosition s) 90) && negb (Qle_bool 270 (dotPosition s)));
      [destruct (hasDecrementedThisCycleRef s)|]; exact H.
Qed.

Lemma bounded_tapUpdate now (s : component) : bounded s -> bounded (tapUpdate now s).
Proof.
  intros H. unfold tapUpdate.
  destruct (Nat.leb 2 (length (tapWindow (tapTimes s) now))); [|exact H].
  destruct (calculatedBpm (tapWindow (tapTimes s) now)) as [c|]; [|exact H].
  unfold MIN_BPM, MAX_BPM.
  destruct (Z.leb_spec 30 c); destruct (Z.leb_spec c 240); cbn [andb]; try exact H.
  destruct (negb (isSlowingDown s)); [|exact H].
  apply bounded_setBpm; [unfold Spec.inRange; lia | assumption].
Qed.

Lemma bounded_handleTap now (s : component) : bounded s -> bounded (handleTap now s).
Proof.
  intros H. unfold handleTap.
  set (s2 := clearHandle (tapTimeoutRef (playTapTone s)) (playTapTone s)).
  assert (H2 : bounded s2).
  { refine (bounded_core _ H). subst s2. rewrite core_clearHandle.
    unfold playTapTone. destruct (audioContextRef s); reflexivity. }
  exact (bounded_tapUpdate now H2).
Qed.

Lemma bounded_mount v audio stored upgraded now :
  bounded (mount v audio stored upgraded now).
Proof.
  assert (H : core (mount v audio stored upgraded now) = (70, 70, 70)).
  { destruct v; cbn [mount]; [reflexivity|].
    unfold sessionEffect.
    destruct (Z.ltb MAX_TRIAL_SESSION_COUNT _ && negb upgraded); reflexivity. }
  unfold bounded, core in *. injection H as -> -> ->.
  unfold Spec.inRange. lia.
Qed.

Lemma bounded_step v (s s' : component) : step v s s' -> bounded s -> bounded s'.
Proof.
  intros Hstep H. destruct Hstep.
  - apply bounded_togglePlay. assumption.
  - unfold handleTouchStart. destruct (touchActiveRef d s); [assumption|].
    apply bounded_armHold. refine (bounded_core _ H). destruct d; reflexivity.
  - unfold handleTouchEnd. apply bounded_release.
    refine (bounded_core _ H). destruct d; reflexivity.
  - unfold handleMouseDown. destruct (touchActiveRef d s); [assumption|].
    apply bounded_armHold. assumption.
  - unfold handleMouseUp. destruct (touchActiveRef d s); [assumption|].
    apply bounded_release. assumption.
  - apply bounded_fire. assumption.
  - refine (bounded_core _ H). eapply animate_core. eassumption.
  - destruct H as (Hb & Ho & _). repeat split; solve [apply Hb | apply Ho].
  - apply bounded_playEffect. assumption.
  - destruct v; cbn [bpmEffect]; [|assumption].
    destruct (isPlaying s); [|assumption].
    refine (bounded_core _ H). unfold stopAnimation.
    destruct (JS.live _); reflexivity.
  - unfold handle75Percent. destruct (_ && _); exact H.
  - unfold zoomEffect. destruct (_ && _); [destruct (_ || _)|]; exact H.
  - unfold displayBpmEffect. destruct (negb _); exact H.
  - apply bounded_slowdownEffect. assumption.
  - apply bounded_handleTap. assumption.
  - exact H.
  - exact H.
Qed.

Lemma reachable_bounded v (s : component) : reachable v s -> bounded s.
Proof.
  induction 1 as [audio stored upgraded now | s s' _ IH Hstep].
  - apply bounded_mount.
  - exact (bounded_step Hstep IH).
Qed.

Lemma tempoWrite_inRange (v : variant) (s s' : component) :
  Spec.inRange (bpm s) -> tempoWrite v s s' -> Spec.inRange (bpm s').
Proof.
  intros H Hw. pose proof H as Hb. unfold Spec.inRange in Hb.
  destruct Hw.
  - unfold increaseTempo, MAX_BPM.
    destruct (Z.ltb_spec (bpm s) 240); cbn [andb]; [|exact H].
    destruct (manualAllowed v s); [|exact H].
    unfold Spec.inRange, BPM_STEP. cbn. lia.
  - unfold decreaseTempo, MIN_BPM.
    destruct (Z.ltb_spec 30 (bpm s)); cbn [andb]; [|exact H].
    destruct (manualAllowed v s); [|exact H].
    unfold Spec.inRange, BPM_STEP. cbn. lia.
  - apply holdStep_inRange. exact H.
  - unfold tapUpdate.
    destruct (Nat.leb 2 (length (tapWindow (tapTimes s) now))); [|exact H].
    destruct (calculatedBpm (tapWindow (tapTimes s) now)) as [c|]; [|exact H].
    unfold MIN_BPM, MAX_BPM.
    destruct (Z.leb_spec 30 c); destruct (Z.leb_spec c 240); cbn [andb]; try exact H.
    destruct (negb (isSlowingDown s)); [|exact H].
    unfold Spec.inRange. cbn. lia.
  - unfold slowdownEffect.
    destruct (isSlowingDown s && isPlaying s && negb (hasUpgraded s)); [|exact H].
    destruct ((Qle_bool (dotPosition s) 5 || Qle_bool 355 (dotPosition s))
              && negb (hasDecrementedThisCycleRef s)).
    + unfold MIN_BPM. destruct (Z.leb_spec (bpm s - 5) 30); [exact H|].
      destruct (Qle_bool (dotPosition s) 5 || Qle_bool 355 (dotPosition s));
        unfold Spec.inRange; cbn; lia.
    + destruct (negb (Qle_bool (dotPosition s) 90) && negb (Qle_bool 270 (dotPosition s)));
        [destruct (hasDecrementedThisCycleRef s)|]; exact H.
Qed.

(** C8. Tempo bounds: the tempo starts at 70; in every state the
    component can reach it is an integer in [30,240]; each operation that
    writes it (single step, hold repeat, tap, slowdown decrement) keeps
    it there; a request that would leave the range is dropped: a step
    up at 240 or down at 30, a tap estimate outside the range and a
    slowdown decrement to 30 or below write nothing. *)
Theorem tempo_bounds_invariant :
  bpm initial = 70 /\
  (forall (v : variant) (s : component), reachable v s -> Spec.inRange (bpm s)) /\
  (forall (v : variant) (s s' : component),
      Spec.inRange (bpm s) -> tempoWrite v s s' -> Spec.inRange (bpm s')) /\
  (forall (v : variant) (s : component),
      MAX_BPM <= bpm s -> increaseTempo v s = s) /\
  (forall (v : variant) (s : component),
      bpm s <= MIN_BPM -> decreaseTempo v s = s) /\
  (forall b : Z, MAX_BPM <= b -> holdStep Increase b = b) /\
  (forall b : Z, b <= MIN_BPM -> holdStep Decrease b = b) /\
  (forall (now : Z) (s : component) (c : Z),
      calculatedBpm (tapWindow (tapTimes s) now) = Some c ->
      ~ Spec.inRange c ->
      bpm (tapUpdate now s) = bpm s /\ bpmLog (tapUpdate now s) = bpmLog s) /\
  (forall (now : Q) (s : component),
      bpm s - 5 <= MIN_BPM ->
      bpm (slowdownEffect now s) = bpm s /\
      bpmLog (slowdownEffect now s) = bpmLog s).
Proof.
  split; [reflexivity|].
  split; [intros v s H; apply (reachable_bounded H)|].
  split; [exact tempoWrite_inRange|].
  split.
  { intros v s H. unfold increaseTempo.
    destruct (Z.ltb_spec (bpm s) MAX_BPM); [lia | reflexivity]. }
  split.
  { intros v s H. unfold decreaseTempo.
    destruct (Z.ltb_spec MIN_BPM (bpm s)); [lia | reflexivity]. }
  split.
  { intros b H. cbn [holdStep]. destruct (Z.ltb_spec b MAX_BPM); [lia | reflexivity]. }
  split.
  { intros b H. cbn [holdStep]. destruct (Z.ltb_spec MIN_BPM b); [lia | reflexivity]. }
  split.
  { intros now s c Hc Hout. unfold tapUpdate. rewrite Hc.
    unfold Spec.inRange in Hout. unfold MIN_BPM, MAX_BPM.
    destruct (Nat.leb 2 (length (tapWindow (tapTimes s) now)));
      [|split; reflexivity].
    destruct (Z.leb_spec 30 c); destruct (Z.leb_spec c 240); cbn [andb];
      try (split; reflexivity). lia. }
  intros now s H. unfold slowdownEffect.
  destruct (isSlowingDown s && isPlaying s && negb (hasUpgraded s));
    [|split; reflexivity].
  destruct ((Qle_bool (dotPosition s) 5 || Qle_bool 355 (dotPosition s))
            && negb (hasDecrementedThisCycleRef s)).
  - destruct (Z.leb_spec (bpm s - 5) MIN_BPM); [split; reflexivity | lia].
  - destruct (negb (Qle_bool (dotPosition s) 90) && negb (Qle_bool 270 (dotPosition s)));
      [destruct (hasDecrementedThisCycleRef s)|]; split; reflexivity.
Qed.

Lemma tempo_bounds_invariant_witness :
  reachable Trial (handleTap 100 (handleTap 0 (fresh Trial))) /\
  Spec.inRange (bpm (handleTap 100 (handleTap 0 (fresh Trial)))).
Proof.
  assert (H : reachable Trial (handleTap 100 (handleTap 0 (fresh Trial)))).
  { apply (@reach_step Trial (handleTap 0 (fresh Trial))).
    - apply (@reach_step Trial (fresh Trial)).
      + exact (reach_mount Trial true None false 0).
      + exact (step_tap 0 (fresh Trial)).
    - exact (step_tap 100 (handleTap 0 (fresh Trial))). }
  split; [exact H|].
  exact (proj1 (proj2 tempo_bounds_invariant) Trial _ H).
Defined.

(** C10. In every state either variant can reach the tempo and the
    tempo cell read by the frames are strictly positive, so
    [60000 / currentBpm] never divides by zero and every frame is
    defined, and [togglePlay] never takes the branch that resets a
    non-positive tempo to 70. *)
Theorem tempo_positive :
  forall (v : variant) (s : component),
    reachable v s ->
    0 < bpm s /\
    0 < currentBpmRef s /\
    (exists beatDuration : Q,
        beatDurationMs (currentBpmRef s) = Some beatDuration /\
        (0 < beatDuration)%Q) /\
    (forall timestamp : Q, exists s', animate timestamp s = Some s') /\
    togglePlayRecovers s = false /\
    bpmLog (togglePlay v s) = bpmLog s.
Proof.
  intros v s H. destruct (reachable_bounded H) as ((Hlo & _) & _ & (Hrlo & _)).
  assert (Hpos : 0 < currentBpmRef s) by lia.
  assert (Hrec : togglePlayRecovers s = false).
  { unfold togglePlayRecovers. destruct (Z.leb_spec (bpm s) 0); [lia | reflexivity]. }
  split; [lia|]. split; [exact Hpos|].
  split.
  { exists (60000 / inject_Z (currentBpmRef s))%Q. apply beatDurationMs_pos. exact Hpos. }
  split.
  { intros timestamp. apply animate_defined. lia. }
  split; [exact Hrec|].
  destruct v; cbn [togglePlay]; [reflexivity|].
  rewrite Hrec. destruct (negb (isPlaying s)); reflexivity.
Qed.

Lemma tempo_positive_witness :
  reachable Circle (playing Circle 1000) /\
  0 < bpm (playing Circle 1000) /\
  togglePlayRecovers (playing Circle 1000) = false.
Proof.
  assert (H : reachable Circle (playing Circle 1000)).
  { apply (@reach_step Circle (togglePlay Circle (fresh Circle))).
    - apply (@reach_step Circle (fresh Circle)).
      + exact (reach_mount Circle true None false 0).
      + exact (step_togglePlay Circle (fresh Circle)).
    - exact (step_playEffect Circle 1000 (togglePlay Circle (fresh Circle))). }
  split; [exact H|].
  destruct (tempo_positive H) as (Hb & _ & _ & _ & Hr & _).
  split; [exact Hb | exact Hr].
Defined.

End TempoBounds.

(** ** The zoom scale *)

Section ZoomScale.

Local Open Scope Q_scope.

(** C9, as stated, fails before playback: the zoom effect runs in the
    first commit and sets the scale to 0.7, so a mounted component that
    has never played is at 0.7, not at 1.0. *)
Lemma zoom_scale_before_playback :
  isPlaying (fresh Circle) = false /\ isPlaying (fresh Trial) = false /\
  scaleEffect (fresh Circle) == 0.7 /\ scaleEffect (fresh Trial) == 0.7 /\
  ~ scaleEffect (fresh Circle) == 1 /\ ~ scaleEffect (fresh Trial) == 1.
Proof.
  repeat split; try reflexivity; vm_compute; discriminate.
Qed.

Lemma zoomEffect_scale (s : component) :
  scaleEffect (zoomEffect s) =
    if isPlaying s && hasReached75Percent s then
      if Qle_bool 270 (dotPosition s) then Spec.zoomScale (360 - dotPosition s)
      else if Qle_bool (dotPosition s) 90 then Spec.zoomScale (dotPosition s)
           else 0.7
    else 0.7.
Proof.
  unfold zoomEffect.
  destruct (isPlaying s && hasReached75Percent s); [|reflexivity].
  destruct (Qle_bool 270 (dotPosition s)); cbn [orb]; [reflexivity|].
  destruct (Qle_bool (dotPosition s) 90); reflexivity.
Qed.

Lemma zoomEffect_frame (s : component) :
  isPlaying (zoomEffect s) = isPlaying s /\
  hasReached75Percent (zoomEffect s) = hasReached75Percent s /\
  dotPosition (zoomEffect s) = dotPosition s.
Proof.
  unfold zoomEffect.
  destruct (isPlaying s && hasReached75Percent s);
    [destruct (Qle_bool 270 (dotPosition s) || Qle_bool (dotPosition s) 90)|];
    repeat split; reflexivity.
Qed.

Lemma handle75Percent_latch (s : component) :
  isPlaying (handle75Percent s) = isPlaying s /\
  dotPosition (handle75Percent s) = dotPosition s /\
  hasReached75Percent (handle75Percent s) =
    hasReached75Percent s || (isPlaying s && Qle_bool 270 (dotPosition s)).
Proof.
  unfold handle75Percent.
  destruct (isPlaying s) eqn:Ep; destruct (Qle_bool 270 (dotPosition s)) eqn:Eq;
    destruct (hasReached75Percent s) eqn:El; cbn; rewrite ?Ep, ?Eq, ?El;
    repeat split; reflexivity.
Qed.

Lemma zoomSample_state (s : component) (p : Q) :
  isPlaying (zoomSample s p) = isPlaying s /\
  hasReached75Percent (zoomSample s p) =
    hasReached75Percent s || (isPlaying s && Qle_bool 270 p) /\
  scaleEffect (zoomSample s p) =
    if isPlaying s && (hasReached75Percent s || (isPlaying s && Qle_bool 270 p)) then
      if Qle_bool 270 p then Spec.zoomScale (360 - p)
      else if Qle_bool p 90 then Spec.zoomScale p else 0.7
    else 0.7.
Proof.
  unfold zoomSample.
  destruct (zoomEffect_frame (handle75Percent (setDotPosition p s))) as (Hp & Hl & _).
  destruct (handle75Percent_latch (setDotPosition p s)) as (Hp' & Hd' & Hl').
  rewrite zoomEffect_scale, Hp, Hl, Hp', Hl', Hd'. repeat split; reflexivity.
Qed.

Lemma zoomRun_before_270 (phases : list Q) (s : component) :
  isPlaying s = true -> hasReached75Percent s = false ->
  scaleEffect s == 0.7 ->
  (forall p, In p phases -> p < 270) ->
  scaleEffect (zoomRun phases s) == 0.7 /\
  hasReached75Percent (zoomRun phases s) = false /\
  isPlaying (zoomRun phases s) = true.
Proof.
  revert s. induction phases as [|p phases IH]; intros s Hplay Hl Hs Hlt.
  - repeat split; assumption.
  - change (zoomRun (p :: phases) s) with (zoomRun phases (zoomSample s p)).
    destruct (zoomSample_state s p) as (Hp' & Hl' & Hs').
    assert (Hp270 : Qle_bool 270 p = false)
      by (apply Qle_bool_false, Hlt; left; reflexivity).
    rewrite Hplay, Hl, Hp270 in *. cbn in Hl', Hs'.
    apply IH; try assumption.
    + rewrite Hs'. reflexivity.
    + intros q Hq. apply Hlt. right. assumption.
Qed.

Lemma zoomScale_values :
  Spec.zoomScale 0 == 0.9 /\ Spec.zoomScale 90 == 0.7 /\
  Spec.zoomScale (360 - 270) == 0.7 /\ Spec.zoomScale (360 - 360) == 0.9.
Proof. repeat split; vm_compute; reflexivity. Qed.

(** C9, amended.  The scale is 1.0 only as the initial value of the
    cell; the zoom effect of the first commit, and of every commit while
    the component is not playing, sets it to 0.7.  After play starts and
    before the phase first reaches 270 degrees the scale stays at 0.7;
    once the latch is set, for a phase in [270,360] or [0,90] it is
    [0.7 + 0.2 * (1 - distanceFromTop / 90)], with the distance
    [360 - phase] or [phase] (0.9 at the top, 0.7 at 90 and at 270), and
    outside that arc it is 0.7. *)
Theorem zoom_scale :
  scaleEffect initial == 1 /\
  (forall v audio stored upgraded now,
      isPlaying (mount v audio stored upgraded now) = false /\
      scaleEffect (mount v audio stored upgraded now) == 0.7) /\
  (forall s : component,
      isPlaying s = false -> scaleEffect (zoomEffect s) == 0.7) /\
  (forall s : component,
      isPlaying s = true -> hasReached75Percent s = false ->
      scaleEffect (zoomEffect s) == 0.7) /\
  (forall s : component,
      isPlaying s = true -> hasReached75Percent s = true ->
      (270 <= dotPosition s ->
       scaleEffect (zoomEffect s) == Spec.zoomScale (360 - dotPosition s)) /\
      (dotPosition s <= 90 ->
       scaleEffect (zoomEffect s) == Spec.zoomScale (dotPosition s)) /\
      (90 < dotPosition s -> dotPosition s < 270 ->
       scaleEffect (zoomEffect s) == 0.7)) /\
  (Spec.zoomScale 0 == 0.9 /\ Spec.zoomScale 90 == 0.7 /\
   Spec.zoomScale (360 - 270) == 0.7 /\ Spec.zoomScale (360 - 360) == 0.9) /\
  (forall (phases : list Q) (s : component),
      isPlaying s = true -> hasReached75Percent s = false ->
      scaleEffect s == 0.7 ->
      (forall p, In p phases -> p < 270) ->
      scaleEffect (zoomRun phases s) == 0.7 /\
      hasReached75Percent (zoomRun phases s) = false) /\
  (forall (phases : list Q) (p : Q) (s : component),
      isPlaying s = true -> hasReached75Percent s = false ->
      scaleEffect s == 0.7 ->
      (forall q, In q phases -> q < 270) ->
      270 <= p ->
      hasReached75Percent (zoomRun (phases ++ [p]) s) = true /\
      scaleEffect (zoomRun (phases ++ [p]) s) == Spec.zoomScale (360 - p) /\
      scaleEffect (zoomSample (zoomRun (phases ++ [p]) s) 0) == 0.9).
Proof.
  split; [reflexivity|].
  split.
  { intros v audio stored upgraded now. destruct v; cbn [mount].
    - split; [reflexivity | vm_compute; reflexivity].
    - unfold sessionEffect.
      destruct (Z.ltb MAX_TRIAL_SESSION_COUNT _ && negb upgraded);
        (split; [reflexivity | vm_compute; reflexivity]). }
  split.
  { intros s Hp. rewrite zoomEffect_scale, Hp. reflexivity. }
  split.
  { intros s Hp Hl. rewrite zoomEffect_scale, Hp, Hl. reflexivity. }
  split.
  { intros s Hp Hl. rewrite zoomEffect_scale, Hp, Hl. cbn [andb].
    split; [|split].
    - intros H. apply Qle_bool_iff in H. rewrite H. reflexivity.
    - intros H.
      assert (H270 : Qle_bool 270 (dotPosition s) = false)
        by (apply Qle_bool_false; lra).
      apply Qle_bool_iff in H. rewrite H270, H. reflexivity.
    - intros H90 H270.
      apply Qle_bool_false in H90, H270. rewrite H90, H270. reflexivity. }
  split; [exact zoomScale_values|].
  split.
  { intros phases s Hp Hl Hs Hlt.
    destruct (@zoomRun_before_270 phases s Hp Hl Hs Hlt) as (H1 & H2 & _).
    split; assumption. }
  intros phases p s Hp Hl Hs Hlt H270.
  destruct (@zoomRun_before_270 phases s Hp Hl Hs Hlt) as (_ & H2 & H3).
  unfold zoomRun in *. rewrite fold_left_app. cbn [fold_left].
  set (s1 := fold_left zoomSample phases s) in *.
  destruct (zoomSample_state s1 p) as (Hp' & Hl' & Hs').
  apply Qle_bool_iff in H270. rewrite H3, H2, H270 in *. cbn in Hl', Hs'.
  split; [exact Hl'|]. split; [rewrite Hs'; reflexivity|].
  destruct (zoomSample_state (zoomSample s1 p) 0) as (_ & _ & Hs0).
  rewrite Hs0, Hp', Hl'. cbn. vm_compute. reflexivity.
Qed.

Lemma zoom_scale_witness :
  isPlaying (playing Circle 1000) = true /\
  hasReached75Percent (playing Circle 1000) = false /\
  scaleEffect (zoomRun [100; 200; 269] (playing Circle 1000)) == 0.7 /\
  hasReached75Percent (zoomRun ([100; 200] ++ [270]) (playing Circle 1000)) = true /\
  scaleEffect (zoomSample (zoomRun ([100; 200] ++ [270]) (playing Circle 1000)) 0) == 0.9.
Proof.
  assert (H1 : isPlaying (playing Circle 1000) = true) by reflexivity.
  assert (H2 : hasReached75Percent (playing Circle 1000) = false) by reflexivity.
  assert (H3 : scaleEffect (playing Circle 1000) == 0.7) by (vm_compute; reflexivity).
  split; [exact H1|]. split; [exact H2|].
  destruct zoom_scale as (_ & _ & _ & _ & _ & _ & Hbefore & Hafter).
  split.
  - apply (Hbefore [100; 200; 269] (playing Circle 1000) H1 H2 H3).
    intros p [<- | [<- | [<- | []]]]; vm_compute; reflexivity.
  - destruct (Hafter [100; 200] 270 (playing Circle 1000) H1 H2 H3) as (Hl & _ & H0).
    + intros p [<- | [<- | []]]; vm_compute; reflexivity.
    + vm_compute. discriminate.
    + split; [exact Hl | exact H0].
Defined.

End ZoomScale.

(** ** Runs of frames *)

Section FrameRuns.

Local Open Scope Q_scope.



Lemma Qfloor_unit (q : Q) : 0 <= q -> q < 1 -> Qfloor q = 0%Z.
Proof.
  intros H0 H1.
  pose proof (Qfloor_le q) as Hlo. pose proof (Qlt_floor q) as Hhi.
  rewrite inject_Z_plus in Hhi. change (inject_Z 1) with 1 in Hhi.
  assert (Ha : inject_Z (Qfloor q) < inject_Z 1) by (change (inject_Z 1) with 1; lra).
  assert (Hb : inject_Z (-1) < inject_Z (Qfloor q)) by (change (inject_Z (-1)) with (-1 # 1); lra).
  rewrite <- Zlt_Qlt in Ha, Hb. lia.
Qed.














Lemma trunc_nonpos (x : Q) : x <= 0 -> JS.trunc x = (- Qfloor (- x))%Z.
Proof.
  destruct x as [n d]. unfold Qle, JS.trunc, Qfloor, Qopp. simpl. intros H.
  replace n with (- - n)%Z at 1 by lia.
  rewrite Z.quot_opp_l by lia. rewrite Z.quot_div_nonneg by lia. reflexivity.
Qed.

(** On a negative dividend [%] is the negated remainder of the negated
    dividend. *)
Lemma rem_negative (a b : Q) : a <= 0 -> 0 < b -> JS.rem a b == - Spec.modulo (- a) b.
Proof.
  intros Ha Hb. unfold JS.rem, Spec.modulo.
  assert (Hq : a / b <= 0).
  { assert (0 <= (- a) / b) by (apply div_nonneg; lra).
    assert ((- a) / b == - (a / b)) by (field; lra). lra. }
  rewrite (trunc_nonpos Hq).
  assert (Hf : Qfloor (- (a / b)) = Qfloor (- a / b)).
  { apply Qfloor_comp. field. lra. }
  rewrite Hf, inject_Z_opp. ring.
Qed.

(** X3. A frame stamped before the anchor starts no click and leaves the
    anchor where it is, and [%] keeps the sign of the negative elapsed
    time: the dot is put at an angle in (-360, 0], which is
    [(t - L) / beatDuration * 360] when the frame is less than a beat
    early. *)
Theorem animate_before_anchor :
  forall (t L : Q) (s : component),
    isPlaying s = true ->
    lastBeatTimeRef s = Some L ->
    ~ L == 0 ->
    (0 < currentBpmRef s)%Z ->
    t < L ->
    let bd := 60000 / inject_Z (currentBpmRef s) in
    exists s',
      animate t s = Some s' /\
      clicks s' = clicks s /\
      lastBeatTimeRef s' = Some L /\
      - (360) < dotPosition s' /\ dotPosition s' <= 0 /\
      (L - t < bd -> dotPosition s' == (t - L) / bd * 360 /\ dotPosition s' < 0).
Proof.
  intros t L s Hplay Hlast Hnz Hbpm Hlt bd.
  destruct (beatDurationMs_pos Hbpm) as [_ Hbd]. fold bd in Hbd.
  rewrite (@animate_anchored t L s Hplay Hlast Hnz Hbpm). cbv zeta. fold bd.
  assert (E : Qle_bool bd (t - L) = false) by (apply Qle_bool_false; lra).
  rewrite E.
  eexists. split; [reflexivity|].
  split; [destruct (JS.truthy (startTimeRef s)); reflexivity|].
  split; [destruct (JS.truthy (startTimeRef s)); exact Hlast|].
  change (dotPosition (requestAnimationFrame (setDotPosition ?p ?x))) with p.
  assert (Hrem : JS.rem (t - L) bd == - Spec.modulo (- (t - L)) bd)
    by (apply rem_negative; lra).
  destruct (@modulo_bounds (- (t - L)) bd Hbd) as [Hlo Hhi].
  set (m := Spec.modulo (- (t - L)) bd) in *.
  assert (Hdot : JS.rem (t - L) bd / bd * 360 == - (m / bd) * 360).
  { rewrite Hrem. field. lra. }
  assert (H0 : 0 <= m / bd) by (apply div_nonneg; assumption).
  assert (H1 : m / bd < 1) by (apply Qlt_shift_div_r; [assumption | lra]).
  split; [lra|]. split; [lra|].
  intros Hnear.
  assert (Hm : m == - (t - L)).
  { subst m. unfold Spec.modulo.
    assert (Hf : Qfloor (- (t - L) / bd) = 0%Z).
    { apply Qfloor_unit; [apply div_nonneg; lra|].
      apply Qlt_shift_div_r; lra. }
    rewrite Hf. change (inject_Z 0) with 0. ring. }
  assert (Hd : JS.rem (t - L) bd / bd * 360 == (t - L) / bd * 360).
  { rewrite Hrem. fold m. rewrite Hm. field. lra. }
  split; [exact Hd|].
  rewrite Hd.
  assert (Hneg : 0 < (L - t) / bd) by (apply Qlt_shift_div_l; lra).
  assert (Hx : (t - L) / bd == - ((L - t) / bd)) by (field; lra).
  lra.
Qed.

Lemma animate_before_anchor_witness :
  exists s',
    animate 900 (playing Circle 1000) = Some s' /\
    clicks s' = 0%nat /\
    lastBeatTimeRef s' = Some 1000 /\
    dotPosition s' == - (42).
Proof.
  destruct (@animate_before_anchor 900 1000 (playing Circle 1000))
    as (s' & Ha & Hc & Hl & _ & _ & Hd).
  - reflexivity.
  - reflexivity.
  - unfold Qeq. cbn. discriminate.
  - reflexivity.
  - reflexivity.
  - exists s'. split; [exact Ha|]. split; [exact Hc|]. split; [exact Hl|].
    destruct Hd as [Hd _]; [reflexivity|].
    rewrite Hd. vm_compute. reflexivity.
Defined.

End FrameRuns.

(** ** Tempo controls, timers and tones *)

(** *** Projections that the clearing of timers leaves alone *)

Section Frame.

Variable A : Type.
Variable f : component -> A.
Hypothesis f_timers : forall ts (s : component), f (set_timers ts s) = f s.
Hypothesis f_nextHandle : forall n (s : component), f (set_nextHandle n s) = f s.
Hypothesis f_hold : forall g (s : component), f (with_hold g s) = f s.
Hypothesis f_tracking :
  forall r (s : component), f (set_timeTrackingIntervalRef r s) = f s.
Hypothesis f_tapTimeout : forall r (s : component), f (set_tapTimeoutRef r s) = f s.

Lemma frame_clearHandle r (s : component) : f (clearHandle r s) = f s.
Proof. destruct r as [[|h]|]; try reflexivity. apply f_timers. Qed.

Lemma frame_clearAll (l : list nat) (s : component) :
  f (fold_left (fun acc timeout => clearHandle (Some timeout) acc) l s) = f s.
Proof.
  revert s. induction l as [|h l IH]; intros s; [reflexivity|].
  cbn [fold_left]. rewrite IH. apply frame_clearHandle.
Qed.

Lemma frame_releaseInterval d (s : component) : f (releaseInterval d s) = f s.
Proof.
  unfold releaseInterval. destruct (JS.live (intervalRef d s)); [|reflexivity].
  unfold set_intervalRef. rewrite f_hold. apply frame_clearHandle.
Qed.

Lemma frame_releaseTimeouts d (s : component) : f (releaseTimeouts d s) = f s.
Proof.
  unfold releaseTimeouts, set_timeoutsRef. rewrite f_hold. apply frame_clearAll.
Qed.

Lemma frame_release p d (s : component) : f (release p d s) = f s.
Proof.
  destruct p; cbn [release]; unfold handleTouchEnd, handleMouseUp.
  - rewrite frame_releaseTimeouts, frame_releaseInterval. apply f_hold.
  - destruct (touchActiveRef d s); [reflexivity|].
    rewrite frame_releaseTimeouts. apply frame_releaseInterval.
Qed.

Lemma frame_cleanupAllIntervals v (s : component) : f (cleanupAllIntervals v s) = f s.
Proof.
  unfold cleanupAllIntervals.
  set (s2 := releaseTimeouts Decrease
               (releaseInterval Decrease
                  (releaseTimeouts Increase (releaseInterval Increase s)))).
  assert (H2 : f s2 = f s).
  { subst s2. rewrite !frame_releaseTimeouts, !frame_releaseInterval.
    rewrite ?frame_releaseTimeouts, ?frame_releaseInterval. reflexivity. }
  rewrite <- H2. clearbody s2. destruct v.
  - unfold set_touchActiveRef. rewrite !f_hold. reflexivity.
  - set (s3 := if JS.live (timeTrackingIntervalRef s2)
               then set_timeTrackingIntervalRef None
                      (clearHandle (timeTrackingIntervalRef s2) s2)
               else s2).
    assert (H3 : f s3 = f s2).
    { subst s3. destruct (JS.live (timeTrackingIntervalRef s2)); [|reflexivity].
      rewrite f_tracking. apply frame_clearHandle. }
    rewrite <- H3. clearbody s3.
    set (s4 := set_touchActiveRef Decrease false (set_touchActiveRef Increase false s3)).
    assert (H4 : f s4 = f s3) by (subst s4; unfold set_touchActiveRef; rewrite !f_hold; reflexivity).
    rewrite <- H4. clearbody s4.
    destruct (JS.live (tapTimeoutRef s4)); [|reflexivity].
    rewrite f_tapTimeout. apply frame_clearHandle.
Qed.

(** The timers a press adds and the cells it fills are no part of [f]. *)
Lemma frame_armHold d v now (s : component) :
  f (armHold d v now s) = f (debounced d v now (cleanupAllIntervals v s)).
Proof.
  unfold armHold, setInterval, setTimeout, addTimer.
  generalize (debounced d v now (cleanupAllIntervals v s)). intros s1.
  cbv zeta. unfold set_timeoutsRef, set_intervalRef.
  rewrite !f_hold, f_nextHandle, f_timers, f_hold, f_nextHandle, f_timers.
  reflexivity.
Qed.

Lemma frame_rearm t (s : component) : f (rearm t s) = f s.
Proof.
  unfold rearm. destruct (every t); [apply f_timers|].
  unfold clearTimer. apply f_timers.
Qed.

End Frame.

Ltac framed := intros; reflexivity.

Section TempoControls.

Local Open Scope Z_scope.

Lemma shell_cleanupAllIntervals v (s : component) :
  shell (cleanupAllIntervals v s) = shell s.
Proof. apply frame_cleanupAllIntervals; framed. Qed.

Lemma shell_clearHandle r (s : component) : shell (clearHandle r s) = shell s.
Proof. apply frame_clearHandle; framed. Qed.

Lemma shell_stepTempo d v (s : component) : shell (stepTempo d v s) = shell s.
Proof.
  destruct d; cbn [stepTempo]; unfold increaseTempo, decreaseTempo;
    match goal with |- context [if ?c then _ else _] => destruct c end; reflexivity.
Qed.

Lemma shell_debounced d v now (s : component) : shell (debounced d v now s) = shell s.
Proof.
  unfold debounced. destruct (Z.ltb _ _); [reflexivity|].
  rewrite shell_stepTempo. destruct d; reflexivity.
Qed.

Lemma shell_armHold d v now (s : component) : shell (armHold d v now s) = shell s.
Proof.
  rewrite (@frame_armHold _ shell) by framed.
  rewrite shell_debounced. apply shell_cleanupAllIntervals.
Qed.

Lemma shell_press p d v now (s : component) : shell (press p d v now s) = shell s.
Proof.
  destruct p; cbn [press]; unfold handleTouchStart, handleMouseDown;
    destruct (touchActiveRef d s); try reflexivity.
  - rewrite shell_armHold. destruct d; reflexivity.
  - apply shell_armHold.
Qed.

Lemma shell_release p d (s : component) : shell (release p d s) = shell s.
Proof. apply frame_release; framed. Qed.

Lemma shell_rearm t (s : component) : shell (rearm t s) = shell s.
Proof. apply frame_rearm; framed. Qed.

Lemma shell_firstAcceleration d (s : component) :
  shell (firstAcceleration d s) = shell s.
Proof.
  unfold firstAcceleration. destruct (JS.live (intervalRef d s)); [|reflexivity].
  transitivity (shell (clearHandle (intervalRef d s) s));
    [destruct d; reflexivity | apply shell_clearHandle].
Qed.

Lemma shell_secondAcceleration v d (s : component) :
  shell (secondAcceleration v d s) = shell s.
Proof.
  unfold secondAcceleration. destruct (JS.live (intervalRef d s)); [|reflexivity].
  transitivity (shell (clearHandle (intervalRef d s) s));
    [destruct v, d; reflexivity | apply shell_clearHandle].
Qed.

(** A timer of a hold session that fires leaves the shell alone. *)
Lemma shell_fire_hold v t (s : component) :
  holdDirection (action t) <> None -> shell (fire v t s) = shell s.
Proof.
  intros Hd. unfold fire.
  transitivity (shell (rearm t (set_clock (due t) s)));
    [|rewrite shell_rearm; reflexivity].
  generalize (rearm t (set_clock (due t) s)). intros s1.
  destruct (action t); cbn [runCallback]; cbn in Hd; try contradiction.
  - reflexivity.
  - apply shell_firstAcceleration.
  - apply shell_secondAcceleration.
Qed.

(** X4. Of two calls of a debounced step less than 100 ms apart at
    least one returns without effect, so the tempo is stepped, and
    [setBpm] called, at most once. *)
Theorem debounced_twice :
  forall (d : direction) (v : variant) (now1 now2 : Z) (s : component),
    now2 - now1 < DEBOUNCE_TIME ->
    let s1 := debounced d v now1 s in
    let s2 := debounced d v now2 s1 in
    (s2 = s1 \/ s1 = s) /\
    (length (bpmLog s2) <= S (length (bpmLog s)))%nat /\
    Z.abs (bpm s2 - bpm s) <= 1.
Proof.
  intros d v now1 now2 s Hnear s1 s2.
  assert (Hstep : forall x : component,
             (length (bpmLog (stepTempo d v x)) <= S (length (bpmLog x)))%nat /\
             Z.abs (bpm (stepTempo d v x) - bpm x) <= 1).
  { intros x. destruct d; cbn [stepTempo]; unfold increaseTempo, decreaseTempo, BPM_STEP;
      match goal with |- context [if ?c then _ else _] => destruct c end;
      cbn; split; lia. }
  assert (Hone : forall now (x : component),
             (length (bpmLog (debounced d v now x)) <= S (length (bpmLog x)))%nat /\
             Z.abs (bpm (debounced d v now x) - bpm x) <= 1).
  { intros now x. unfold debounced. destruct (Z.ltb _ _); [split; lia|].
    destruct (Hstep (set_lastTimeRef d now x)) as [H1 H2].
    split; [|exact H2].
    replace (bpmLog x) with (bpmLog (set_lastTimeRef d now x)) by (destruct d; reflexivity).
    exact H1. }
  assert (Hcases : s2 = s1 \/ s1 = s).
  { destruct (Z.ltb_spec (now1 - lastTimeRef d s) DEBOUNCE_TIME) as [Hb | Hp].
    - right. subst s1. unfold debounced.
      apply Z.ltb_lt in Hb. rewrite Hb. reflexivity.
    - left.
      assert (E1 : s1 = stepTempo d v (set_lastTimeRef d now1 s)).
      { subst s1. unfold debounced. apply Z.ltb_ge in Hp. rewrite Hp. reflexivity. }
      assert (Hl : lastTimeRef d s1 = now1).
      { rewrite E1. destruct d; cbn [stepTempo]; unfold increaseTempo, decreaseTempo;
          match goal with |- context [if ?c then _ else _] => destruct c end;
          reflexivity. }
      subst s2. unfold debounced. rewrite Hl.
      apply Z.ltb_lt in Hnear. rewrite Hnear. reflexivity. }
  split; [exact Hcases|].
  destruct Hcases as [E | E].
  - rewrite E. apply Hone.
  - subst s2. rewrite E. apply Hone.
Qed.

Lemma debounced_twice_witness :
  1050 - 1000 < DEBOUNCE_TIME /\
  bpm (debounced Increase Circle 1050 (debounced Increase Circle 1000 (fresh Circle))) = 71 /\
  (length (bpmLog (debounced Increase Circle 1050
                     (debounced Increase Circle 1000 (fresh Circle)))) <= 1)%nat.
Proof.
  split; [reflexivity|].
  split; [reflexivity|].
  exact (proj1 (proj2 (@debounced_twice Increase Circle 1000 1050 (fresh Circle)
                          eq_refl))).
Defined.

(** The cells of both controls after the cleanup. *)
Lemma cleanup_cells v d (s : component) :
  timeoutsRef d (cleanupAllIntervals v s) = [] /\
  JS.live (intervalRef d (cleanupAllIntervals v s)) = false /\
  touchActiveRef d (cleanupAllIntervals v s) = false.
Proof.
  unfold cleanupAllIntervals.
  destruct (release_spec Increase s) as (_ & _ & Ti & Li & _ & _).
  set (s1 := releaseTimeouts Increase (releaseInterval Increase s)) in *.
  destruct (release_spec Decrease s1) as (_ & _ & Td & Ld & Ho & _).
  set (s2 := releaseTimeouts Decrease (releaseInterval Decrease s1)) in *.
  assert (H2 : timeoutsRef d s2 = [] /\ JS.live (intervalRef d s2) = false).
  { destruct d.
    - destruct (Ho Increase) as [Hi Ht]; [discriminate|]. rewrite Hi, Ht. split; assumption.
    - split; assumption. }
  clearbody s2. destruct H2 as [T2 L2]. destruct v.
  - destruct d; repeat split; assumption.
  - set (s3 := if JS.live (timeTrackingIntervalRef s2)
               then set_timeTrackingIntervalRef None
                      (clearHandle (timeTrackingIntervalRef s2) s2)
               else s2).
    assert (H3 : hold s3 = hold s2).
    { subst s3. destruct (JS.live (timeTrackingIntervalRef s2)); [|reflexivity].
      cbn. apply hold_clearHandle. }
    set (s4 := set_touchActiveRef Decrease false (set_touchActiveRef Increase false s3)).
    assert (H4 : timeoutsRef d s4 = [] /\ JS.live (intervalRef d s4) = false /\
                 touchActiveRef d s4 = false).
    { subst s4. destruct d; cbn; rewrite H3; repeat split; assumption. }
    clearbody s4.
    destruct (JS.live (tapTimeoutRef s4)); [|exact H4].
    destruct H4 as (T4 & L4 & F4).
    destruct d; cbn; rewrite hold_clearHandle; repeat split; assumption.
Qed.

Lemma clock_debounced d v now (s : component) : clock (debounced d v now s) = clock s.
Proof.
  unfold debounced. destruct (Z.ltb _ _); [reflexivity|].
  destruct d; cbn [stepTempo]; unfold increaseTempo, decreaseTempo;
    match goal with |- context [if ?c then _ else _] => destruct c end; reflexivity.
Qed.

(** What a press leaves in the host and in the cells of its control:
    the table of the cleanup with the 500 ms interval and the 3000 ms
    timeout appended. *)
Lemma armHold_shape d v now (s : component) :
  let pressed := armHold d v now s in
  timers pressed =
    timers (cleanupAllIntervals v s)
    ++ [Build_timer (nextHandle s) (clock s + 500) (Some 500) (HoldRepeat d);
        Build_timer (S (nextHandle s)) (clock s + 3000) None (FirstAcceleration d)] /\
  nextHandle pressed = S (S (nextHandle s)) /\
  clock pressed = clock s /\
  intervalRef d pressed = Some (nextHandle s) /\
  timeoutsRef d pressed = [S (nextHandle s)].
Proof.
  cbv zeta.
  set (s1 := cleanupAllIntervals v s).
  destruct (debounced_cells d v now s1) as (Ht & Hn & _ & Hto & _).
  pose proof (clock_debounced d v now s1) as Hc.
  assert (Hn1 : nextHandle s1 = nextHandle s)
    by (subst s1; apply (@frame_cleanupAllIntervals _ nextHandle); framed).
  assert (Hc1 : clock s1 = clock s)
    by (subst s1; apply (@frame_cleanupAllIntervals _ clock); framed).
  destruct (cleanup_cells v d s) as (Hto1 & _ & _). fold s1 in Hto1.
  unfold armHold. fold s1.
  set (s2 := debounced d v now s1) in *.
  unfold setInterval, setTimeout, addTimer.
  rewrite <- Ht, <- Hn1, <- Hn, <- Hc1, <- Hc.
  split; [destruct d; cbn; rewrite <- app_assoc; reflexivity|].
  split; [destruct d; reflexivity|].
  split; [destruct d; reflexivity|].
  split; [destruct d; reflexivity|].
  specialize (Hto d). rewrite Hto1 in Hto.
  destruct d; cbn in *; rewrite Hto; reflexivity.
Qed.

Lemma stepTempo_slowing d (s : component) :
  isSlowingDown s = true -> stepTempo d Trial s = s.
Proof.
  intros H. destruct d; cbn [stepTempo]; unfold increaseTempo, decreaseTempo, manualAllowed;
    rewrite H; cbn [negb]; rewrite andb_false_r; reflexivity.
Qed.

(** The cleanup only removes timers; in part_001 the time tracking
    interval and the tap timeout are among those it removes. *)
Lemma In_cleanupAllIntervals v (s : component) t :
  In t (timers (cleanupAllIntervals v s)) ->
  In t (timers s) /\
  (v = Trial ->
   (JS.live (timeTrackingIntervalRef s) = true ->
    timeTrackingIntervalRef s <> Some (handle t)) /\
   (JS.live (tapTimeoutRef s) = true -> tapTimeoutRef s <> Some (handle t))).
Proof.
  unfold cleanupAllIntervals.
  destruct (release_spec Increase s) as (_ & _ & _ & _ & _ & Hin1).
  set (s1 := releaseTimeouts Increase (releaseInterval Increase s)) in *.
  destruct (release_spec Decrease s1) as (_ & _ & _ & _ & _ & Hin2).
  set (s2 := releaseTimeouts Decrease (releaseInterval Decrease s1)) in *.
  assert (Hsub : forall u, In u (timers s2) -> In u (timers s)).
  { intros u Hu. apply Hin1, Hin2, Hu. }
  assert (Htr : timeTrackingIntervalRef s2 = timeTrackingIntervalRef s).
  { subst s2 s1.
    rewrite (@frame_releaseTimeouts _ timeTrackingIntervalRef) by framed.
    rewrite (@frame_releaseInterval _ timeTrackingIntervalRef) by framed.
    rewrite (@frame_releaseTimeouts _ timeTrackingIntervalRef) by framed.
    apply (@frame_releaseInterval _ timeTrackingIntervalRef); framed. }
  assert (Htp : tapTimeoutRef s2 = tapTimeoutRef s).
  { subst s2 s1.
    rewrite (@frame_releaseTimeouts _ tapTimeoutRef) by framed.
    rewrite (@frame_releaseInterval _ tapTimeoutRef) by framed.
    rewrite (@frame_releaseTimeouts _ tapTimeoutRef) by framed.
    apply (@frame_releaseInterval _ tapTimeoutRef); framed. }
  clearbody s2. clear Hin1 Hin2 s1.
  destruct v.
  - intros Hin. split; [apply Hsub; exact Hin | discriminate].
  - set (s3 := if JS.live (timeTrackingIntervalRef s2)
               then set_timeTrackingIntervalRef None
                      (clearHandle (timeTrackingIntervalRef s2) s2)
               else s2).
    assert (H3 : forall u, In u (timers s3) ->
                   In u (timers s2) /\
                   (JS.live (timeTrackingIntervalRef s2) = true ->
                    timeTrackingIntervalRef s2 <> Some (handle u))).
    { intros u Hu. subst s3. destruct (JS.live (timeTrackingIntervalRef s2)) eqn:El.
      - change (In u (timers (clearHandle (timeTrackingIntervalRef s2) s2))) in Hu.
        apply In_clearHandle in Hu. destruct Hu as [Hu Hne].
        split; [exact Hu | intros _; exact (Hne El)].
      - split; [exact Hu | discriminate]. }
    assert (Htp3 : tapTimeoutRef s3 = tapTimeoutRef s2).
    { subst s3. destruct (JS.live (timeTrackingIntervalRef s2)); [|reflexivity].
      change (tapTimeoutRef (clearHandle (timeTrackingIntervalRef s2) s2) = tapTimeoutRef s2).
      apply (@frame_clearHandle _ tapTimeoutRef); framed. }
    clearbody s3.
    set (s4 := set_touchActiveRef Decrease false (set_touchActiveRef Increase false s3)).
    change (tapTimeoutRef s4) with (tapTimeoutRef s3).
    intros Hin.
    assert (Hin4 : In t (timers s3) /\
                   (JS.live (tapTimeoutRef s3) = true ->
                    tapTimeoutRef s3 <> Some (handle t))).
    { destruct (JS.live (tapTimeoutRef s3)) eqn:El.
      - change (In t (timers (clearHandle (tapTimeoutRef s3) s4))) in Hin.
        apply In_clearHandle in Hin. destruct Hin as [Hin Hne].
        split; [exact Hin | intros _; exact (Hne El)].
      - split; [exact Hin | discriminate]. }
    destruct Hin4 as [Hin3 Htap]. destruct (H3 t Hin3) as [Hin2 Htrack].
    split; [apply Hsub; exact Hin2|]. intros _.
    rewrite <- Htr, <- Htp, <- Htp3. split; assumption.
Qed.

Lemma In_collect (A : Type) (l : list (option (list A))) :
  forall ys y, collect l = Some ys -> In y ys -> exists xs, In (Some xs) l /\ In y xs.
Proof.
  induction l as [|o l IH]; intros ys y H Hy.
  - injection H as <-. contradiction.
  - cbn [collect] in H. destruct o as [xs|]; [|discriminate].
    destruct (collect l) as [zs|]; [|discriminate]. injection H as <-.
    apply in_app_or in Hy. destruct Hy as [Hy | Hy].
    + exists xs. split; [left; reflexivity | exact Hy].
    + destruct (IH zs y eq_refl Hy) as (xs' & Hin & Hy').
      exists xs'. split; [right; exact Hin | exact Hy'].
Qed.

Lemma In_dueNext (s : component) t : In t (dueNext s) -> In t (timers s).
Proof.
  unfold dueNext. destruct (earliestDue (timers s)); [|contradiction].
  intros H. apply filter_In in H. apply H.
Qed.

(** What holds of a state, survives the advance of the clock and the
    firing of any pending timer, holds of every outcome of a run of the
    host. *)
Lemma elapse_invariant (I : component -> Prop) (v : variant) :
  (forall (s : component) stop, I s -> I (set_clock stop s)) ->
  (forall (s : component) t, I s -> In t (timers s) -> I (fire v t s)) ->
  forall fuel stop (s : component) outcomes s',
    elapse v fuel stop s = Some outcomes -> I s -> In s' outcomes -> I s'.
Proof.
  intros Hclock Hfire. induction fuel as [|fuel IH]; intros stop s outcomes s' He Hs Hin.
  - discriminate.
  - cbn [elapse] in He. destruct (dueNext s) as [|t rest] eqn:Ed.
    + injection He as <-. destruct Hin as [<- | []]. apply Hclock, Hs.
    + destruct (Z.ltb stop (due t)).
      * injection He as <-. destruct Hin as [<- | []]. apply Hclock, Hs.
      * destruct (@In_collect _ _ _ _ He Hin) as (xs & Hxs & Hx).
        apply in_map_iff in Hxs. destruct Hxs as (u & Hu & Hdue).
        apply (IH stop (fire v u s) xs s' Hu); [|exact Hx].
        apply Hfire; [exact Hs|]. apply In_dueNext. rewrite Ed. exact Hdue.
Qed.

Lemma In_firstAcceleration d (s : component) u :
  In u (timers (firstAcceleration d s)) ->
  In u (timers s) \/ holdDirection (action u) = Some d.
Proof.
  unfold firstAcceleration. destruct (JS.live (intervalRef d s)); [|left; assumption].
  unfold setInterval, setTimeout, addTimer. intros H.
  assert (H' : In u ((timers (clearHandle (intervalRef d s) s)
                      ++ [Build_timer (nextHandle (clearHandle (intervalRef d s) s))
                            (clock (clearHandle (intervalRef d s) s) + 300)
                            (Some 300) (HoldRepeat d)])
                     ++ [Build_timer (S (nextHandle (clearHandle (intervalRef d s) s)))
                           (clock (clearHandle (intervalRef d s) s) + 2000) None
                           (SecondAcceleration d)]))
    by (destruct d; exact H).
  apply in_app_or in H'. destruct H' as [H' | [<- | []]]; [|right; reflexivity].
  apply in_app_or in H'. destruct H' as [H' | [<- | []]]; [|right; reflexivity].
  left. apply In_clearHandle in H'. apply H'.
Qed.

Lemma In_secondAcceleration v d (s : component) u :
  In u (timers (secondAcceleration v d s)) ->
  In u (timers s) \/ holdDirection (action u) = Some d.
Proof.
  unfold secondAcceleration. destruct (JS.live (intervalRef d s)); [|left; assumption].
  unfold setInterval, addTimer. intros H.
  assert (H' : In u (timers (clearHandle (intervalRef d s) s)
                     ++ [Build_timer (nextHandle (clearHandle (intervalRef d s) s))
                           (clock (clearHandle (intervalRef d s) s) + 200)
                           (Some 200) (HoldRepeat d)]))
    by (destruct v, d; exact H).
  apply in_app_or in H'. destruct H' as [H' | [<- | []]]; [|right; reflexivity].
  left. apply In_clearHandle in H'. apply H'.
Qed.

Lemma In_timeTrackingTick (s : component) u :
  In u (timers (timeTrackingTick s)) -> In u (timers s).
Proof.
  unfold timeTrackingTick. destruct (_ && _); [|trivial].
  set (s2 := setIsSlowingDown true (set_runningTimeRef (runningTimeRef s + 1) s)).
  destruct (JS.live (timeTrackingIntervalRef s2)); [|trivial].
  intros H. change (In u (timers (clearHandle (timeTrackingIntervalRef s2) s2))) in H.
  apply In_clearHandle in H. apply H.
Qed.

(** A timer that fires adds timers of hold sessions only. *)
Lemma In_fire v t (s : component) u :
  In u (timers (fire v t s)) ->
  (exists u0, In u0 (timers s) /\ handle u = handle u0 /\ action u = action u0) \/
  holdDirection (action u) <> None.
Proof.
  unfold fire. intros H.
  assert (Hr : In u (timers (rearm t (set_clock (due t) s))) \/
               holdDirection (action u) <> None).
  { revert H. generalize (rearm t (set_clock (due t) s)). intros x H.
    destruct (action t); cbn [runCallback] in H.
    - left. exact H.
    - apply In_firstAcceleration in H. destruct H as [H | H]; [left; exact H|].
      right. rewrite H. discriminate.
    - apply In_secondAcceleration in H. destruct H as [H | H]; [left; exact H|].
      right. rewrite H. discriminate.
    - left. apply In_timeTrackingTick. exact H.
    - left. exact H. }
  destruct Hr as [Hr | Hr]; [left | right; exact Hr].
  apply rearm_sub in Hr. exact Hr.
Qed.

Lemma slowdown_fire v t (s : component) :
  action t <> TimeTracking ->
  slowdown (fire v t s) = slowdown s /\ isSlowingDown (fire v t s) = isSlowingDown s.
Proof.
  intros Hne. unfold fire.
  set (x := rearm t (set_clock (due t) s)).
  assert (Hx : slowdown x = slowdown s /\ isSlowingDown x = isSlowingDown s).
  { subst x. split.
    - rewrite (@frame_rearm _ slowdown) by framed. reflexivity.
    - rewrite (@frame_rearm _ (fun y : component => isSlowingDown y)) by framed.
      reflexivity. }
  destruct Hx as [<- <-]. clearbody x.
  destruct (action t); cbn [runCallback]; try contradiction.
  - split; reflexivity.
  - unfold firstAcceleration. destruct (JS.live (intervalRef d x)); [|split; reflexivity].
    split.
    + transitivity (slowdown (clearHandle (intervalRef d x) x));
        [destruct d; reflexivity | apply (@frame_clearHandle _ slowdown); framed].
    + transitivity (isSlowingDown (clearHandle (intervalRef d x) x));
        [destruct d; reflexivity|].
      apply (@frame_clearHandle _ (fun y : component => isSlowingDown y)); framed.
  - unfold secondAcceleration. destruct (JS.live (intervalRef d x)); [|split; reflexivity].
    split.
    + transitivity (slowdown (clearHandle (intervalRef d x) x));
        [destruct v, d; reflexivity | apply (@frame_clearHandle _ slowdown); framed].
    + transitivity (isSlowingDown (clearHandle (intervalRef d x) x));
        [destruct v, d; reflexivity|].
      apply (@frame_clearHandle _ (fun y : component => isSlowingDown y)); framed.
  - split; reflexivity.
Qed.

Lemma tap_fire v t (s : component) :
  action t <> TapSessionEnd -> tap (fire v t s) = tap s.
Proof.
  intros Hne. unfold fire.
  set (x := rearm t (set_clock (due t) s)).
  assert (Hx : tap x = tap s)
    by (subst x; rewrite (@frame_rearm _ tap) by framed; reflexivity).
  rewrite <- Hx. clearbody x.
  destruct (action t); cbn [runCallback]; try contradiction.
  - reflexivity.
  - unfold firstAcceleration. destruct (JS.live (intervalRef d x)); [|reflexivity].
    transitivity (tap (clearHandle (intervalRef d x) x));
      [destruct d; reflexivity | apply (@frame_clearHandle _ tap); framed].
  - unfold secondAcceleration. destruct (JS.live (intervalRef d x)); [|reflexivity].
    transitivity (tap (clearHandle (intervalRef d x) x));
      [destruct v, d; reflexivity | apply (@frame_clearHandle _ tap); framed].
  - unfold timeTrackingTick. destruct (_ && _); [|reflexivity].
    set (x2 := setIsSlowingDown true (set_runningTimeRef (runningTimeRef x + 1) x)).
    destruct (JS.live (timeTrackingIntervalRef x2)); [|reflexivity].
    transitivity (tap (clearHandle (timeTrackingIntervalRef x2) x2)); [reflexivity|].
    rewrite (@frame_clearHandle _ tap) by framed. reflexivity.
Qed.

Lemma slowdown_debounced d v now (s : component) :
  slowdown (debounced d v now s) = slowdown s /\ tap (debounced d v now s) = tap s /\
  isSlowingDown (debounced d v now s) = isSlowingDown s.
Proof.
  unfold debounced. destruct (Z.ltb _ _); [repeat split|].
  destruct d; cbn [stepTempo]; unfold increaseTempo, decreaseTempo;
    match goal with |- context [if ?c then _ else _] => destruct c end;
    repeat split.
Qed.

(** A press, for either pointer, is [armHold] on a state that differs
    from the pressed one in the touch flag of the control at most. *)
Lemma press_armHold p d v now (s : component) :
  touchActiveRef d s = false ->
  exists s0 : component,
    press p d v now s = armHold d v now s0 /\
    tempo s0 = tempo s /\ slowdown s0 = slowdown s /\ tap s0 = tap s /\
    env s0 = env s /\
    (forall d', lastTimeRef d' s0 = lastTimeRef d' s).
Proof.
  intros Hflag. destruct p; cbn [press]; unfold handleTouchStart, handleMouseDown;
    rewrite Hflag.
  - exists (set_touchActiveRef d true s).
    split; [reflexivity|]. destruct d; repeat split; intros d'; destruct d'; reflexivity.
  - exists s. repeat split.
Qed.

Lemma lastTimeRef_cleanupAllIntervals v d (s : component) :
  lastTimeRef d (cleanupAllIntervals v s) = lastTimeRef d s.
Proof.
  assert (Hri : forall d' (x : component),
             lastTimeRef d (releaseInterval d' x) = lastTimeRef d x).
  { intros d' x. unfold releaseInterval. destruct (JS.live (intervalRef d' x)); [|reflexivity].
    transitivity (lastTimeRef d (clearHandle (intervalRef d' x) x));
      [destruct d, d'; reflexivity|].
    unfold lastTimeRef. rewrite hold_clearHandle. reflexivity. }
  assert (Hrt : forall d' (x : component),
             lastTimeRef d (releaseTimeouts d' x) = lastTimeRef d x).
  { intros d' x. unfold releaseTimeouts.
    transitivity (lastTimeRef d (fold_left (fun acc timeout => clearHandle (Some timeout) acc)
                                   (timeoutsRef d' x) x));
      [destruct d, d'; reflexivity|].
    unfold lastTimeRef. rewrite hold_clearAll. reflexivity. }
  unfold cleanupAllIntervals.
  set (s2 := releaseTimeouts Decrease
               (releaseInterval Decrease
                  (releaseTimeouts Increase (releaseInterval Increase s)))).
  assert (H2 : lastTimeRef d s2 = lastTimeRef d s)
    by (subst s2; rewrite Hrt, Hri, Hrt, Hri; reflexivity).
  rewrite <- H2. clearbody s2. destruct v; [destruct d; reflexivity|].
  set (s3 := if JS.live (timeTrackingIntervalRef s2)
             then set_timeTrackingIntervalRef None
                    (clearHandle (timeTrackingIntervalRef s2) s2)
             else s2).
  assert (H3 : hold s3 = hold s2).
  { subst s3. destruct (JS.live (timeTrackingIntervalRef s2)); [|reflexivity].
    cbn. apply hold_clearHandle. }
  assert (H3' : lastTimeRef d s3 = lastTimeRef d s2)
    by (unfold lastTimeRef; rewrite H3; reflexivity).
  rewrite <- H3'. clearbody s3.
  set (s4 := set_touchActiveRef Decrease false (set_touchActiveRef Increase false s3)).
  assert (H4 : lastTimeRef d s4 = lastTimeRef d s3) by (destruct d; reflexivity).
  rewrite <- H4. clearbody s4.
  destruct (JS.live (tapTimeoutRef s4)); [|reflexivity].
  transitivity (lastTimeRef d (clearHandle (tapTimeoutRef s4) s4));
    [destruct d; reflexivity|].
  unfold lastTimeRef. rewrite hold_clearHandle. reflexivity.
Qed.

Lemma cleanup_trial_refs (s : component) :
  JS.live (timeTrackingIntervalRef (cleanupAllIntervals Trial s)) = false /\
  JS.live (tapTimeoutRef (cleanupAllIntervals Trial s)) = false.
Proof.
  unfold cleanupAllIntervals.
  set (s2 := releaseTimeouts Decrease
               (releaseInterval Decrease
                  (releaseTimeouts Increase (releaseInterval Increase s)))).
  clearbody s2.
  set (s3 := if JS.live (timeTrackingIntervalRef s2)
             then set_timeTrackingIntervalRef None
                    (clearHandle (timeTrackingIntervalRef s2) s2)
             else s2).
  assert (H3 : JS.live (timeTrackingIntervalRef s3) = false)
    by (subst s3; destruct (JS.live (timeTrackingIntervalRef s2)) eqn:E;
        [reflexivity | exact E]).
  clearbody s3.
  set (s4 := set_touchActiveRef Decrease false (set_touchActiveRef Increase false s3)).
  assert (H4 : JS.live (timeTrackingIntervalRef s4) = false) by exact H3.
  clearbody s4. clear H3.
  destruct (JS.live (tapTimeoutRef s4)) eqn:E; [|split; assumption].
  split; [|reflexivity].
  transitivity (JS.live (timeTrackingIntervalRef (clearHandle (tapTimeoutRef s4) s4)));
    [reflexivity|].
  rewrite (@frame_clearHandle _ (fun y : component => timeTrackingIntervalRef y))
    by framed.
  exact H4.
Qed.

(** The debounced step reads the tempo, the debounce cell, the clock and
    the log, and writes the tempo and the log. *)
Lemma debounced_agree d v now (x y : component) :
  tempo x = tempo y -> lastTimeRef d x = lastTimeRef d y ->
  clock x = clock y -> bpmLog x = bpmLog y ->
  tempo (debounced d v now x) = tempo (debounced d v now y) /\
  bpmLog (debounced d v now x) = bpmLog (debounced d v now y).
Proof.
  intros Ht Hl Hc Hb. unfold debounced. rewrite Hl.
  destruct (Z.ltb (now - lastTimeRef d y) DEBOUNCE_TIME); [split; assumption|].
  assert (Hx : tempo (set_lastTimeRef d now x) = tempo (set_lastTimeRef d now y) /\
               clock (set_lastTimeRef d now x) = clock (set_lastTimeRef d now y) /\
               bpmLog (set_lastTimeRef d now x) = bpmLog (set_lastTimeRef d now y))
    by (destruct d; repeat split; assumption).
  revert Hx. generalize (set_lastTimeRef d now x) (set_lastTimeRef d now y).
  intros x' y' (Ht' & Hc' & Hb').
  destruct d; cbn [stepTempo]; unfold increaseTempo, decreaseTempo, manualAllowed;
    rewrite Ht';
    match goal with |- context [if ?c then _ else _] => destruct c end;
    try (split; assumption);
    unfold setBpmWith, setBpm; cbn; rewrite Ht', Hc', Hb'; split; reflexivity.
Qed.

(** What a press in part_001 leaves of the state [s] it is made in: the
    tempo and the log of the debounced step on [s]; the clock, the running
    time and the tap state of [s]; no handle in the cells of the time
    tracking interval and of the tap timeout; in the table the timers of
    the press and those timers of [s] that neither of the two cells held. *)
Lemma press_trial p d now (s : component) :
  touchActiveRef d s = false ->
  let pressed := press p d Trial now s in
  tempo pressed = tempo (debounced d Trial now s) /\
  bpmLog pressed = bpmLog (debounced d Trial now s) /\
  clock pressed = clock s /\
  runningTimeRef pressed = runningTimeRef s /\
  showTapButton pressed = showTapButton s /\
  tapTimes pressed = tapTimes s /\
  JS.live (timeTrackingIntervalRef pressed) = false /\
  JS.live (tapTimeoutRef pressed) = false /\
  In (Build_timer (nextHandle s) (clock s + 500) (Some 500) (HoldRepeat d))
     (timers pressed) /\
  (forall t, In t (timers pressed) ->
     holdDirection (action t) = Some d \/
     (In t (timers s) /\
      (JS.live (timeTrackingIntervalRef s) = true ->
       timeTrackingIntervalRef s <> Some (handle t)) /\
      (JS.live (tapTimeoutRef s) = true -> tapTimeoutRef s <> Some (handle t)))).
Proof.
  intros Hflag. cbv zeta.
  destruct (@press_armHold p d Trial now s Hflag) as (s0 & -> & T0 & S0 & P0 & E0 & L0).
  destruct (armHold_shape d Trial now s0) as (Hsh & _ & Hck & _ & _).
  destruct (cleanup_trial_refs s0) as [Htr Htp].
  pose proof (fun t => @In_cleanupAllIntervals Trial s0 t) as Hin.
  pose proof (lastTimeRef_cleanupAllIntervals Trial d s0) as Hlast.
  assert (H1 : tempo (cleanupAllIntervals Trial s0) = tempo s0)
    by (apply (@frame_cleanupAllIntervals _ tempo); framed).
  assert (H2 : clock (cleanupAllIntervals Trial s0) = clock s0)
    by (apply (@frame_cleanupAllIntervals _ clock); framed).
  assert (H3 : bpmLog (cleanupAllIntervals Trial s0) = bpmLog s0)
    by (apply (@frame_cleanupAllIntervals _ bpmLog); framed).
  assert (H4 : runningTimeRef (cleanupAllIntervals Trial s0) = runningTimeRef s0)
    by (apply (@frame_cleanupAllIntervals _ (fun y : component => runningTimeRef y));
        framed).
  assert (H5 : showTapButton (cleanupAllIntervals Trial s0) = showTapButton s0)
    by (apply (@frame_cleanupAllIntervals _ (fun y : component => showTapButton y));
        framed).
  assert (H6 : tapTimes (cleanupAllIntervals Trial s0) = tapTimes s0)
    by (apply (@frame_cleanupAllIntervals _ (fun y : component => tapTimes y)); framed).
  assert (F1 : tempo (armHold d Trial now s0)
               = tempo (debounced d Trial now (cleanupAllIntervals Trial s0)))
    by (apply (@frame_armHold _ tempo); framed).
  assert (F2 : bpmLog (armHold d Trial now s0)
               = bpmLog (debounced d Trial now (cleanupAllIntervals Trial s0)))
    by (apply (@frame_armHold _ bpmLog); framed).
  assert (F3 : slowdown (armHold d Trial now s0)
               = slowdown (debounced d Trial now (cleanupAllIntervals Trial s0)))
    by (apply (@frame_armHold _ slowdown); framed).
  assert (F4 : tap (armHold d Trial now s0)
               = tap (debounced d Trial now (cleanupAllIntervals Trial s0)))
    by (apply (@frame_armHold _ tap); framed).
  revert Hsh Hck Htr Htp Hin Hlast H1 H2 H3 H4 H5 H6 F1 F2 F3 F4.
  generalize (cleanupAllIntervals Trial s0). intros s1.
  generalize (armHold d Trial now s0). intros pressed.
  intros Hsh Hck Htr Htp Hin Hlast H1 H2 H3 H4 H5 H6 F1 F2 F3 F4.
  destruct (slowdown_debounced d Trial now s1) as (D1 & D2 & _).
  rewrite D1 in F3. rewrite D2 in F4.
  assert (Es : clock s0 = clock s /\ bpmLog s0 = bpmLog s /\ timers s0 = timers s /\
               nextHandle s0 = nextHandle s).
  { unfold clock, bpmLog, timers, nextHandle. rewrite E0. repeat split. }
  destruct Es as (Ec & Eb & Et & En).
  assert (A : tempo (debounced d Trial now s1) = tempo (debounced d Trial now s) /\
              bpmLog (debounced d Trial now s1) = bpmLog (debounced d Trial now s)).
  { apply debounced_agree.
    - congruence.
    - rewrite Hlast. apply L0.
    - congruence.
    - congruence. }
  destruct A as [A1 A2].
  split; [congruence|]. split; [congruence|]. split; [congruence|].
  split; [unfold runningTimeRef in *; rewrite F3, H4, S0; reflexivity|].
  split; [unfold showTapButton in *; rewrite F4, H5, P0; reflexivity|].
  split; [unfold tapTimes in *; rewrite F4, H6, P0; reflexivity|].
  split; [unfold timeTrackingIntervalRef in *; rewrite F3; exact Htr|].
  split; [unfold tapTimeoutRef in *; rewrite F4; exact Htp|].
  rewrite En, Ec in Hsh.
  split; [rewrite Hsh; apply in_or_app; right; left; reflexivity|].
  intros t Ht. rewrite Hsh in Ht. apply in_app_or in Ht.
  destruct Ht as [Ht | [<- | [<- | []]]]; [|left; reflexivity | left; reflexivity].
  right. destruct (Hin t Ht) as [Hold Hne]. destruct (Hne eq_refl) as [Hn1 Hn2].
  rewrite Et in Hold. unfold timeTrackingIntervalRef, tapTimeoutRef in *.
  rewrite S0 in Hn1. rewrite P0 in Hn2. repeat split; assumption.
Qed.

(** X5. The guard on the slowdown of part_001 covers the single step of
    a press, not the repeats: pressed while [isSlowingDown] holds, a
    control leaves the tempo alone, but the 500 ms interval it arms steps
    the tempo when it fires, the slowdown still being on. *)
Theorem hold_repeat_during_slowdown :
  forall (p : pointer) (d : direction) (now : Z) (s : component),
    isSlowingDown s = true ->
    touchActiveRef d s = false ->
    let pressed := press p d Trial now s in
    let t := Build_timer (nextHandle s) (clock s + 500) (Some 500) (HoldRepeat d) in
    bpm pressed = bpm s /\
    bpmLog pressed = bpmLog s /\
    In t (timers pressed) /\
    bpm (fire Trial t pressed) = holdStep d (bpm s) /\
    bpmLog (fire Trial t pressed) = (clock s + 500, holdStep d (bpm s)) :: bpmLog s /\
    isSlowingDown (fire Trial t pressed) = true.
Proof.
  intros p d now s Hslow Hflag pressed t.
  destruct (@press_trial p d now s Hflag) as (Tp & Bp & Cp & _ & _ & _ & _ & _ & Hin & _).
  fold pressed in Tp, Bp, Cp, Hin. clearbody pressed.
  assert (E2 : tempo (debounced d Trial now s) = tempo s /\
               bpmLog (debounced d Trial now s) = bpmLog s).
  { unfold debounced. destruct (Z.ltb (now - lastTimeRef d s) DEBOUNCE_TIME);
      [split; reflexivity|].
    rewrite stepTempo_slowing by (destruct d; exact Hslow).
    destruct d; split; reflexivity. }
  destruct E2 as [T2 B2]. rewrite T2 in Tp. rewrite B2 in Bp.
  split; [rewrite Tp; reflexivity|].
  split; [exact Bp|].
  split; [exact Hin|].
  unfold fire. change (action t) with (HoldRepeat d).
  change (due t) with (clock s + 500). cbn [runCallback].
  assert (Tx : tempo (rearm t (set_clock (clock s + 500) pressed)) = tempo s)
    by (rewrite (@frame_rearm _ tempo) by framed; exact Tp).
  assert (Bx : bpmLog (rearm t (set_clock (clock s + 500) pressed)) = bpmLog s)
    by (rewrite (@frame_rearm _ bpmLog) by framed; exact Bp).
  assert (Cx : clock (rearm t (set_clock (clock s + 500) pressed)) = clock s + 500)
    by (rewrite (@frame_rearm _ clock) by framed; reflexivity).
  revert Tx Bx Cx. generalize (rearm t (set_clock (clock s + 500) pressed)).
  intros x Tx Bx Cx.
  change (bpm (setBpmWith (holdStep d) x)) with (holdStep d (bpm x)).
  change (bpmLog (setBpmWith (holdStep d) x))
    with ((clock x, holdStep d (bpm x)) :: bpmLog x).
  change (isSlowingDown (setBpmWith (holdStep d) x)) with (isSlowingDown x).
  rewrite Tx, Bx, Cx.
  repeat split. exact Hslow.
Qed.

Lemma hold_repeat_during_slowdown_witness :
  isSlowingDown slowing100 = true /\
  bpm (press Mouse Decrease Trial 1700000000000 slowing100) = 100 /\
  bpm (fire Trial (Build_timer (nextHandle slowing100) (clock slowing100 + 500)
                     (Some 500) (HoldRepeat Decrease))
         (press Mouse Decrease Trial 1700000000000 slowing100)) = 99.
Proof.
  assert (Hslow : isSlowingDown slowing100 = true) by (vm_compute; reflexivity).
  assert (Hflag : touchActiveRef Decrease slowing100 = false) by (vm_compute; reflexivity).
  destruct (@hold_repeat_during_slowdown Mouse Decrease 1700000000000 slowing100
              Hslow Hflag) as (Hb & _ & _ & Hf & _ & _).
  split; [exact Hslow|]. split.
  - rewrite Hb. vm_compute. reflexivity.
  - rewrite Hf. vm_compute. reflexivity.
Defined.

(** X6. In part_001 a press of either tempo control cancels the time
    tracking interval with the other timers: no time tracking timer is
    left, and however long the host then runs with no other event, the
    running time stays where it was and the slowdown does not start. *)
Theorem press_cancels_time_tracking :
  forall (p : pointer) (d : direction) (now : Z) (s : component),
    touchActiveRef d s = false ->
    (forall t, In t (timers s) -> action t = TimeTracking ->
               handle t <> 0%nat /\ timeTrackingIntervalRef s = Some (handle t)) ->
    let pressed := press p d Trial now s in
    JS.live (timeTrackingIntervalRef pressed) = false /\
    (forall t, In t (timers pressed) -> action t <> TimeTracking) /\
    (forall fuel stop outcomes s',
        elapse Trial fuel stop pressed = Some outcomes -> In s' outcomes ->
        isSlowingDown s' = isSlowingDown s /\ runningTimeRef s' = runningTimeRef s).
Proof.
  intros p d now s Hflag Hwired pressed.
  destruct (@press_trial p d now s Hflag)
    as (Tp & _ & _ & Rp & _ & _ & Lp & _ & _ & Htab).
  fold pressed in Tp, Rp, Lp, Htab. clearbody pressed.
  assert (Ip : isSlowingDown pressed = isSlowingDown s).
  { rewrite Tp. apply slowdown_debounced. }
  assert (Hquiet : forall t, In t (timers pressed) -> action t <> TimeTracking).
  { intros t Hin Ha. destruct (Htab t Hin) as [Hh | (Hold & Hne & _)].
    - rewrite Ha in Hh. discriminate.
    - destruct (Hwired t Hold Ha) as [Hnz Href].
      apply Hne; [|exact Href]. rewrite Href.
      destruct (handle t); [contradiction | reflexivity]. }
  split; [exact Lp|]. split; [exact Hquiet|].
  intros fuel stop outcomes s' He Hin.
  assert (HI : (forall t, In t (timers s') -> action t <> TimeTracking) /\
               slowdown s' = slowdown pressed /\
               isSlowingDown s' = isSlowingDown pressed).
  { apply (@elapse_invariant
             (fun x : component =>
                (forall t, In t (timers x) -> action t <> TimeTracking) /\
                slowdown x = slowdown pressed /\
                isSlowingDown x = isSlowingDown pressed) Trial)
      with (fuel := fuel) (stop := stop) (s := pressed) (outcomes := outcomes).
    - intros x u (Q & S & Sl). repeat split; assumption.
    - intros x t (Q & S & Sl) Hint.
      destruct (@slowdown_fire Trial t x (Q t Hint)) as [S' Sl'].
      split; [|split; congruence].
      intros u Hu Ha. apply In_fire in Hu. destruct Hu as [(u0 & Hu0 & _ & Hact) | Hh].
      + apply (Q u0 Hu0). congruence.
      + apply Hh. rewrite Ha. reflexivity.
    - exact He.
    - repeat split. exact Hquiet.
    - exact Hin. }
  destruct HI as (_ & S & Sl).
  split; [congruence|].
  unfold runningTimeRef in *. rewrite S. exact Rp.
Qed.

Lemma press_cancels_time_tracking_witness :
  let s := playEffect Trial 1000 (togglePlay Trial expiredTrial) in
  let pressed := press Mouse Increase Trial 1700000000000 s in
  map action (timers s) = [TimeTracking] /\
  map action (timers pressed) = [HoldRepeat Increase; FirstAcceleration Increase] /\
  exists outcomes,
    elapse Trial 100 12000 pressed = Some outcomes /\
    outcomes <> [] /\
    forall s', In s' outcomes -> isSlowingDown s' = false /\ runningTimeRef s' = 0.
Proof.
  intros s pressed.
  split; [vm_compute; reflexivity|]. split; [vm_compute; reflexivity|].
  assert (Hflag : touchActiveRef Increase s = false) by (vm_compute; reflexivity).
  assert (Hb : forallb (fun t => match action t, timeTrackingIntervalRef s with
                                 | TimeTracking, Some (S h) => Nat.eqb (handle t) (S h)
                                 | TimeTracking, _ => false
                                 | _, _ => true
                                 end) (timers s) = true) by (vm_compute; reflexivity).
  assert (Hw : forall t, In t (timers s) -> action t = TimeTracking ->
                         handle t <> 0%nat /\ timeTrackingIntervalRef s = Some (handle t)).
  { intros t Hin Ha. rewrite forallb_forall in Hb. specialize (Hb t Hin).
    rewrite Ha in Hb. destruct (timeTrackingIntervalRef s) as [[|h]|]; try discriminate Hb.
    apply Nat.eqb_eq in Hb. rewrite Hb. split; [discriminate | reflexivity]. }
  destruct (@press_cancels_time_tracking Mouse Increase 1700000000000 s Hflag Hw)
    as (_ & _ & Hrun).
  assert (Hs : isSlowingDown s = false /\ runningTimeRef s = 0)
    by (split; vm_compute; reflexivity).
  destruct Hs as [Hs1 Hs2]. rewrite Hs1, Hs2 in Hrun.
  assert (E : exists outcomes,
             elapse Trial 100 12000 pressed = Some outcomes /\ outcomes <> []).
  { eexists. split; [vm_compute; reflexivity | discriminate]. }
  destruct E as (outcomes & E & Hne).
  exists outcomes. split; [exact E|]. split; [exact Hne|].
  intros s' Hin. exact (Hrun 100%nat 12000 outcomes s' E Hin).
Defined.

(** X7. The same press cancels the timeout that ends a tap session:
    none is left, and however long the host then runs with no other
    event, the tap button stays as it was and the window keeps its
    timestamps. *)
Theorem press_cancels_tap_timeout :
  forall (p : pointer) (d : direction) (now : Z) (s : component),
    touchActiveRef d s = false ->
    (forall t, In t (timers s) -> action t = TapSessionEnd ->
               handle t <> 0%nat /\ tapTimeoutRef s = Some (handle t)) ->
    let pressed := press p d Trial now s in
    JS.live (tapTimeoutRef pressed) = false /\
    (forall t, In t (timers pressed) -> action t <> TapSessionEnd) /\
    (forall fuel stop outcomes s',
        elapse Trial fuel stop pressed = Some outcomes -> In s' outcomes ->
        showTapButton s' = showTapButton s /\ tapTimes s' = tapTimes s).
Proof.
  intros p d now s Hflag Hwired pressed.
  destruct (@press_trial p d now s Hflag)
    as (_ & _ & _ & _ & Bp & Wp & _ & Lp & _ & Htab).
  fold pressed in Bp, Wp, Lp, Htab. clearbody pressed.
  assert (Hquiet : forall t, In t (timers pressed) -> action t <> TapSessionEnd).
  { intros t Hin Ha. destruct (Htab t Hin) as [Hh | (Hold & _ & Hne)].
    - rewrite Ha in Hh. discriminate.
    - destruct (Hwired t Hold Ha) as [Hnz Href].
      apply Hne; [|exact Href]. rewrite Href.
      destruct (handle t); [contradiction | reflexivity]. }
  split; [exact Lp|]. split; [exact Hquiet|].
  intros fuel stop outcomes s' He Hin.
  assert (HI : (forall t, In t (timers s') -> action t <> TapSessionEnd) /\
               tap s' = tap pressed).
  { apply (@elapse_invariant
             (fun x : component =>
                (forall t, In t (timers x) -> action t <> TapSessionEnd) /\
                tap x = tap pressed) Trial)
      with (fuel := fuel) (stop := stop) (s := pressed) (outcomes := outcomes).
    - intros x u (Q & S). split; assumption.
    - intros x t (Q & S) Hint.
      split; [|rewrite (@tap_fire Trial t x (Q t Hint)); exact S].
      intros u Hu Ha. apply In_fire in Hu. destruct Hu as [(u0 & Hu0 & _ & Hact) | Hh].
      + apply (Q u0 Hu0). congruence.
      + apply Hh. rewrite Ha. reflexivity.
    - exact He.
    - split; [exact Hquiet | reflexivity].
    - exact Hin. }
  destruct HI as (_ & S).
  unfold showTapButton, tapTimes in *. rewrite S. split; assumption.
Qed.

Lemma press_cancels_tap_timeout_witness :
  let s := taps [0; 500] (startTapMode (fresh Trial)) in
  let pressed := press Mouse Increase Trial 1700000000000 s in
  map action (timers s) = [TapSessionEnd] /\
  showTapButton s = true /\
  exists outcomes,
    elapse Trial 100 8000 pressed = Some outcomes /\
    outcomes <> [] /\
    forall s', In s' outcomes -> showTapButton s' = true /\ tapTimes s' = [0; 500].
Proof.
  intros s pressed.
  split; [vm_compute; reflexivity|]. split; [vm_compute; reflexivity|].
  assert (Hflag : touchActiveRef Increase s = false) by (vm_compute; reflexivity).
  assert (Hb : forallb (fun t => match action t, tapTimeoutRef s with
                                 | TapSessionEnd, Some (S h) => Nat.eqb (handle t) (S h)
                                 | TapSessionEnd, _ => false
                                 | _, _ => true
                                 end) (timers s) = true) by (vm_compute; reflexivity).
  assert (Hw : forall t, In t (timers s) -> action t = TapSessionEnd ->
                         handle t <> 0%nat /\ tapTimeoutRef s = Some (handle t)).
  { intros t Hin Ha. rewrite forallb_forall in Hb. specialize (Hb t Hin).
    rewrite Ha in Hb. destruct (tapTimeoutRef s) as [[|h]|]; try discriminate Hb.
    apply Nat.eqb_eq in Hb. rewrite Hb. split; [discriminate | reflexivity]. }
  destruct (@press_cancels_tap_timeout Mouse Increase 1700000000000 s Hflag Hw)
    as (_ & _ & Hrun).
  assert (Hs : showTapButton s = true /\ tapTimes s = [0; 500])
    by (split; vm_compute; reflexivity).
  destruct Hs as [Hs1 Hs2]. rewrite Hs1, Hs2 in Hrun.
  assert (E : exists outcomes,
             elapse Trial 100 8000 pressed = Some outcomes /\ outcomes <> []).
  { eexists. split; [vm_compute; reflexivity | discriminate]. }
  destruct E as (outcomes & E & Hne).
  exists outcomes. split; [exact E|]. split; [exact Hne|].
  intros s' Hin. exact (Hrun 100%nat 8000 outcomes s' E Hin).
Defined.

End TempoControls.

(** *** Tones *)

Section Tones.

Lemma shell_clicks (s s' : component) : shell s' = shell s -> clicks s' = clicks s.
Proof. unfold shell. intros H. injection H. trivial. Qed.

Lemma clicks_fire v t (s : component) : clicks (fire v t s) = clicks s.
Proof.
  unfold fire.
  transitivity (clicks (rearm t (set_clock (due t) s)));
    [|rewrite (@frame_rearm _ clicks) by framed; reflexivity].
  generalize (rearm t (set_clock (due t) s)). intros x.
  destruct (action t); cbn [runCallback].
  - reflexivity.
  - apply shell_clicks, shell_firstAcceleration.
  - apply shell_clicks, shell_secondAcceleration.
  - unfold timeTrackingTick. destruct (_ && _); [|reflexivity].
    set (x2 := setIsSlowingDown true (set_runningTimeRef (runningTimeRef x + 1) x)).
    destruct (JS.live (timeTrackingIntervalRef x2)); [|reflexivity].
    transitivity (clicks (clearHandle (timeTrackingIntervalRef x2) x2)); [reflexivity|].
    rewrite (@frame_clearHandle _ clicks) by framed. reflexivity.
  - reflexivity.
Qed.

Lemma clicks_animate t (s s' : component) :
  animate t s = Some s' ->
  clicks s' = clicks s \/
  (clicks s' = S (clicks s) /\ audioContextRef s = true /\ isPlaying s = true).
Proof.
  unfold animate. destruct (isPlaying s); cbn [negb].
  - set (s1 := if JS.truthy (startTimeRef s) then s else set_startTimeRef (Some t) s).
    assert (H1 : clicks s1 = clicks s /\ audioContextRef s1 = audioContextRef s)
      by (subst s1; destruct (JS.truthy _); split; reflexivity).
    clearbody s1.
    set (s2 := if JS.truthy (lastBeatTimeRef s1) then s1
               else set_lastBeatTimeRef (Some t) s1).
    assert (H2 : clicks s2 = clicks s /\ audioContextRef s2 = audioContextRef s)
      by (subst s2; destruct (JS.truthy (lastBeatTimeRef s1)); exact H1).
    clearbody s2. clear H1 s1. destruct H2 as [C2 A2].
    destruct (beatDurationMs (currentBpmRef s2)) as [bd|]; [|discriminate].
    destruct (lastBeatTimeRef s2) as [l|]; [|discriminate].
    intros H. injection H as <-. rewrite <- C2, <- A2.
    destruct (Qle_bool bd (t - l)); [|left; reflexivity].
    unfold playClickTone. destruct (audioContextRef s2); [right | left]; repeat split.
  - intros H. injection H as <-. left. unfold stopAnimation.
    destruct (JS.live (animationRef s)); reflexivity.
Qed.

Lemma clicks_playEffect v now (s : component) : clicks (playEffect v now s) = clicks s.
Proof.
  destruct v; cbn [playEffect].
  - destruct (isPlaying s); [reflexivity|].
    unfold stopAnimation. destruct (JS.live (animationRef s)); reflexivity.
  - destruct (isPlaying s); [reflexivity|].
    set (s1 := stopAnimation s).
    assert (H1 : clicks s1 = clicks s)
      by (subst s1; unfold stopAnimation; destruct (JS.live (animationRef s)); reflexivity).
    rewrite <- H1. clearbody s1.
    set (s2 := if JS.live (timeTrackingIntervalRef s1)
               then set_timeTrackingIntervalRef None
                      (clearHandle (timeTrackingIntervalRef s1) s1)
               else s1).
    assert (H2 : clicks s2 = clicks s1).
    { subst s2. destruct (JS.live (timeTrackingIntervalRef s1)); [|reflexivity].
      transitivity (clicks (clearHandle (timeTrackingIntervalRef s1) s1)); [reflexivity|].
      apply (@frame_clearHandle _ clicks); framed. }
    rewrite <- H2. clearbody s2.
    destruct (isSlowingDown s); [|reflexivity].
    destruct (isTrialExpired s && negb (hasUpgraded s)); reflexivity.
Qed.

Lemma clicks_tapUpdate now (s : component) : clicks (tapUpdate now s) = clicks s.
Proof.
  unfold tapUpdate.
  destruct (Nat.leb 2 (length (tapWindow (tapTimes s) now))); [|reflexivity].
  destruct (calculatedBpm (tapWindow (tapTimes s) now)) as [c|]; [|reflexivity].
  destruct (_ && _); reflexivity.
Qed.

Lemma clicks_handleTap now (s : component) :
  clicks (handleTap now s) = clicks (playTapTone s).
Proof.
  unfold handleTap, setTimeout, addTimer.
  set (s2 := clearHandle (tapTimeoutRef (playTapTone s)) (playTapTone s)).
  assert (H2 : clicks s2 = clicks (playTapTone s))
    by (subst s2; apply (@frame_clearHandle _ clicks); framed).
  rewrite <- H2. clearbody s2.
  transitivity (clicks (tapUpdate now s2)); [reflexivity | apply clicks_tapUpdate].
Qed.

(** X8. Where the tones come from: a step of the component starts at
    most one tone, and only when the audio context exists and the step is
    a frame of a playing component or, in part_001, a tap.  The tempo
    controls, the timers and the effects are silent, and so is a stopped
    component that is not tapped. *)
Theorem tone_sources :
  forall (v : variant) (s s' : component),
    step v s s' ->
    clicks s' = clicks s \/
    (clicks s' = S (clicks s) /\ audioContextRef s = true /\
     ((isPlaying s = true /\ exists timestamp, animate timestamp s = Some s') \/
      (v = Trial /\ exists now, s' = handleTap now s))).
Proof.
  intros v s s' Hstep. destruct Hstep.
  - left. destruct v; cbn [togglePlay]; [reflexivity|].
    destruct (togglePlayRecovers s); destruct (negb (isPlaying s)); reflexivity.
  - left. apply shell_clicks. exact (shell_press Touch d v now s).
  - left. apply shell_clicks. exact (shell_release Touch d s).
  - left. apply shell_clicks. exact (shell_press Mouse d v now s).
  - left. apply shell_clicks. exact (shell_release Mouse d s).
  - left. apply clicks_fire.
  - destruct (clicks_animate _ _ H) as [Hc | (Hc & Ha & Hp)]; [left; exact Hc|].
    right. split; [exact Hc|]. split; [exact Ha|]. left. split; [exact Hp|].
    exists timestamp. exact H.
  - left. reflexivity.
  - left. apply clicks_playEffect.
  - left. destruct v; cbn [bpmEffect]; [|reflexivity].
    destruct (isPlaying s); [|reflexivity].
    unfold stopAnimation. destruct (JS.live _); reflexivity.
  - left. unfold handle75Percent. destruct (_ && _); reflexivity.
  - left. unfold zoomEffect. destruct (_ && _); [destruct (_ || _)|]; reflexivity.
  - left. unfold displayBpmEffect. destruct (negb _); reflexivity.
  - left. unfold slowdownEffect.
    destruct (isSlowingDown s && isPlaying s && negb (hasUpgraded s)); [|reflexivity].
    destruct ((Qle_bool (dotPosition s) 5 || Qle_bool 355 (dotPosition s))
              && negb (hasDecrementedThisCycleRef s)).
    + destruct (Z.leb (bpm s - 5) MIN_BPM); [reflexivity|].
      destruct (Qle_bool (dotPosition s) 5 || Qle_bool 355 (dotPosition s)); reflexivity.
    + destruct (negb (Qle_bool (dotPosition s) 90) && negb (Qle_bool 270 (dotPosition s)));
        [destruct (hasDecrementedThisCycleRef s)|]; reflexivity.
  - rewrite clicks_handleTap. unfold playTapTone.
    destruct (audioContextRef s) eqn:Ea; [right | left; reflexivity].
    split; [reflexivity|]. split; [reflexivity|]. right. split; [reflexivity|].
    exists now. reflexivity.
  - left. reflexivity.
  - left. reflexivity.
Qed.

Lemma tone_sources_witness :
  step Trial (fresh Trial) (handleTap 0 (fresh Trial)) /\
  clicks (handleTap 0 (fresh Trial)) = 1%nat /\
  audioContextRef (fresh Trial) = true.
Proof.
  split; [apply step_tap|].
  destruct (@tone_sources Trial (fresh Trial) (handleTap 0 (fresh Trial))
              (step_tap 0 (fresh Trial))) as [H | (H & Ha & _)].
  - assert (Hc : clicks (handleTap 0 (fresh Trial)) = 1%nat) by (vm_compute; reflexivity).
    assert (Hf : clicks (fresh Trial) = 0%nat) by (vm_compute; reflexivity).
    rewrite Hc, Hf in H. discriminate H.
  - split; [|exact Ha]. rewrite H.
    assert (Hf : clicks (fresh Trial) = 0%nat) by (vm_compute; reflexivity).
    rewrite Hf. reflexivity.
Defined.

End Tones.

(** ** The tap estimate *)

Section TapEstimate.

Local Open Scope Z_scope.




End TapEstimate.

(** ** The course of the slowdown *)

Section Ramp.

Local Open Scope Z_scope.

(** The three moves of the slowdown effect on a playing, slowing,
    not upgraded component. *)
Lemma slowdownEffect_decrement now (s : component) :
  isSlowingDown s = true -> isPlaying s = true -> hasUpgraded s = false ->
  Spec.atTop (dotPosition s) -> hasDecrementedThisCycleRef s = false ->
  30 < bpm s - 5 ->
  let s' := slowdownEffect now s in
  let anchor := (now - dotPosition s / 360 * (60000 / inject_Z (bpm s - 5)))%Q in
  bpm s' = bpm s - 5 /\ displayBpm s' = bpm s - 5 /\
  isSlowingDown s' = true /\ isPlaying s' = true /\ showUpgradeMessage s' = showUpgradeMessage s /\
  session s' = session s /\ visual s' = visual s /\
  hasDecrementedThisCycleRef s' = true /\
  originalBpmRef s' = originalBpmRef s /\
  startTimeRef s' = Some anchor /\ lastBeatTimeRef s' = Some anchor /\
  currentBpmRef s' = currentBpmRef s /\ audioContextRef s' = audioContextRef s /\
  clicks s' = clicks s /\
  bpmLog s' = (clock s, bpm s - 5) :: bpmLog s.
Proof.
  intros Hs Hp Hu Htop Hf Hb. cbv zeta. unfold slowdownEffect.
  rewrite Hs, Hp, Hu, Hf. cbn [andb negb].
  apply atTop_bool in Htop. rewrite Htop. cbn [andb].
  unfold MIN_BPM. destruct (Z.leb_spec (bpm s - 5) 30); [lia|].
  repeat split; assumption.
Qed.

Lemma slowdownEffect_reset now (s : component) :
  isSlowingDown s = true -> isPlaying s = true -> hasUpgraded s = false ->
  Spec.inBand (dotPosition s) ->
  let s' := slowdownEffect now s in
  tempo s' = tempo s /\ session s' = session s /\ visual s' = visual s /\
  hasDecrementedThisCycleRef s' = false /\
  originalBpmRef s' = originalBpmRef s /\
  bpmLog s' = bpmLog s.
Proof.
  intros Hs Hp Hu Hband. cbv zeta. unfold slowdownEffect.
  rewrite Hs, Hp, Hu. cbn [andb negb].
  assert (Hnot : Qle_bool (dotPosition s) 5 || Qle_bool 355 (dotPosition s) = false).
  { destruct (Qle_bool (dotPosition s) 5 || Qle_bool 355 (dotPosition s)) eqn:E;
      [|reflexivity].
    apply atTop_bool in E. destruct Hband as [H1 H2]. destruct E as [E | E]; lra. }
  rewrite Hnot. cbn [andb].
  apply inBand_bool in Hband. rewrite Hband.
  destruct (hasDecrementedThisCycleRef s) eqn:Ef; repeat split. exact Ef.
Qed.

Lemma slowdownEffect_stop now (s : component) :
  isSlowingDown s = true -> isPlaying s = true -> hasUpgraded s = false ->
  Spec.atTop (dotPosition s) -> hasDecrementedThisCycleRef s = false ->
  bpm s - 5 <= 30 ->
  slowdownEffect now s = setIsPlaying false s.
Proof.
  intros Hs Hp Hu Htop Hf Hb. unfold slowdownEffect.
  rewrite Hs, Hp, Hu, Hf. cbn [andb negb].
  apply atTop_bool in Htop. rewrite Htop. cbn [andb].
  unfold MIN_BPM. destruct (Z.leb_spec (bpm s - 5) 30); [reflexivity | lia].
Qed.

Lemma rampCycle_step (s : component) (cycle : (Q * Q) * (Q * Q)) :
  isSlowingDown s = true -> isPlaying s = true -> hasUpgraded s = false ->
  hasDecrementedThisCycleRef s = false ->
  Spec.atTop (fst (fst cycle)) -> Spec.inBand (fst (snd cycle)) ->
  30 < bpm s - 5 ->
  let s' := rampCycle s cycle in
  bpm s' = bpm s - 5 /\ displayBpm s' = bpm s - 5 /\
  isSlowingDown s' = true /\ isPlaying s' = true /\ hasUpgraded s' = false /\
  isTrialExpired s' = isTrialExpired s /\
  showUpgradeMessage s' = showUpgradeMessage s /\
  hasDecrementedThisCycleRef s' = false /\
  originalBpmRef s' = originalBpmRef s /\
  map snd (bpmLog s') = (bpm s - 5) :: map snd (bpmLog s).
Proof.
  intros Hs Hp Hu Hf Htop Hband Hb. cbv zeta. unfold rampCycle, slowdownSample.
  set (a := setDotPosition (fst (fst cycle)) s).
  destruct (@slowdownEffect_decrement (snd (fst cycle)) a Hs Hp Hu Htop Hf Hb)
    as (B1 & D1 & S1 & P1 & M1 & Se1 & _ & F1 & O1 & _ & _ & _ & _ & _ & L1).
  change (bpm a) with (bpm s) in *. change (originalBpmRef a) with (originalBpmRef s) in *.
  change (bpmLog a) with (bpmLog s) in *. change (clock a) with (clock s) in *.
  change (session a) with (session s) in *.
  change (showUpgradeMessage a) with (showUpgradeMessage s) in *.
  revert B1 D1 S1 P1 M1 Se1 F1 O1 L1.
  generalize (slowdownEffect (snd (fst cycle)) a). clear a. intros s1.
  intros B1 D1 S1 P1 M1 Se1 F1 O1 L1.
  set (b := setDotPosition (fst (snd cycle)) s1).
  assert (Hu1 : hasUpgraded b = false) by (change (hasUpgraded s1 = false);
                                           unfold hasUpgraded; rewrite Se1; exact Hu).
  destruct (@slowdownEffect_reset (snd (snd cycle)) b S1 P1 Hu1 Hband)
    as (T2 & Se2 & _ & F2 & O2 & L2).
  change (tempo b) with (tempo s1) in *. change (session b) with (session s1) in *.
  change (originalBpmRef b) with (originalBpmRef s1) in *.
  change (bpmLog b) with (bpmLog s1) in *.
  revert T2 Se2 F2 O2 L2.
  generalize (slowdownEffect (snd (snd cycle)) b). clear b Hu1. intros s2.
  intros T2 Se2 F2 O2 L2.
  unfold bpm, displayBpm, isSlowingDown, isPlaying, showUpgradeMessage, hasUpgraded,
    isTrialExpired in *.
  rewrite T2, Se2, Se1, L2, L1, O2, O1.
  repeat split; assumption.
Qed.

(** A run of whole cycles that stays above the floor. *)
Lemma ramp_run (cycles : list ((Q * Q) * (Q * Q))) :
  forall s : component,
    isSlowingDown s = true -> isPlaying s = true -> hasUpgraded s = false ->
    hasDecrementedThisCycleRef s = false ->
    (forall c, In c cycles -> Spec.atTop (fst (fst c)) /\ Spec.inBand (fst (snd c))) ->
    30 < bpm s - 5 * Z.of_nat (length cycles) ->
    let s' := rampCycles cycles s in
    bpm s' = bpm s - 5 * Z.of_nat (length cycles) /\
    (cycles <> [] -> displayBpm s' = bpm s') /\
    isSlowingDown s' = true /\ isPlaying s' = true /\ hasUpgraded s' = false /\
    isTrialExpired s' = isTrialExpired s /\
    showUpgradeMessage s' = showUpgradeMessage s /\
    hasDecrementedThisCycleRef s' = false /\
    originalBpmRef s' = originalBpmRef s /\
    map snd (steps s') =
      map snd (steps s)
      ++ map (fun k => bpm s - 5 * Z.of_nat k) (seq 1 (length cycles)).
Proof.
  induction cycles as [|c rest IH]; intros s Hs Hp Hu Hf Hall Hb; cbv zeta.
  - cbn. rewrite app_nil_r. repeat split; try assumption; try lia.
    intros H. contradiction H. reflexivity.
  - cbn [length] in Hb. rewrite Nat2Z.inj_succ in Hb.
    destruct (Hall c (or_introl eq_refl)) as [Htop Hband].
    assert (Hb1 : 30 < bpm s - 5) by lia.
    destruct (@rampCycle_step s c Hs Hp Hu Hf Htop Hband Hb1)
      as (B1 & D1 & S1 & P1 & U1 & X1 & M1 & F1 & O1 & L1).
    change (rampCycles (c :: rest) s) with (rampCycles rest (rampCycle s c)).
    revert B1 D1 S1 P1 U1 X1 M1 F1 O1 L1. generalize (rampCycle s c). intros s1.
    intros B1 D1 S1 P1 U1 X1 M1 F1 O1 L1.
    assert (Hb' : 30 < bpm s1 - 5 * Z.of_nat (length rest)) by (rewrite B1; lia).
    destruct (IH s1 S1 P1 U1 F1 (fun c' H => Hall c' (or_intror H)) Hb')
      as (B' & D' & S' & P' & U' & X' & M' & F' & O' & L').
    cbn [length]. rewrite Nat2Z.inj_succ.
    split; [rewrite B', B1; lia|].
    split.
    { intros _. destruct rest as [|c' rest']; [exact (eq_trans D1 (eq_sym B1))|].
      apply D'. discriminate. }
    split; [exact S'|]. split; [exact P'|]. split; [exact U'|].
    split; [congruence|]. split; [congruence|]. split; [exact F'|].
    split; [congruence|].
    rewrite L'. unfold steps. rewrite !map_rev, L1.
    cbn [rev]. rewrite <- app_assoc. f_equal.
    change (seq 1 (S (length rest))) with (1%nat :: seq 2 (length rest)).
    rewrite <- (seq_shift (length rest) 1). cbn [map app]. rewrite map_map.
    f_equal; try lia.
    apply map_ext. intros k. rewrite B1, Nat2Z.inj_succ. lia.
Qed.

(** X10. The ramp descends by 5 per turn: over [n] turns of the dot,
    each sampled once at the top and once inside the band, a playing
    component in slowdown mode whose tempo stays above 30 goes from [bpm]
    to [bpm - 5 n], calls [setBpm] once per turn with [bpm - 5],
    [bpm - 10], ..., shows the tempo it plays, keeps playing and keeps
    the tempo captured at the start of play. *)
Theorem ramp_descends :
  forall (cycles : list ((Q * Q) * (Q * Q))) (s : component),
    isSlowingDown s = true -> isPlaying s = true -> hasUpgraded s = false ->
    hasDecrementedThisCycleRef s = false ->
    (forall c, In c cycles -> Spec.atTop (fst (fst c)) /\ Spec.inBand (fst (snd c))) ->
    30 < bpm s - 5 * Z.of_nat (length cycles) ->
    let s' := rampCycles cycles s in
    bpm s' = bpm s - 5 * Z.of_nat (length cycles) /\
    (cycles <> [] -> displayBpm s' = bpm s') /\
    isPlaying s' = true /\ isSlowingDown s' = true /\
    originalBpmRef s' = originalBpmRef s /\
    map snd (steps s') =
      map snd (steps s)
      ++ map (fun k => bpm s - 5 * Z.of_nat k) (seq 1 (length cycles)).
Proof.
  intros cycles s Hs Hp Hu Hf Hall Hb.
  destruct (@ramp_run cycles s Hs Hp Hu Hf Hall Hb)
    as (B & D & S & P & _ & _ & _ & _ & O & L).
  cbv zeta. repeat split; assumption.
Qed.

Lemma ramp_descends_witness :
  let cycles := [((358, 12600), (180, 12900)); ((357, 13200), (181, 13500));
                 ((2, 13900), (100, 14100))]%Q in
  bpm slowing100 = 100 /\
  bpm (rampCycles cycles slowing100) = 85 /\
  map snd (steps (rampCycles cycles slowing100)) = [100; 95; 90; 85].
Proof.
  intros cycles.
  assert (H100 : bpm slowing100 = 100) by (vm_compute; reflexivity).
  assert (Hall : forall c, In c cycles ->
                   Spec.atTop (fst (fst c)) /\ Spec.inBand (fst (snd c))).
  { intros c [<- | [<- | [<- | []]]]; unfold Spec.atTop, Spec.inBand; cbn [fst snd];
      split; lra. }
  destruct (@ramp_descends cycles slowing100) as (B & _ & _ & _ & _ & L).
  - vm_compute; reflexivity.
  - vm_compute; reflexivity.
  - vm_compute; reflexivity.
  - vm_compute; reflexivity.
  - exact Hall.
  - rewrite H100. vm_compute. reflexivity.
  - split; [exact H100|]. split.
    + rewrite B, H100. reflexivity.
    + rewrite L, H100.
      assert (Hl : map snd (steps slowing100) = [100]) by (vm_compute; reflexivity).
      rewrite Hl. reflexivity.
Defined.

(** X11. How the ramp ends: at the first top where [bpm - 5] would not
    exceed 30 the effect writes no tempo and stops playback, and the play
    effect that follows puts the tempo captured at the start of play back
    into [bpm] and [displayBpm], leaves slowdown mode, resets the running
    time, and raises the upgrade message when the trial is expired. *)
Theorem ramp_ends_restored :
  forall (cycles : list ((Q * Q) * (Q * Q))) (top : Q * Q) (now : Q) (s : component),
    isSlowingDown s = true -> isPlaying s = true -> hasUpgraded s = false ->
    hasDecrementedThisCycleRef s = false ->
    (forall c, In c cycles -> Spec.atTop (fst (fst c)) /\ Spec.inBand (fst (snd c))) ->
    30 < bpm s - 5 * Z.of_nat (length cycles) ->
    bpm s - 5 * Z.of_nat (S (length cycles)) <= 30 ->
    Spec.atTop (fst top) ->
    let stopped := slowdownSample (rampCycles cycles s) top in
    let restored := playEffect Trial now stopped in
    isPlaying stopped = false /\
    bpm stopped = bpm s - 5 * Z.of_nat (length cycles) /\
    bpmLog stopped = bpmLog (rampCycles cycles s) /\
    bpm restored = originalBpmRef s /\
    displayBpm restored = originalBpmRef s /\
    isPlaying restored = false /\
    isSlowingDown restored = false /\
    runningTimeRef restored = 0 /\
    showUpgradeMessage restored
    = (if isTrialExpired s then true else showUpgradeMessage s).
Proof.
  intros cycles top now s Hs Hp Hu Hf Hall Hb Hlast Htop.
  destruct (@ramp_run cycles s Hs Hp Hu Hf Hall Hb)
    as (B & _ & S & P & U & X & M & F & O & _).
  cbv zeta. revert B S P U X M F O. generalize (rampCycles cycles s). intros r.
  intros B S P U X M F O.
  unfold slowdownSample.
  assert (E : slowdownEffect (snd top) (setDotPosition (fst top) r)
              = setIsPlaying false (setDotPosition (fst top) r)).
  { apply slowdownEffect_stop; try assumption.
    change (bpm r - 5 <= 30). rewrite Nat2Z.inj_succ in Hlast. lia. }
  rewrite E. clear E.
  split; [reflexivity|]. split; [exact B|]. split; [reflexivity|].
  cbn [playEffect].
  change (isPlaying (setIsPlaying false (setDotPosition (fst top) r))) with false.
  cbv iota.
  change (isSlowingDown (setIsPlaying false (setDotPosition (fst top) r)))
    with (isSlowingDown r).
  change (isTrialExpired (setIsPlaying false (setDotPosition (fst top) r)))
    with (isTrialExpired r).
  change (hasUpgraded (setIsPlaying false (setDotPosition (fst top) r)))
    with (hasUpgraded r).
  rewrite S, U, X. cbn [negb]. rewrite andb_true_r.
  set (s1 := stopAnimation (setIsPlaying false (setDotPosition (fst top) r))).
  assert (H1 : originalBpmRef s1 = originalBpmRef s /\
               showUpgradeMessage s1 = showUpgradeMessage s /\
               isPlaying s1 = false).
  { subst s1. unfold stopAnimation.
    destruct (JS.live (animationRef _)); repeat split; assumption. }
  clearbody s1. destruct H1 as (O1 & M1 & P1).
  set (s2 := if JS.live (timeTrackingIntervalRef s1)
             then set_timeTrackingIntervalRef None
                    (clearHandle (timeTrackingIntervalRef s1) s1)
             else s1).
  assert (H2 : originalBpmRef s2 = originalBpmRef s /\
               showUpgradeMessage s2 = showUpgradeMessage s /\
               isPlaying s2 = false).
  { subst s2. destruct (JS.live (timeTrackingIntervalRef s1)); [|repeat split; assumption].
    split; [|split].
    - transitivity (originalBpmRef (clearHandle (timeTrackingIntervalRef s1) s1));
        [reflexivity|].
      rewrite (@frame_clearHandle _ (fun y : component => originalBpmRef y))
        by (intros; reflexivity). exact O1.
    - transitivity (showUpgradeMessage (clearHandle (timeTrackingIntervalRef s1) s1));
        [reflexivity|].
      rewrite (@frame_clearHandle _ (fun y : component => showUpgradeMessage y))
        by (intros; reflexivity). exact M1.
    - transitivity (isPlaying (clearHandle (timeTrackingIntervalRef s1) s1));
        [reflexivity|].
      rewrite (@frame_clearHandle _ (fun y : component => isPlaying y))
        by (intros; reflexivity). exact P1. }
  clearbody s2. clear O1 M1 P1 s1. destruct H2 as (O2 & M2 & P2).
  destruct (isTrialExpired s); repeat split; assumption.
Qed.

Lemma ramp_ends_restored_witness :
  let cycles := [((358, 12600), (180, 12900)); ((357, 13200), (181, 13500));
                 ((2, 13900), (100, 14100))]%Q in
  let s := setBpm 50 slowing100 in
  let stopped := slowdownSample (rampCycles cycles s) (359, 14500)%Q in
  bpm s = 50 /\ originalBpmRef s = 100 /\ isTrialExpired s = true /\
  isPlaying stopped = false /\ bpm stopped = 35 /\
  bpm (playEffect Trial 14510 stopped) = 100 /\
  showUpgradeMessage (playEffect Trial 14510 stopped) = true.
Proof.
  intros cycles s stopped. subst stopped.
  assert (H50 : bpm s = 50) by (vm_compute; reflexivity).
  assert (HO : originalBpmRef s = 100) by (vm_compute; reflexivity).
  assert (HX : isTrialExpired s = true) by (vm_compute; reflexivity).
  assert (Hall : forall c, In c cycles ->
                   Spec.atTop (fst (fst c)) /\ Spec.inBand (fst (snd c))).
  { intros c [<- | [<- | [<- | []]]]; unfold Spec.atTop, Spec.inBand; cbn [fst snd];
      split; lra. }
  destruct (@ramp_ends_restored cycles (359, 14500)%Q 14510%Q s)
    as (P & B & _ & R & _ & _ & _ & _ & M).
  - vm_compute; reflexivity.
  - vm_compute; reflexivity.
  - vm_compute; reflexivity.
  - vm_compute; reflexivity.
  - exact Hall.
  - rewrite H50. vm_compute. reflexivity.
  - rewrite H50. vm_compute. discriminate.
  - right. vm_compute. discriminate.
  - split; [exact H50|]. split; [exact HO|]. split; [exact HX|].
    split; [exact P|]. split; [rewrite B, H50; reflexivity|].
    split; [rewrite R; exact HO|].
    rewrite M, HX. reflexivity.
Defined.

(** X12. A step of the ramp keeps the dot where it is: the effect
    moves both anchors back by the share of the new beat that the dot has
    already covered, so once the tempo cell is synchronised a frame at
    [t >= now] before the next beat is due shows the old position advanced
    at the new tempo, [dotPosition + (t - now) / newBeatDuration * 360],
    and starts no click. *)
Theorem slowdown_step_keeps_phase :
  forall (now t : Q) (s : component),
    isSlowingDown s = true -> isPlaying s = true -> hasUpgraded s = false ->
    Spec.atTop (dotPosition s) -> hasDecrementedThisCycleRef s = false ->
    30 < bpm s - 5 ->
    (0 <= dotPosition s)%Q ->
    let newBeatDuration := (60000 / inject_Z (bpm s - 5))%Q in
    let anchor := (now - dotPosition s / 360 * newBeatDuration)%Q in
    ~ (anchor == 0)%Q ->
    (now <= t)%Q ->
    (t - anchor < newBeatDuration)%Q ->
    exists s',
      animate t (syncBpmRefEffect (slowdownEffect now s)) = Some s' /\
      (dotPosition s' == dotPosition s + (t - now) / newBeatDuration * 360)%Q /\
      clicks s' = clicks s /\
      lastBeatTimeRef s' = Some anchor.
Proof.
  intros now t s Hs Hp Hu Htop Hf Hb Hpos bd anchor Hnz Hle Hdue.
  destruct (@slowdownEffect_decrement now s Hs Hp Hu Htop Hf Hb)
    as (B1 & _ & _ & P1 & _ & _ & _ & _ & _ & St1 & L1 & _ & A1 & C1 & _).
  fold bd in St1, L1. fold anchor in St1, L1.
  revert B1 P1 St1 L1 A1 C1. generalize (slowdownEffect now s). intros s1.
  intros B1 P1 St1 L1 A1 C1.
  assert (Hbpm : 0 < currentBpmRef (syncBpmRefEffect s1))
    by (change (0 < bpm s1); rewrite B1; lia).
  assert (Hbd : (0 < bd)%Q).
  { subst bd. apply Qlt_shift_div_l; [|lra].
    change 0%Q with (inject_Z 0). rewrite <- Zlt_Qlt. lia. }
  rewrite (@animate_anchored t anchor (syncBpmRefEffect s1) P1 L1 Hnz Hbpm). cbv zeta.
  change (currentBpmRef (syncBpmRefEffect s1)) with (bpm s1). rewrite B1. fold bd.
  change (startTimeRef (syncBpmRefEffect s1)) with (startTimeRef s1). rewrite St1.
  rewrite (truthy_Some Hnz).
  assert (Hlate : (anchor <= now)%Q).
  { subst anchor.
    assert ((0 <= dotPosition s / 360 * bd)%Q).
    { apply Qmult_le_0_compat; [|lra]. apply Qle_shift_div_l; lra. }
    lra. }
  assert (E : Qle_bool bd (t - anchor) = false) by (apply Qle_bool_false; exact Hdue).
  rewrite E.
  eexists. split; [reflexivity|].
  change (dotPosition (requestAnimationFrame (setDotPosition ?p ?x))) with p.
  split; [|split; [exact C1 | exact L1]].
  rewrite rem_modulo by lra.
  unfold Spec.modulo.
  assert (Hfl : Qfloor ((t - anchor) / bd) = 0).
  { apply Qfloor_unit; [apply div_nonneg; lra|]. apply Qlt_shift_div_r; lra. }
  rewrite Hfl. change (inject_Z 0) with 0%Q. subst anchor. field. lra.
Qed.

Lemma slowdown_step_keeps_phase_witness :
  let s := setDotPosition 358 slowing100 in
  exists s',
    animate 12602 (syncBpmRefEffect (slowdownEffect 12600 s)) = Some s' /\
    bpm (slowdownEffect 12600 s) = 95 /\
    (dotPosition s' == 358 + 2 / (60000 / 95) * 360)%Q /\
    clicks s' = clicks s.
Proof.
  intros s.
  assert (Hd : dotPosition s = 358%Q) by reflexivity.
  assert (Hb : bpm s = 100) by (vm_compute; reflexivity).
  destruct (@slowdown_step_keeps_phase 12600 12602 s) as (s' & Ha & Hdot & Hc & _).
  - vm_compute; reflexivity.
  - vm_compute; reflexivity.
  - vm_compute; reflexivity.
  - right. rewrite Hd. vm_compute. discriminate.
  - vm_compute; reflexivity.
  - rewrite Hb. reflexivity.
  - rewrite Hd. vm_compute. discriminate.
  - rewrite Hd, Hb. vm_compute. discriminate.
  - vm_compute. discriminate.
  - rewrite Hd, Hb. vm_compute. reflexivity.
  - exists s'. split; [exact Ha|]. split; [vm_compute; reflexivity|].
    split; [|exact Hc].
    rewrite Hdot, Hd, Hb. vm_compute. reflexivity.
Defined.

Lemma tick_before (s : component) :
  isSlowingDown s = false ->
  runningTimeRef s + 1 < timeoutSeconds s ->
  timeTrackingTick s = set_runningTimeRef (runningTimeRef s + 1) s.
Proof.
  intros Hs Hlt. unfold timeTrackingTick. fold (timeoutSeconds s).
  change (runningTimeRef (set_runningTimeRef (runningTimeRef s + 1) s))
    with (runningTimeRef s + 1).
  destruct (Z.leb_spec (timeoutSeconds s) (runningTimeRef s + 1)); [lia|].
  reflexivity.
Qed.

Lemma tick_at (s : component) :
  isSlowingDown s = false ->
  timeoutSeconds s <= runningTimeRef s + 1 ->
  isSlowingDown (timeTrackingTick s) = true /\
  JS.live (timeTrackingIntervalRef (timeTrackingTick s)) = false /\
  timers (timeTrackingTick s) = timers (clearHandle (timeTrackingIntervalRef s) s).
Proof.
  intros Hs Hle. unfold timeTrackingTick. fold (timeoutSeconds s).
  change (runningTimeRef (set_runningTimeRef (runningTimeRef s + 1) s))
    with (runningTimeRef s + 1).
  destruct (Z.leb_spec (timeoutSeconds s) (runningTimeRef s + 1)); [|lia].
  rewrite Hs. cbn [negb andb].
  set (s2 := setIsSlowingDown true (set_runningTimeRef (runningTimeRef s + 1) s)).
  change (timeTrackingIntervalRef s2) with (timeTrackingIntervalRef s).
  destruct (timeTrackingIntervalRef s) as [[|h]|] eqn:Er; cbn [JS.live clearHandle];
    repeat split; try reflexivity.
  - change (JS.live (timeTrackingIntervalRef s) = false). rewrite Er. reflexivity.
  - change (JS.live (timeTrackingIntervalRef s) = false). rewrite Er. reflexivity.
Qed.

Lemma ticks_before (s : component) :
  runningTimeRef s = 0 -> isSlowingDown s = false ->
  forall n : nat,
    Z.of_nat n < timeoutSeconds s ->
    ticks n s = set_runningTimeRef (Z.of_nat n) s.
Proof.
  intros Hr Hs. induction n as [|n IH]; intros Hlt.
  - cbn. rewrite <- Hr. destruct s as [? ? ? ? ? [? ? ? ?] ? ?]. reflexivity.
  - rewrite Nat2Z.inj_succ in Hlt.
    change (ticks (S n) s) with (timeTrackingTick (ticks n s)).
    rewrite IH by lia.
    rewrite tick_before.
    + change (runningTimeRef (set_runningTimeRef (Z.of_nat n) s)) with (Z.of_nat n).
      rewrite Nat2Z.inj_succ. reflexivity.
    + exact Hs.
    + change (Z.of_nat n + 1 < timeoutSeconds s). lia.
Qed.

(** X13. When the slowdown starts: counted from the start of play (the
    running time at 0, slowdown mode off), the ticks of the time tracking
    interval leave everything but the running time alone as long as they
    are fewer than the timeout, which is 10 for an expired trial that has
    not been upgraded and 999999 otherwise; the tick that reaches the
    timeout turns slowdown mode on and clears the interval. *)
Theorem slowdown_onset :
  forall s : component,
    runningTimeRef s = 0 -> isSlowingDown s = false ->
    timeoutSeconds s
    = (if isTrialExpired s && negb (hasUpgraded s) then 10 else 999999) /\
    (forall n : nat,
        Z.of_nat n < timeoutSeconds s ->
        ticks n s = set_runningTimeRef (Z.of_nat n) s /\
        isSlowingDown (ticks n s) = false) /\
    (forall n : nat,
        Z.of_nat n = timeoutSeconds s ->
        isSlowingDown (ticks n s) = true /\
        JS.live (timeTrackingIntervalRef (ticks n s)) = false /\
        timers (ticks n s) = timers (clearHandle (timeTrackingIntervalRef s) s)).
Proof.
  intros s Hr Hs. split; [reflexivity|]. split.
  - intros n Hlt. rewrite (@ticks_before s Hr Hs n Hlt). split; [reflexivity | exact Hs].
  - intros n Hn. destruct n as [|n].
    + exfalso. unfold timeoutSeconds, EXPIRED_TRIAL_RUN_TIME_SECONDS in Hn.
      destruct (isTrialExpired s && negb (hasUpgraded s)); discriminate Hn.
    + rewrite Nat2Z.inj_succ in Hn.
      change (ticks (S n) s) with (timeTrackingTick (ticks n s)).
      rewrite (@ticks_before s Hr Hs n) by lia.
      destruct (@tick_at (set_runningTimeRef (Z.of_nat n) s)) as (A & B & C).
      * exact Hs.
      * change (timeoutSeconds s <= Z.of_nat n + 1). lia.
      * split; [exact A|]. split; [exact B|]. rewrite C.
        change (timeTrackingIntervalRef (set_runningTimeRef (Z.of_nat n) s))
          with (timeTrackingIntervalRef s).
        destruct (timeTrackingIntervalRef s) as [[|h]|]; reflexivity.
Qed.

Lemma slowdown_onset_witness :
  let s := playEffect Trial 1000 (togglePlay Trial expiredTrial) in
  timeoutSeconds s = 10 /\
  isSlowingDown (ticks 9 s) = false /\
  isSlowingDown (ticks 10 s) = true /\
  timers (ticks 10 s) = [].
Proof.
  intros s.
  assert (Hr : runningTimeRef s = 0) by (vm_compute; reflexivity).
  assert (Hs : isSlowingDown s = false) by (vm_compute; reflexivity).
  assert (Ht : timeoutSeconds s = 10) by (vm_compute; reflexivity).
  destruct (@slowdown_onset s Hr Hs) as (_ & Hbefore & Hat).
  split; [exact Ht|].
  split; [apply (Hbefore 9%nat); rewrite Ht; reflexivity|].
  destruct (Hat 10%nat) as (H1 & _ & H3); [rewrite Ht; reflexivity|].
  split; [exact H1|]. rewrite H3. vm_compute. reflexivity.
Defined.

End Ramp.

(** ** Zoom bounds and the upgrade message *)

Section ZoomBounds.

Local Open Scope Q_scope.

(** X14. The scale the zoom effect sets lies in [0.7, 0.9] for every
    dot position in [0, 360], and is 0.9 only at the top of a playing
    component that has passed 270 degrees; a negative position, which a
    frame stamped before the anchor produces, is inside the zoom range
    and gives a scale above 0.9. *)
Theorem zoom_scale_bounds :
  forall s : component,
    (0 <= dotPosition s -> dotPosition s <= 360 ->
     0.7 <= scaleEffect (zoomEffect s) /\ scaleEffect (zoomEffect s) <= 0.9 /\
     (scaleEffect (zoomEffect s) == 0.9 ->
      isPlaying s = true /\ hasReached75Percent s = true /\
      (dotPosition s == 0 \/ dotPosition s == 360))) /\
    (dotPosition s < 0 -> isPlaying s = true -> hasReached75Percent s = true ->
     0.9 < scaleEffect (zoomEffect s)).
Proof.
  intros s. rewrite zoomEffect_scale. unfold Spec.zoomScale. split.
  - intros Hlo Hhi.
    destruct (isPlaying s); cbn [andb];
      [|split; [lra|]; split; [lra|]; intros H; exfalso; lra].
    destruct (hasReached75Percent s);
      [|split; [lra|]; split; [lra|]; intros H; exfalso; lra].
    destruct (Qle_bool 270 (dotPosition s)) eqn:E1.
    + apply Qle_bool_iff in E1.
      assert (H1 : (360 - dotPosition s) / 90 == (360 - dotPosition s) * (1 # 90))
        by (field; lra).
      split; [lra|]. split; [lra|]. intros H.
      split; [reflexivity|]. split; [reflexivity|]. right. lra.
    + apply Qle_bool_false in E1.
      destruct (Qle_bool (dotPosition s) 90) eqn:E2.
      * apply Qle_bool_iff in E2.
        assert (H1 : dotPosition s / 90 == dotPosition s * (1 # 90)) by (field; lra).
        split; [lra|]. split; [lra|]. intros H.
        split; [reflexivity|]. split; [reflexivity|]. left. lra.
      * split; [lra|]. split; [lra|]. intros H. exfalso. lra.
  - intros Hneg Hp Hl. rewrite Hp, Hl. cbn [andb].
    destruct (Qle_bool 270 (dotPosition s)) eqn:E1.
    + apply Qle_bool_iff in E1. lra.
    + assert (E2 : Qle_bool (dotPosition s) 90 = true) by (apply Qle_bool_iff; lra).
      rewrite E2.
      assert (H1 : dotPosition s / 90 == dotPosition s * (1 # 90)) by (field; lra).
      lra.
Qed.

Lemma zoom_scale_bounds_witness :
  let s := setHasReached75Percent true (setDotPosition 315 (playing Circle 1000)) in
  0.7 <= scaleEffect (zoomEffect s) /\ scaleEffect (zoomEffect s) <= 0.9 /\
  scaleEffect (zoomEffect s) == 0.8.
Proof.
  intros s.
  destruct (@zoom_scale_bounds s) as [H _].
  destruct H as (H1 & H2 & _).
  - vm_compute. discriminate.
  - vm_compute. discriminate.
  - split; [exact H1|]. split; [exact H2|]. vm_compute. reflexivity.
Defined.

End ZoomBounds.

Section UpgradeMessage.

Lemma offered_frame (s s' : component) :
  isPlaying s' = isPlaying s \/ isPlaying s' = false ->
  showUpgradeMessage s' = showUpgradeMessage s ->
  session s' = session s ->
  offered s -> offered s'.
Proof.
  unfold offered, isTrialExpired, hasUpgraded. intros Hp Hm Hs H Hon.
  rewrite Hm in Hon. rewrite Hs. destruct (H Hon) as (H1 & H2 & H3).
  split; [|split; assumption]. destruct Hp as [-> | ->]; [exact H1 | reflexivity].
Qed.

Lemma offered_hidden (s : component) : showUpgradeMessage s = false -> offered s.
Proof. unfold offered. intros H Hon. rewrite H in Hon. discriminate. Qed.

Lemma offered_shell (s s' : component) : shell s' = shell s -> offered s -> offered s'.
Proof.
  unfold shell. intros H. injection H as Hp _ _ Hm _ Hs _ _.
  apply offered_frame; [left|..]; assumption.
Qed.

Lemma fire_banner v t (s : component) :
  isPlaying (fire v t s) = isPlaying s /\
  showUpgradeMessage (fire v t s) = showUpgradeMessage s /\
  session (fire v t s) = session s.
Proof.
  destruct (holdDirection (action t)) as [d|] eqn:Ed.
  - assert (H : shell (fire v t s) = shell s)
      by (apply shell_fire_hold; rewrite Ed; discriminate).
    unfold shell in H. injection H as Hp _ _ Hm _ Hs _ _. repeat split; assumption.
  - unfold fire.
    set (x := rearm t (set_clock (due t) s)).
    assert (Hx : isPlaying x = isPlaying s /\ showUpgradeMessage x = showUpgradeMessage s /\
                 session x = session s).
    { subst x. split; [|split].
      - rewrite (@frame_rearm _ (fun y : component => isPlaying y)) by (intros; reflexivity).
        reflexivity.
      - rewrite (@frame_rearm _ (fun y : component => showUpgradeMessage y))
          by (intros; reflexivity).
        reflexivity.
      - rewrite (@frame_rearm _ session) by (intros; reflexivity). reflexivity. }
    destruct Hx as (<- & <- & <-). clearbody x.
    destruct (action t); cbn [runCallback]; try discriminate Ed.
    + unfold timeTrackingTick. destruct (_ && _); [|repeat split].
      set (x2 := setIsSlowingDown true (set_runningTimeRef (runningTimeRef x + 1) x)).
      destruct (JS.live (timeTrackingIntervalRef x2)); [|repeat split].
      split; [|split].
      * transitivity (isPlaying (clearHandle (timeTrackingIntervalRef x2) x2));
          [reflexivity|].
        rewrite (@frame_clearHandle _ (fun y : component => isPlaying y))
          by (intros; reflexivity). reflexivity.
      * transitivity (showUpgradeMessage (clearHandle (timeTrackingIntervalRef x2) x2));
          [reflexivity|].
        rewrite (@frame_clearHandle _ (fun y : component => showUpgradeMessage y))
          by (intros; reflexivity). reflexivity.
      * transitivity (session (clearHandle (timeTrackingIntervalRef x2) x2));
          [reflexivity|].
        rewrite (@frame_clearHandle _ session) by (intros; reflexivity). reflexivity.
    + repeat split.
Qed.

Lemma animate_banner t (s s' : component) :
  animate t s = Some s' -> tempo s' = tempo s /\ session s' = session s.
Proof.
  unfold animate. destruct (isPlaying s); cbn [negb].
  - set (s1 := if JS.truthy (startTimeRef s) then s else set_startTimeRef (Some t) s).
    assert (H1 : tempo s1 = tempo s /\ session s1 = session s)
      by (subst s1; destruct (JS.truthy _); split; reflexivity).
    clearbody s1.
    set (s2 := if JS.truthy (lastBeatTimeRef s1) then s1
               else set_lastBeatTimeRef (Some t) s1).
    assert (H2 : tempo s2 = tempo s /\ session s2 = session s)
      by (subst s2; destruct (JS.truthy (lastBeatTimeRef s1)); exact H1).
    clearbody s2. clear H1 s1. destruct H2 as [T2 S2].
    destruct (beatDurationMs (currentBpmRef s2)) as [bd|]; [|discriminate].
    destruct (lastBeatTimeRef s2) as [l|]; [|discriminate].
    intros H. injection H as <-. rewrite <- T2, <- S2.
    destruct (Qle_bool bd (t - l)); [|split; reflexivity].
    unfold playClickTone. destruct (audioContextRef s2); split; reflexivity.
  - intros H. injection H as <-. unfold stopAnimation.
    destruct (JS.live (animationRef s)); split; reflexivity.
Qed.

Lemma offered_playEffect now (s : component) :
  offered s -> offered (playEffect Trial now s).
Proof.
  intros H. cbn [playEffect]. destruct (isPlaying s) eqn:Ep.
  - revert H. apply offered_frame; [left | ..]; reflexivity.
  - set (s1 := stopAnimation s).
    assert (H1 : isPlaying s1 = false /\ showUpgradeMessage s1 = showUpgradeMessage s /\
                 session s1 = session s).
    { subst s1. unfold stopAnimation. destruct (JS.live (animationRef s));
        repeat split; exact Ep. }
    clearbody s1.
    set (s2 := if JS.live (timeTrackingIntervalRef s1)
               then set_timeTrackingIntervalRef None
                      (clearHandle (timeTrackingIntervalRef s1) s1)
               else s1).
    assert (H2 : isPlaying s2 = false /\ showUpgradeMessage s2 = showUpgradeMessage s /\
                 session s2 = session s).
    { destruct H1 as (P1 & M1 & S1). subst s2.
      destruct (JS.live (timeTrackingIntervalRef s1)); [|repeat split; assumption].
      split; [|split].
      - transitivity (isPlaying (clearHandle (timeTrackingIntervalRef s1) s1));
          [reflexivity|].
        rewrite (@frame_clearHandle _ (fun y : component => isPlaying y))
          by (intros; reflexivity). exact P1.
      - transitivity (showUpgradeMessage (clearHandle (timeTrackingIntervalRef s1) s1));
          [reflexivity|].
        rewrite (@frame_clearHandle _ (fun y : component => showUpgradeMessage y))
          by (intros; reflexivity). exact M1.
      - transitivity (session (clearHandle (timeTrackingIntervalRef s1) s1));
          [reflexivity|].
        rewrite (@frame_clearHandle _ session) by (intros; reflexivity). exact S1. }
    clearbody s2. clear H1 s1. destruct H2 as (P2 & M2 & S2).
    destruct (isSlowingDown s); [|apply offered_hidden; reflexivity].
    destruct (isTrialExpired s && negb (hasUpgraded s)) eqn:Ec.
    + apply andb_true_iff in Ec. destruct Ec as [Ex Eu]. apply negb_true_iff in Eu.
      intros _. split; [exact P2|].
      unfold isTrialExpired, hasUpgraded in *.
      change (session (setBpm ?a (setIsSlowingDown false (setDisplayBpm ?b
                (setShowUpgradeMessage true (set_runningTimeRef 0 s2))))))
        with (session s2).
      rewrite S2. split; assumption.
    + revert H. apply offered_frame; [right; exact P2 | exact M2 | exact S2].
Qed.

Lemma slowdownEffect_banner now (s : component) :
  (isPlaying (slowdownEffect now s) = isPlaying s \/
   isPlaying (slowdownEffect now s) = false) /\
  showUpgradeMessage (slowdownEffect now s) = showUpgradeMessage s /\
  session (slowdownEffect now s) = session s.
Proof.
  unfold slowdownEffect.
  destruct (isSlowingDown s && isPlaying s && negb (hasUpgraded s));
    [|repeat split; left; reflexivity].
  destruct ((Qle_bool (dotPosition s) 5 || Qle_bool 355 (dotPosition s))
            && negb (hasDecrementedThisCycleRef s)).
  - destruct (Z.leb (bpm s - 5) MIN_BPM); [repeat split; right; reflexivity|].
    destruct (Qle_bool (dotPosition s) 5 || Qle_bool 355 (dotPosition s));
      repeat split; left; reflexivity.
  - destruct (negb (Qle_bool (dotPosition s) 90) && negb (Qle_bool 270 (dotPosition s)));
      [destruct (hasDecrementedThisCycleRef s)|]; repeat split; left; reflexivity.
Qed.

Lemma handleTap_banner now (s : component) :
  isPlaying (handleTap now s) = isPlaying s /\
  showUpgradeMessage (handleTap now s) = showUpgradeMessage s /\
  session (handleTap now s) = session s.
Proof.
  unfold handleTap, setTimeout, addTimer.
  set (s2 := clearHandle (tapTimeoutRef (playTapTone s)) (playTapTone s)).
  assert (H2 : isPlaying s2 = isPlaying s /\ showUpgradeMessage s2 = showUpgradeMessage s /\
               session s2 = session s).
  { subst s2. split; [|split].
    - rewrite (@frame_clearHandle _ (fun y : component => isPlaying y))
        by (intros; reflexivity).
      unfold playTapTone. destruct (audioContextRef s); reflexivity.
    - rewrite (@frame_clearHandle _ (fun y : component => showUpgradeMessage y))
        by (intros; reflexivity).
      unfold playTapTone. destruct (audioContextRef s); reflexivity.
    - rewrite (@frame_clearHandle _ session) by (intros; reflexivity).
      unfold playTapTone. destruct (audioContextRef s); reflexivity. }
  destruct H2 as (<- & <- & <-). clearbody s2.
  cbv zeta.
  change (isPlaying (tapUpdate now s2) = isPlaying s2 /\
          showUpgradeMessage (tapUpdate now s2) = showUpgradeMessage s2 /\
          session (tapUpdate now s2) = session s2).
  unfold tapUpdate.
  destruct (Nat.leb 2 (length (tapWindow (tapTimes s2) now))); [|repeat split].
  destruct (calculatedBpm (tapWindow (tapTimes s2) now)) as [c|]; [|repeat split].
  destruct (_ && _); repeat split.
Qed.

Lemma offered_step (s s' : component) : step Trial s s' -> offered s -> offered s'.
Proof.
  intros Hstep H. inversion Hstep; subst.
  - cbn [togglePlay]. destruct (isPlaying s) eqn:Ep; cbn [negb].
    + revert H. apply offered_frame; [right|..];
        destruct (togglePlayRecovers s); reflexivity.
    + apply offered_hidden. destruct (togglePlayRecovers s); reflexivity.
  - revert H. apply offered_shell. exact (shell_press Touch d Trial now s).
  - revert H. apply offered_shell. exact (shell_release Touch d s).
  - revert H. apply offered_shell. exact (shell_press Mouse d Trial now s).
  - revert H. apply offered_shell. exact (shell_release Mouse d s).
  - destruct (fire_banner Trial t s) as (Hp & Hm & Hs).
    revert H. apply offered_frame; [left|..]; assumption.
  - match goal with Ha : animate _ _ = Some _ |- _ =>
      destruct (animate_banner _ _ Ha) as [Ht Hs] end.
    revert H. apply offered_frame; [left|..]; try assumption; rewrite Ht; reflexivity.
  - revert H. apply offered_frame; [left|..]; reflexivity.
  - apply offered_playEffect. exact H.
  - exact H.
  - revert H. apply offered_frame; [left|..];
      unfold handle75Percent; destruct (_ && _); reflexivity.
  - revert H. apply offered_frame; [left|..];
      unfold zoomEffect; destruct (_ && _); [destruct (_ || _)| | destruct (_ || _)|
                                             | destruct (_ || _)|]; reflexivity.
  - revert H. apply offered_frame; [left|..];
      unfold displayBpmEffect; destruct (negb _); reflexivity.
  - destruct (slowdownEffect_banner now s) as (Hp & Hm & Hs).
    revert H. apply offered_frame; assumption.
  - destruct (handleTap_banner now s) as (Hp & Hm & Hs).
    revert H. apply offered_frame; [left|..]; assumption.
  - revert H. apply offered_frame; [right|..]; reflexivity.
  - apply offered_hidden. reflexivity.
Qed.

(** X15. The upgrade message of part_001 is on the screen only while
    the metronome is stopped, the trial is expired and the user has not
    upgraded: this holds after mounting and after every handler, effect,
    frame and timer callback, the two buttons of the message and
    [handleClearSessionCount] included. *)
Theorem upgrade_message_offered :
  forall s : component,
    trialReachable s ->
    showUpgradeMessage s = true ->
    isPlaying s = false /\ isTrialExpired s = true /\ hasUpgraded s = false.
Proof.
  intros s Hreach. change (offered s).
  induction Hreach as [audio stored upgraded now | s s' _ IH Hev].
  - apply offered_hidden. cbn [mount]. unfold sessionEffect.
    destruct (Z.ltb MAX_TRIAL_SESSION_COUNT _ && negb upgraded); reflexivity.
  - destruct Hev as [s s' Hstep | s | s].
    + exact (offered_step Hstep IH).
    + apply offered_hidden. reflexivity.
    + apply offered_hidden. reflexivity.
Qed.

Lemma trial_then (s s' : component) :
  step Trial s s' -> trialReachable s -> trialReachable s'.
Proof. intros Hstep H. exact (trial_event H (event_step Hstep)). Qed.

Lemma trialReachable_fireNext (s : component) :
  trialReachable s -> trialReachable (fireNext s).
Proof.
  intros H. unfold fireNext. destruct (dueNext s) as [|t rest] eqn:E; [exact H|].
  apply (@trial_then s); [|exact H]. apply step_timer. apply In_dueNext.
  rewrite E. left. reflexivity.
Qed.

Lemma trialReachable_fires n (s : component) :
  trialReachable s -> trialReachable (Nat.iter n fireNext s).
Proof.
  intros H. induction n as [|n IH]; [exact H|].
  cbn [Nat.iter nat_rect]. apply trialReachable_fireNext. exact IH.
Qed.

Lemma upgrade_message_offered_witness :
  let expired := mount Trial false (Some 2%Z) false 0 in
  let tapped := handleTap 3000 (handleTap 1000 expired) in
  let started := playEffect Trial 5000 (togglePlay Trial tapped) in
  let s := playEffect Trial 16000 (slowdownEffect 16000 (Nat.iter 12 fireNext started)) in
  showUpgradeMessage s = true /\
  isPlaying s = false /\ isTrialExpired s = true /\ hasUpgraded s = false.
Proof.
  cbv zeta. split; [vm_compute; reflexivity|].
  apply upgrade_message_offered; [|vm_compute; reflexivity].
  apply trial_then with (1 := step_playEffect Trial 16000 _).
  apply trial_then with (1 := step_slowdown 16000 _).
  apply trialReachable_fires.
  apply trial_then with (1 := step_playEffect Trial 5000 _).
  apply trial_then with (1 := step_togglePlay Trial _).
  apply trial_then with (1 := step_tap 3000 _).
  apply trial_then with (1 := step_tap 1000 _).
  apply trial_mounted.
Defined.

End UpgradeMessage.

(** ** The host's table in part_000 *)

Section HoldTable.

Local Open Scope Z_scope.

Lemma nil_of_none (A : Type) (l : list A) : (forall x, In x l -> False) -> l = [].
Proof. destruct l as [|x l]; [reflexivity|]. intros H. destruct (H x). left. reflexivity. Qed.

Lemma holdTable_direction d h l t :
  holdTable d h l -> In t l -> holdDirection (action t) = Some d.
Proof.
  intros H Hin. destruct H; cbn [In] in Hin;
    repeat (destruct Hin as [<- | Hin]; [reflexivity|]); contradiction.
Qed.

Lemma orderly_frame (s s' : component) :
  hold s' = hold s -> timers s' = timers s -> nextHandle s' <> 0%nat ->
  orderly s -> orderly s'.
Proof.
  intros Hh Ht Hn [Htr Htab]. split; [exact (@tracked_frame s s' Hh Ht Hn Htr)|].
  rewrite Ht. destruct Htab as [Hnil | (d & h & Htab & Hi & Hq)]; [left; exact Hnil|].
  right. exists d, h. split; [exact Htab|].
  unfold quiet, intervalRef, timeoutsRef in *. rewrite Hh. split; assumption.
Qed.

(** The cleanup of part_000 empties the table. *)
Lemma cleanup_empties (s : component) :
  wired s ->
  (forall t, In t (timers s) -> holdDirection (action t) <> None) ->
  timers (cleanupAllIntervals Circle s) = [].
Proof.
  intros Hw Hall. apply nil_of_none. intros t Hin.
  destruct (cleanup_wired Hw) as [_ Hnone].
  apply (Hall t); [|exact (Hnone t Hin)].
  apply (In_cleanupAllIntervals Circle s t Hin).
Qed.

Lemma orderly_holdOnly (s : component) :
  orderly s -> forall t, In t (timers s) -> holdDirection (action t) <> None.
Proof.
  intros [_ [Hnil | (d & h & Htab & _)]] t Hin.
  - rewrite Hnil in Hin. contradiction.
  - rewrite (@holdTable_direction d h _ t Htab Hin). discriminate.
Qed.

Lemma armHold_other d v now (s : component) d' :
  d' <> d ->
  intervalRef d' (armHold d v now s) = intervalRef d' (cleanupAllIntervals v s) /\
  timeoutsRef d' (armHold d v now s) = timeoutsRef d' (cleanupAllIntervals v s).
Proof.
  intros Hne. unfold armHold.
  destruct (debounced_cells d v now (cleanupAllIntervals v s)) as (_ & _ & Hi & Hto & _).
  rewrite <- (Hi d'), <- (Hto d').
  generalize (debounced d v now (cleanupAllIntervals v s)). intros s1.
  unfold setInterval, setTimeout, addTimer.
  destruct d, d'; try congruence; split; reflexivity.
Qed.

(** What a press leaves, whatever was pending. *)
Lemma armHold_table d now (s : component) :
  wired s ->
  (forall t, In t (timers s) -> holdDirection (action t) <> None) ->
  timers (armHold d Circle now s) =
    [Build_timer (nextHandle s) (clock s + 500) (Some 500) (HoldRepeat d);
     Build_timer (S (nextHandle s)) (clock s + 3000) None (FirstAcceleration d)].
Proof.
  intros Hw Hall.
  destruct (armHold_shape d Circle now s) as (Ht & _).
  rewrite Ht, (@cleanup_empties s Hw Hall). reflexivity.
Qed.

Lemma armHold_orderly d now (s : component) :
  wired s ->
  (forall t, In t (timers s) -> holdDirection (action t) <> None) ->
  orderly (armHold d Circle now s).
Proof.
  intros Hw Hall. split; [apply armHold_tracked; exact Hw|].
  right. exists d, (nextHandle s).
  rewrite (@armHold_table d now s Hw Hall).
  split; [apply table_first; apply n_Sn|].
  destruct (armHold_shape d Circle now s) as (_ & _ & _ & Hi & _).
  split; [exact Hi|].
  intros d' Hne. destruct (@armHold_other d Circle now s d' Hne) as [Hi' Ht'].
  destruct (cleanup_cells Circle d' s) as (Hto & Hl & _).
  unfold quiet. rewrite Hi', Ht'. split; assumption.
Qed.

Lemma quiet_release d (s : component) :
  quiet d s -> releaseTimeouts d (releaseInterval d s) = set_timeoutsRef d [] s.
Proof.
  intros [Hl Ht]. unfold releaseInterval. rewrite Hl.
  unfold releaseTimeouts. rewrite Ht. reflexivity.
Qed.

Lemma release_orderly d (s : component) :
  orderly s ->
  touchActiveRef Increase s = false -> touchActiveRef Decrease s = false ->
  orderly (releaseTimeouts d (releaseInterval d s)).
Proof.
  intros [Htr Htab] H1 H2.
  destruct (@release_tracked d s (proj2 (proj2 Htr)) H1 H2) as [Htr' Hnil].
  split; [exact Htr'|].
  destruct (release_spec d s) as (_ & _ & _ & _ & _ & Hin).
  destruct Htab as [Hempty | (d0 & h & Htab & Hi & Hq)].
  - left. apply nil_of_none. intros t Ht. destruct (Hin t Ht) as [Ht0 _].
    rewrite Hempty in Ht0. exact Ht0.
  - assert (Hdec : d = d0 \/ d <> d0) by (destruct d, d0; (left; reflexivity) || (right; discriminate)).
    destruct Hdec as [-> | Hne].
    + left. apply nil_of_none. intros t Ht. destruct (Hin t Ht) as [Ht0 _].
      apply (proj1 (sessionTimers_nil d0 _) Hnil t Ht).
      exact (@holdTable_direction d0 h _ t Htab Ht0).
    + right. rewrite (@quiet_release d s (Hq d Hne)). exists d0, h.
      split; [exact Htab|].
      split; [rewrite <- Hi; destruct d, d0; try congruence; reflexivity|].
      intros d' Hne'. destruct (Hq d' Hne') as [Hl Ht].
      unfold quiet. rewrite <- Hl.
      split; [destruct d, d'; reflexivity|].
      destruct d, d0, d'; try congruence; reflexivity.
Qed.

Lemma rearm_interval t (s : component) period :
  every t = Some period ->
  timers (rearm t s) =
    map (fun u => if Nat.eqb (handle u) (handle t)
                  then Build_timer (handle u) (due u + period) (every u) (action u)
                  else u)
        (timers s).
Proof. intros H. unfold rearm. rewrite H. reflexivity. Qed.

Lemma rearm_timeout t (s : component) :
  every t = None ->
  timers (rearm t s) = filter (fun u => negb (Nat.eqb (handle u) (handle t))) (timers s).
Proof. intros H. unfold rearm. rewrite H. reflexivity. Qed.

(** The table and the cells after the first tier switch. *)
Lemma firstAcceleration_table d (s : component) h :
  intervalRef d s = Some h -> h <> 0%nat ->
  timers (firstAcceleration d s) =
    filter (fun u => negb (Nat.eqb (handle u) h)) (timers s)
    ++ [Build_timer (nextHandle s) (clock s + 300) (Some 300) (HoldRepeat d);
        Build_timer (S (nextHandle s)) (clock s + 2000) None (SecondAcceleration d)] /\
  intervalRef d (firstAcceleration d s) = Some (nextHandle s) /\
  (forall d', d' <> d ->
              intervalRef d' (firstAcceleration d s) = intervalRef d' s /\
              timeoutsRef d' (firstAcceleration d s) = timeoutsRef d' s).
Proof.
  intros Hi Hnz. unfold firstAcceleration. rewrite Hi.
  destruct h as [|h]; [contradiction|]. cbn [JS.live clearHandle].
  unfold setInterval, setTimeout, addTimer, clearTimer.
  split; [destruct d; cbn; rewrite <- app_assoc; reflexivity|].
  split; [destruct d; reflexivity|].
  intros d' Hne. destruct d, d'; try congruence; split; reflexivity.
Qed.

(** The table and the cells after the second tier switch of part_000. *)
Lemma secondAcceleration_table d (s : component) h :
  intervalRef d s = Some h -> h <> 0%nat ->
  timers (secondAcceleration Circle d s) =
    filter (fun u => negb (Nat.eqb (handle u) h)) (timers s)
    ++ [Build_timer (nextHandle s) (clock s + 200) (Some 200) (HoldRepeat d)] /\
  intervalRef d (secondAcceleration Circle d s) = Some (nextHandle s) /\
  (forall d', d' <> d ->
              intervalRef d' (secondAcceleration Circle d s) = intervalRef d' s /\
              timeoutsRef d' (secondAcceleration Circle d s) = timeoutsRef d' s).
Proof.
  intros Hi Hnz. unfold secondAcceleration. rewrite Hi.
  destruct h as [|h]; [contradiction|]. cbn [JS.live clearHandle].
  unfold setInterval, addTimer, clearTimer.
  split; [destruct d; reflexivity|].
  split; [destruct d; reflexivity|].
  intros d' Hne. destruct d, d'; try congruence; split; reflexivity.
Qed.

(** A repeat that fires keeps the table, its own due time apart. *)
Lemma repenextfires d h next period rest (s : component) :
  timers s = Build_timer h next (Some period) (HoldRepeat d) :: rest ->
  (forall u, In u rest -> handle u <> h) ->
  timers (fire Circle (Build_timer h next (Some period) (HoldRepeat d)) s) =
    Build_timer h (next + period) (Some period) (HoldRepeat d) :: rest /\
  hold (fire Circle (Build_timer h next (Some period) (HoldRepeat d)) s) = hold s.
Proof.
  intros Ht Hrest. unfold fire. cbn [action runCallback due].
  set (t := Build_timer h next (Some period) (HoldRepeat d)).
  split; [|apply (rearm_cells t (set_clock next s))].
  change (timers (rearm t (set_clock next s)) =
          Build_timer h (next + period) (Some period) (HoldRepeat d) :: rest).
  rewrite (@rearm_interval t _ period) by reflexivity.
  change (timers (set_clock next s)) with (timers s). rewrite Ht.
  subst t. cbn [map handle due every action]. rewrite Nat.eqb_refl. f_equal.
  rewrite <- (map_id rest) at 2. apply map_ext_in. intros u Hu.
  destruct (Nat.eqb_spec (handle u) h) as [E | _]; [|reflexivity].
  destruct (Hrest u Hu E).
Qed.

(** A timeout that fires leaves the table before its closure runs. *)
Lemma timeout_leaves r h next cb (s : component) :
  timers s = [r; Build_timer h next None cb] -> handle r <> h ->
  timers (rearm (Build_timer h next None cb) (set_clock next s)) = [r] /\
  hold (rearm (Build_timer h next None cb) (set_clock next s)) = hold s /\
  nextHandle (rearm (Build_timer h next None cb) (set_clock next s)) = nextHandle s.
Proof.
  intros Ht Hne.
  split; [|apply (rearm_cells (Build_timer h next None cb) (set_clock next s))].
  rewrite rearm_timeout by reflexivity.
  change (timers (set_clock next s)) with (timers s). rewrite Ht.
  cbn [filter handle]. rewrite Nat.eqb_refl.
  destruct (Nat.eqb_spec (handle r) h) as [E | _]; [destruct (Hne E) | reflexivity].
Qed.

Lemma fire_orderly t (s : component) :
  orderly s -> In t (timers s) -> orderly (fire Circle t s).
Proof.
  intros [Htr Htab] Hin. split; [apply fire_tracked; exact Htr|].
  destruct Htab as [Hnil | (d & h & Htab & Hi & Hq)];
    [rewrite Hnil in Hin; contradiction|].
  right. exists d.
  assert (Hnz : nextHandle s <> 0%nat) by (apply Htr).
  assert (Hh : h <> 0%nat).
  { destruct Htr as (_ & _ & _ & Hk).
    inversion Htab as [next h' next' Hne Heq | next h' next' Hne Heq | next Heq];
      refine (proj1 (Hk (Build_timer h next _ (HoldRepeat d)) _));
      rewrite <- Heq; left; reflexivity. }
  assert (Hquiet : forall x : component,
             (forall d', d' <> d -> intervalRef d' x = intervalRef d' s /\
                                    timeoutsRef d' x = timeoutsRef d' s) ->
             forall d', d' <> d -> quiet d' x).
  { intros x Hx d' Hne. destruct (Hx d' Hne) as [Hxi Hxt].
    destruct (Hq d' Hne) as [Hl Ht]. unfold quiet. rewrite Hxi, Hxt. split; assumption. }
  assert (Hheld : forall x : component, hold x = hold s ->
             intervalRef d x = Some h /\
             forall d', d' <> d -> quiet d' x).
  { intros x Hx. split; [unfold intervalRef; rewrite Hx; exact Hi|].
    apply Hquiet. intros d' _. unfold intervalRef, timeoutsRef. rewrite Hx.
    split; reflexivity. }
  inversion Htab as [next h' next' Hne Heq | next h' next' Hne Heq | next Heq];
    rewrite <- Heq in Hin; cbn [In] in Hin.
  - destruct Hin as [<- | [<- | []]].
    + destruct (@repenextfires d h next 500 _ s (eq_sym Heq)) as [Ht Hhold].
      { intros u [<- | []]. cbn. congruence. }
      exists h. rewrite Ht. split; [apply table_first; exact Hne|].
      apply Hheld. exact Hhold.
    + destruct (@timeout_leaves _ h' next' (FirstAcceleration d) s (eq_sym Heq) Hne)
        as (Ht & Hhold & Hn).
      unfold fire. cbn [action runCallback due].
      revert Ht Hhold Hn.
      generalize (rearm (Build_timer h' next' None (FirstAcceleration d))
                    (set_clock next' s)).
      intros x Ht Hhold Hn.
      destruct (Hheld x Hhold) as [Hxi Hxq].
      destruct (@firstAcceleration_table d x h Hxi Hh) as (Ht' & Hi' & Ho').
      exists (nextHandle x). rewrite Ht', Ht. cbn [filter handle].
      rewrite Nat.eqb_refl. cbn [negb app].
      split; [apply table_second; apply n_Sn|].
      split; [exact Hi'|].
      intros d' Hne'. destruct (Ho' d' Hne') as [Hoi Hot].
      destruct (Hxq d' Hne') as [Hl Hto]. unfold quiet. rewrite Hoi, Hot.
      split; assumption.
  - destruct Hin as [<- | [<- | []]].
    + destruct (@repenextfires d h next 300 _ s (eq_sym Heq)) as [Ht Hhold].
      { intros u [<- | []]. cbn. congruence. }
      exists h. rewrite Ht. split; [apply table_second; exact Hne|].
      apply Hheld. exact Hhold.
    + destruct (@timeout_leaves _ h' next' (SecondAcceleration d) s (eq_sym Heq) Hne)
        as (Ht & Hhold & Hn).
      unfold fire. cbn [action runCallback due].
      revert Ht Hhold Hn.
      generalize (rearm (Build_timer h' next' None (SecondAcceleration d))
                    (set_clock next' s)).
      intros x Ht Hhold Hn.
      destruct (Hheld x Hhold) as [Hxi Hxq].
      destruct (@secondAcceleration_table d x h Hxi Hh) as (Ht' & Hi' & Ho').
      exists (nextHandle x). rewrite Ht', Ht. cbn [filter handle].
      rewrite Nat.eqb_refl. cbn [negb app].
      split; [apply table_third|].
      split; [exact Hi'|].
      intros d' Hne'. destruct (Ho' d' Hne') as [Hoi Hot].
      destruct (Hxq d' Hne') as [Hl Hto]. unfold quiet. rewrite Hoi, Hot.
      split; assumption.
  - destruct Hin as [<- | []].
    destruct (@repenextfires d h next 200 _ s (eq_sym Heq)) as [Ht Hhold].
    { intros u []. }
    exists h. rewrite Ht. split; [apply table_third|].
    apply Hheld. exact Hhold.
Qed.

Lemma orderly_step (s s' : component) : step Circle s s' -> orderly s -> orderly s'.
Proof.
  intros Hstep H. remember Circle as v eqn:Hv.
  pose proof (proj1 (proj2 (proj2 (proj1 H)))) as Hnz.
  pose proof (proj1 (proj1 H)) as H1.
  pose proof (proj1 (proj2 (proj1 H))) as H2.
  destruct Hstep; try discriminate Hv; subst.
  - revert H. apply orderly_frame; try reflexivity. exact Hnz.
  - unfold handleTouchStart.
    replace (touchActiveRef d s) with false by (destruct d; symmetry; assumption).
    apply armHold_orderly.
    + apply wired_touchFlag. apply H.
    + intros t Hin. apply (orderly_holdOnly H). destruct d; exact Hin.
  - unfold handleTouchEnd.
    assert (Hflag : hold (set_touchActiveRef d false s) = hold s).
    { destruct s as [? ? ? ? ? ? [] ?]. cbn in H1, H2. subst.
      destruct d; reflexivity. }
    apply release_orderly.
    + revert H. apply orderly_frame; [exact Hflag | destruct d; reflexivity|].
      destruct d; exact Hnz.
    + destruct d; [reflexivity | exact H1].
    + destruct d; [exact H2 | reflexivity].
  - unfold handleMouseDown.
    replace (touchActiveRef d s) with false by (destruct d; symmetry; assumption).
    apply armHold_orderly; [apply H | exact (orderly_holdOnly H)].
  - unfold handleMouseUp.
    replace (touchActiveRef d s) with false by (destruct d; symmetry; assumption).
    apply release_orderly; assumption.
  - apply fire_orderly; assumption.
  - match goal with
    | Ha : animate _ _ = Some _ |- _ =>
        destruct (animate_cells _ _ Ha) as (Hh & Ht & Hn)
    end.
    revert H. apply orderly_frame; try assumption.
    destruct Hn as [-> | ->]; [exact Hnz | discriminate].
  - revert H. apply orderly_frame; try reflexivity. exact Hnz.
  - revert H.
    cbn [playEffect]. destruct (isPlaying s).
    + apply orderly_frame; try reflexivity. cbn. discriminate.
    + unfold stopAnimation. destruct (JS.live (animationRef s));
        apply orderly_frame; try reflexivity; exact Hnz.
  - revert H.
    cbn [bpmEffect]. destruct (isPlaying s); [|trivial].
    unfold stopAnimation.
    destruct (JS.live (animationRef (resetTiming now s)));
      apply orderly_frame; try reflexivity; cbn; discriminate.
  - revert H.
    unfold handle75Percent. destruct (_ && _); [|trivial].
    apply orderly_frame; try reflexivity. exact Hnz.
  - revert H.
    unfold zoomEffect. destruct (_ && _); [destruct (_ || _)|];
      apply orderly_frame; try reflexivity; exact Hnz.
Qed.

Lemma reachable_orderly (s : component) : reachable Circle s -> orderly s.
Proof.
  induction 1 as [audio stored upgraded now | s s' _ IH Hstep].
  - split; [apply tracked_mount | left; reflexivity].
  - exact (orderly_step Hstep IH).
Qed.

(** X16. One hold session at a time in part_000: in every state the
    component can reach the host's table is empty or is the table of the
    hold session of one control: its repeat interval (500 ms with the
    first timeout pending, 300 ms with the second timeout pending, or
    200 ms) and nothing else.  The handle of that interval is in the
    cell of the control, where a release finds it, and the cells of the
    other control hold no handle. *)
Theorem hold_table_shape :
  forall s : component,
    reachable Circle s ->
    timers s = [] \/
    exists d h, holdTable d h (timers s) /\ intervalRef d s = Some h /\
                forall d', d' <> d ->
                           JS.live (intervalRef d' s) = false /\ timeoutsRef d' s = [].
Proof.
  intros s Hr. exact (proj2 (reachable_orderly Hr)).
Qed.

Lemma hold_table_shape_witness :
  let s := fire Circle (Build_timer 2 3000 None (FirstAcceleration Decrease))
             (handleMouseDown Decrease Circle 1000 (mount Circle true None false 0)) in
  timers s = [Build_timer 3 3300 (Some 300) (HoldRepeat Decrease);
              Build_timer 4 5000 None (SecondAcceleration Decrease)] /\
  (timers s = [] \/
   exists d h, holdTable d h (timers s) /\ intervalRef d s = Some h /\
               forall d', d' <> d ->
                          JS.live (intervalRef d' s) = false /\ timeoutsRef d' s = []).
Proof.
  cbv zeta. split; [vm_compute; reflexivity|].
  apply hold_table_shape.
  apply reach_step
    with (s := handleMouseDown Decrease Circle 1000 (mount Circle true None false 0)).
  - apply reach_step with (s := mount Circle true None false 0).
    + apply reach_mount.
    + apply step_mouseDown.
  - apply step_timer.
    assert (Ht : timers (handleMouseDown Decrease Circle 1000
                           (mount Circle true None false 0)) =
                 [Build_timer 1 500 (Some 500) (HoldRepeat Decrease);
                  Build_timer 2 3000 None (FirstAcceleration Decrease)])
      by (vm_compute; reflexivity).
    rewrite Ht. right. left. reflexivity.
Defined.

(** X17. A press in part_000 ends whatever was pending, of either
    control: in every state the component can reach, after a touch start
    or a mouse down on a control the host's table holds the 500 ms
    interval and the 3000 ms timeout of that control, armed at the
    host's clock, and nothing else. *)
Theorem press_resets_table :
  forall (s : component) (p : pointer) (d : direction) (now : Z),
    reachable Circle s ->
    timers (press p d Circle now s) =
      [Build_timer (nextHandle s) (clock s + 500) (Some 500) (HoldRepeat d);
       Build_timer (S (nextHandle s)) (clock s + 3000) None (FirstAcceleration d)].
Proof.
  intros s p d now Hr. pose proof (reachable_orderly Hr) as H.
  pose proof (proj1 (proj1 H)) as H1.
  pose proof (proj1 (proj2 (proj1 H))) as H2.
  destruct p; cbn [press].
  - unfold handleTouchStart.
    replace (touchActiveRef d s) with false by (destruct d; symmetry; assumption).
    rewrite armHold_table.
    + destruct d; reflexivity.
    + apply wired_touchFlag. apply H.
    + intros t Hin. apply (orderly_holdOnly H). destruct d; exact Hin.
  - unfold handleMouseDown.
    replace (touchActiveRef d s) with false by (destruct d; symmetry; assumption).
    apply armHold_table; [apply H | exact (orderly_holdOnly H)].
Qed.

Lemma press_resets_table_witness :
  let held := fire Circle (Build_timer 2 3000 None (FirstAcceleration Decrease))
                (handleMouseDown Decrease Circle 1000 (mount Circle true None false 0)) in
  timers held = [Build_timer 3 3300 (Some 300) (HoldRepeat Decrease);
                 Build_timer 4 5000 None (SecondAcceleration Decrease)] /\
  timers (press Touch Increase Circle 5000 held) =
    [Build_timer 5 3500 (Some 500) (HoldRepeat Increase);
     Build_timer 6 6000 None (FirstAcceleration Increase)].
Proof.
  cbv zeta. split; [vm_compute; reflexivity|].
  apply (@press_resets_table
           (fire Circle (Build_timer 2 3000 None (FirstAcceleration Decrease))
              (handleMouseDown Decrease Circle 1000 (mount Circle true None false 0)))
           Touch Increase 5000).
  apply reach_step
    with (s := handleMouseDown Decrease Circle 1000 (mount Circle true None false 0)).
  - apply reach_step with (s := mount Circle true None false 0).
    + apply reach_mount.
    + apply step_mouseDown.
  - apply step_timer.
    assert (Ht : timers (handleMouseDown Decrease Circle 1000
                           (mount Circle true None false 0)) =
                 [Build_timer 1 500 (Some 500) (HoldRepeat Decrease);
                  Build_timer 2 3000 None (FirstAcceleration Decrease)])
      by (vm_compute; reflexivity).
    rewrite Ht. right. left. reflexivity.
Defined.

End HoldTable.
